(** * Quote-stream classifier (test_ws_analysis.py): model and proofs

    The tool captures ticks from a WebSocket under a per-symbol cap, runs
    four heuristics over the captured ticks and aggregates their evidence
    into one verdict.  Prices are IEEE binary64 values, as Python floats
    are; timestamps are Python numbers, ints of any size or floats, as
    [json.loads] returns them.  The Python library functions the script
    calls on them ([round], [set], fixed-point formatting, integer true
    division in [PyFloat]; comparison, subtraction, [sorted] and
    [statistics.mean] in [PyNumber]) are modelled on their values.

    The peer, the clock and the operator are the list of events the
    receive loop meets, one per iteration; the module-level globals
    ([captured_ticks], [total_tick_count], [analysis]) are threaded as a
    record.  Evidence records are the strings the script builds, and the
    aggregator classifies them by the markers they contain, as the
    script does.

    [Monitor] holds the status check and the two test commands of the
    rotation monitor (backend/schema/automation_monitor.py): what the
    machine answers to each probe is the input, and a call that raises
    is an outcome of its own. *)

From Stdlib Require Import ZArith List String Ascii Bool Lia DecimalString.
From Stdlib Require Import Sorted Permutation.
From Stdlib Require Import Floats.
From stdpp Require Import gmap strings.
Import ListNotations.

Set Warnings "-inexact-float".
Local Open Scope string_scope.
Local Open Scope list_scope.

(** ** Python numerics on binary64 *)
Module PyFloat.

(** Nearest integer to [a / b], ties to even ([0 <= a], [0 < b]). *)
Definition round_half_even_div (a b : Z) : Z :=
  let q := (a / b)%Z in
  match (2 * (a mod b) ?= b)%Z with
  | Lt => q
  | Gt => (q + 1)%Z
  | Eq => if Z.even q then q else (q + 1)%Z
  end.

(** Nearest integer, ties to even, to [m * 2^e * 10^d]: the digits that
    correctly rounded decimal conversion of a double keeps at [d] places. *)
Definition scaled_decimal (d : nat) (m : positive) (e : Z) : Z :=
  let p := (Z.pos m * 10 ^ Z.of_nat d)%Z in
  match e with
  | Zneg sh => round_half_even_div p (2 ^ Z.pos sh)
  | _ => (p * 2 ^ e)%Z
  end.

(** The double nearest to [(-1)^s * a * 2^e / b] (round to nearest even). *)
Definition nearest_quotient (s : bool) (a e : Z) (b : positive) : float :=
  match a with
  | Zpos p => SF2Prim (SFdiv prec emax (S754_finite s p e) (S754_finite false b 0))
  | _ => SF2Prim (S754_zero s)
  end.

(** [round(x, ndigits)] on a float: non-finite values and zeros come back
    unchanged; otherwise the value is rounded half-even to [ndigits]
    decimals on its exact binary expansion and the decimal result is read
    back as the nearest double. *)
Definition py_round (ndigits : nat) (x : float) : float :=
  match Prim2SF x with
  | S754_finite s m e =>
      nearest_quotient s (scaled_decimal ndigits m e) 0 (Z.to_pos (10 ^ Z.of_nat ndigits))
  | _ => x
  end.

(** [a / b] on Python ints: the correctly rounded quotient.  The script
    divides by the length of a list that is never empty where it divides
    ([price_changes] and [gaps] are guarded, a symbol's group holds at
    least one tick), so [b = 0] does not arise. *)
Definition int_truediv (a b : nat) : float :=
  nearest_quotient false (Z.of_nat a) 0 (Pos.of_nat b).

Definition float_of_nat (n : nat) : float := int_truediv n 1.

Definition is_finite (x : float) : bool := negb (is_nan x || is_infinity x).

(** [set(xs)] under an equality test: elements are kept in
    first-occurrence order; a value is added unless an element already
    present compares equal to it. *)
Section PySet.

Context {A : Type} (eqb : A -> A -> bool).

Definition set_add_by (seen : list A) (x : A) : list A :=
  if existsb (fun y => eqb y x) seen then seen else seen ++ [x].

Definition py_set_by (l : list A) : list A := fold_left set_add_by l [].

End PySet.

(** [set(xs)] on floats: every NaN counts and the two zeros count
    once. *)
Definition set_add (seen : list float) (x : float) : list float :=
  set_add_by PrimFloat.eqb seen x.

Definition py_set (l : list float) : list float := py_set_by PrimFloat.eqb l.

Definition distinct_count (l : list float) : nat := length (py_set l).

(** [[xs[i] - xs[i-1] for i in range(1, len(xs))]] *)
Fixpoint successive_differences (l : list float) : list float :=
  match l with
  | a :: (b :: _) as tl => (b - a)%float :: successive_differences tl
  | _ => []
  end.

Definition string_of_Z (z : Z) : string :=
  match z with
  | Z0 => "0"
  | _ => NilEmpty.string_of_uint (N.to_uint (Z.to_N z))
  end.

Fixpoint zeros (n : nat) : string :=
  match n with
  | O => ""
  | S n' => "0" +:+ zeros n'
  end.

Definition zero_pad (width : nat) (s : string) : string :=
  zeros (width - String.length s) +:+ s.

Definition fixed_digits (d : nat) (k : Z) : string :=
  match d with
  | O => string_of_Z k
  | _ => string_of_Z (k / 10 ^ Z.of_nat d)
           +:+ "." +:+ zero_pad d (string_of_Z (k mod 10 ^ Z.of_nat d))
  end.

Definition sign_prefix (s : bool) : string := if s then "-" else "".

(** [format(x, ".<d>f")] *)
Definition format_fixed (d : nat) (x : float) : string :=
  match Prim2SF x with
  | S754_nan => "nan"
  | S754_infinity s => sign_prefix s +:+ "inf"
  | S754_zero s => sign_prefix s +:+ fixed_digits d 0
  | S754_finite s m e => sign_prefix s +:+ fixed_digits d (scaled_decimal d m e)
  end.

End PyFloat.

Import PyFloat.

(** ** Python numbers *)

(** A JSON number as [json.loads] returns it: an [int] of any size when
    the literal has neither fraction nor exponent, a [float] otherwise.
    Python computes on ints exactly and compares an int with a float by
    value; where it mixes the two in arithmetic it converts the int. *)
Module PyNumber.

Inductive number :=
| PInt (z : Z)
| PFloat (f : float).

(** [float(z)]: the double nearest to [z], ties to even.  From
    [2^1024 - 2^970] on Python raises [OverflowError] instead; the model
    answers infinity there, so it follows the script for ints within the
    range of a double. *)
Definition float_of_Z (z : Z) : float :=
  nearest_quotient (z <? 0)%Z (Z.abs z) 0 1.

Definition to_float (x : number) : float :=
  match x with
  | PInt z => float_of_Z z
  | PFloat f => f
  end.

Definition signed (s : bool) (m : positive) : Z := if s then Z.neg m else Z.pos m.

(** An int against a float, by value. *)
Definition compare_Z_SF (z : Z) (f : spec_float) : option comparison :=
  match f with
  | S754_nan => None
  | S754_infinity s => Some (if s then Gt else Lt)
  | S754_zero _ => Some (z ?= 0)%Z
  | S754_finite s m e =>
      match e with
      | Zneg sh => Some (z * 2 ^ Z.pos sh ?= signed s m)%Z
      | _ => Some (z ?= signed s m * 2 ^ e)%Z
      end
  end.

(** [None] when one side is NaN. *)
Definition num_compare (x y : number) : option comparison :=
  match x, y with
  | PInt a, PInt b => Some (a ?= b)%Z
  | PFloat f, PFloat g => SFcompare (Prim2SF f) (Prim2SF g)
  | PInt a, PFloat g => compare_Z_SF a (Prim2SF g)
  | PFloat f, PInt b => option_map CompOpp (compare_Z_SF b (Prim2SF f))
  end.

(** [x < y] *)
Definition num_ltb (x y : number) : bool :=
  match num_compare x y with
  | Some Lt => true
  | _ => false
  end.

(** [x == y] *)
Definition num_eqb (x y : number) : bool :=
  match num_compare x y with
  | Some Eq => true
  | _ => false
  end.

(** [x - y] *)
Definition num_sub (x y : number) : number :=
  match x, y with
  | PInt a, PInt b => PInt (a - b)
  | _, _ => PFloat (to_float x - to_float y)
  end.

(** [len(set(xs))]: every NaN counts; an int and a float of the same
    value count once. *)
Definition num_distinct_count (l : list number) : nat :=
  length (py_set_by num_eqb l).

(** [sorted(xs)]: stable, decided by [<] alone.  Any stable sort gives
    Python's result when [<] is a strict weak order on the inputs, that
    is, when no NaN is present; with a NaN the order Python leaves
    depends on its merge strategy. *)
Fixpoint insert_sorted (x : number) (l : list number) : list number :=
  match l with
  | [] => [x]
  | y :: l' => if num_ltb y x then y :: insert_sorted x l' else x :: l
  end.

Fixpoint py_sorted (l : list number) : list number :=
  match l with
  | [] => []
  | x :: l' => insert_sorted x (py_sorted l')
  end.

(** [[xs[i] - xs[i-1] for i in range(1, len(xs))]] *)
Fixpoint num_differences (l : list number) : list number :=
  match l with
  | a :: (b :: _) as tl => num_sub b a :: num_differences tl
  | _ => []
  end.

Definition num_is_int (x : number) : bool :=
  match x with
  | PInt _ => true
  | PFloat _ => false
  end.

Definition num_is_finite (x : number) : bool :=
  match x with
  | PInt _ => true
  | PFloat f => is_finite f
  end.

(** Exact sum of finite numbers, as [(M, E)] standing for [M * 2^E]. *)
Definition exact_add (acc : Z * Z) (x : number) : Z * Z :=
  let '(M, E) := acc in
  match x with
  | PInt z =>
      let E' := Z.min E 0 in
      ((M * 2 ^ (E - E') + z * 2 ^ (0 - E'))%Z, E')
  | PFloat f =>
      match Prim2SF f with
      | S754_finite s m e =>
          let E' := Z.min E e in
          ((M * 2 ^ (E - E') + signed s m * 2 ^ (e - E'))%Z, E')
      | _ => acc
      end
  end.

Definition exact_sum (l : list number) : Z * Z := fold_left exact_add l (0%Z, 0%Z).

(** The floats of a list that are not finite, in order. *)
Definition non_finite (l : list number) : list float :=
  flat_map (fun x => match x with
                     | PFloat f => if is_finite f then [] else [f]
                     | PInt _ => []
                     end) l.

(** [statistics.mean] on a non-empty list: the exact rational mean, as
    an int when all values are ints and the mean is whole, and otherwise
    rounded once to a double; when some value is not finite, the float
    sum of the non-finite values divided by the count. *)
Definition py_mean (l : list number) : number :=
  let n := Pos.of_nat (length l) in
  if forallb num_is_finite l then
    let '(M, E) := exact_sum l in
    if forallb num_is_int l && (M mod Z.pos n =? 0)%Z then PInt (M / Z.pos n)
    else PFloat (nearest_quotient (M <? 0)%Z (Z.abs M) E n)
  else
    PFloat (fold_left PrimFloat.add (non_finite l) 0 / float_of_nat (length l))%float.

End PyNumber.

Import PyNumber.

(** ** Data model *)

(** A timestamp of the feed is a JSON number, whole or fractional.
    Whole timestamps are taken below [2^1022] in magnitude (seconds,
    milliseconds or nanoseconds since the epoch are far below): a gap
    between two of them then converts to a double wherever the script
    subtracts a float from it or formats it, where Python raises
    [OverflowError] on a larger int. *)
Definition WHOLE_LIMIT : Z := 2 ^ 1022.

Record whole := mkWhole {
  whole_value : Z;
  whole_bounded : (Z.abs whole_value <? WHOLE_LIMIT)%Z = true
}.

Inductive stamp :=
| WholeStamp (w : whole)
| FloatStamp (f : float).

(** The Python value of a timestamp. *)
Definition stamp_number (s : stamp) : number :=
  match s with
  | WholeStamp w => PInt (whole_value w)
  | FloatStamp f => PFloat f
  end.

(** A captured tick: the JSON object of a ["tick"] message.  Prices are
    doubles.  ['lp'] is optional in the feed and is read with
    [tick.get('lp', ...)]. *)
Record tick := mkTick {
  symbol : string;
  bid : float;
  ask : float;
  timestamp : stamp;
  lp : option string
}.

(** An inbound JSON object as the receive loop sees it: every key may be
    missing.  Present keys carry values of the type the feed documents. *)
Record message := mkMessage {
  m_type : option string;
  m_symbol : option string;
  m_bid : option float;
  m_ask : option float;
  m_timestamp : option stamp;
  m_lp : option string
}.

(** The analyzers index ['symbol'], ['bid'], ['ask'] and ['timestamp']
    with [tick[...]]: a captured object lacking one of them raises
    [KeyError] there. *)
Definition as_tick (m : message) : option tick :=
  match m_symbol m, m_bid m, m_ask m, m_timestamp m with
  | Some s, Some b, Some a, Some t => Some (mkTick s b a t (m_lp m))
  | _, _, _, _ => None
  end.

Definition tick_message (t : tick) : message :=
  mkMessage (Some "tick") (Some (symbol t)) (Some (bid t)) (Some (ask t))
            (Some (timestamp t)) (lp t).

(** [analysis = {'lp_sources': set(), 'symbols': set(), 'evidence': []}] *)
Record analysis_t := mkAnalysis {
  lp_sources : gset string;
  symbols : gset string;
  evidence : list string
}.

Definition analysis_init : analysis_t := mkAnalysis ∅ ∅ [].

Inductive verdict := SIMULATED | REAL | LIKELY_SIMULATED | INCONCLUSIVE.

(** Configuration *)
Definition WS_URL : string := "ws://localhost:7999/ws".
Definition CAPTURE_COUNT : nat := 20.
Definition TIMEOUT : nat := 30.

(** ** Insertion-ordered dictionaries ([dict], [defaultdict(list)]) *)

(** [d[k].append(v)] on a [defaultdict(list)]: a new key goes last. *)
Fixpoint dict_append {A : Type} (k : string) (v : A) (d : list (string * list A))
  : list (string * list A) :=
  match d with
  | [] => [(k, [v])]
  | (k', vs) :: d' =>
      if String.eqb k' k then (k', vs ++ [v]) :: d' else (k', vs) :: dict_append k v d'
  end.

(** [d[k] = d.get(k, 0) + 1] *)
Fixpoint dict_incr (k : string) (d : list (string * nat)) : list (string * nat) :=
  match d with
  | [] => [(k, 1)]
  | (k', n) :: d' =>
      if String.eqb k' k then (k', S n) :: d' else (k', n) :: dict_incr k d'
  end.

(** [d[k]] of a [defaultdict(list)], read only for its length. *)
Fixpoint dict_get {A : Type} (k : string) (d : list (string * list A)) : list A :=
  match d with
  | [] => []
  | (k', vs) :: d' => if String.eqb k' k then vs else dict_get k d'
  end.

(** [by_symbol = defaultdict(list)], filled by
    [for tick in ticks: by_symbol[tick['symbol']].append(tick)] *)
Definition group_by_symbol (ticks : list tick) : list (string * list tick) :=
  fold_left (fun d t => dict_append (symbol t) t d) ticks [].

(** ** Evidence strings *)

(** [needle in hay] *)
Fixpoint contains (needle hay : string) : bool :=
  String.prefix needle hay
  || match hay with
     | EmptyString => false
     | String _ rest => contains needle rest
     end.

Definition WARN : string := "⚠️".
Definition CROSS : string := "❌".
Definition CHECK : string := "✅".
Definition dquote : string := String "034"%char EmptyString.

Definition lp_simulated_message : string :=
  CROSS +:+ " LP field shows " +:+ dquote +:+ "SIMULATED" +:+ dquote
        +:+ " - clear simulation marker".
Definition lp_real_message : string :=
  CHECK +:+ " LP field shows " +:+ dquote +:+ "YOFX" +:+ dquote
        +:+ " - indicates real FIX gateway data".
Definition low_regularity_message (sym : string) (ratio : float) : string :=
  WARN +:+ "  " +:+ sym +:+ ": Low regularity ratio (" +:+ format_fixed 3 ratio
       +:+ ") suggests simulated data".
Definition high_variation_message (sym : string) (ratio : float) : string :=
  CHECK +:+ " " +:+ sym +:+ ": High price variation (" +:+ format_fixed 3 ratio
        +:+ ") suggests real market data".
(** [avg_gap] as [format] takes it: an int is converted first. *)
Definition regular_intervals_message (avg_gap : float) : string :=
  WARN +:+ "  Very regular timestamp intervals (" +:+ format_fixed 2 avg_gap
       +:+ "s) suggests simulation".
Definition irregular_intervals_message : string :=
  CHECK +:+ " Irregular timestamp intervals suggest real market data".
Definition consistent_spread_message (sym : string) (consistency : float) : string :=
  WARN +:+ "  " +:+ sym +:+ ": Perfectly consistent spread ("
       +:+ format_fixed 1 (consistency * 100)%float +:+ "%) suggests simulation".
Definition variable_spread_message (sym : string) : string :=
  CHECK +:+ " " +:+ sym +:+ ": Variable spread suggests real market conditions".

(** ** The four analyzers *)

Definition lp_label (t : tick) : string := default "UNKNOWN" (lp t).

(** One pass of the first loop of [analyze_lp]. *)
Definition lp_step (acc : list (string * nat) * gset string) (t : tick)
  : list (string * nat) * gset string :=
  (dict_incr (lp_label t) (fst acc), {[ lp_label t ]} ∪ snd acc).

(** The body of the second loop of [analyze_lp], for one label. *)
Definition lp_evidence (label : string) : list string :=
  if String.eqb label "SIMULATED" then [lp_simulated_message]
  else if String.eqb label "YOFX" then [lp_real_message]
  else [].

Definition analyze_lp (ticks : list tick) (a : analysis_t) : analysis_t :=
  let '(lp_counts, sources) := fold_left lp_step ticks ([], lp_sources a) in
  mkAnalysis sources (symbols a)
             (evidence a ++ flat_map (fun kv => lp_evidence (fst kv)) lp_counts).

(** The loop body of [analyze_price_patterns] for one symbol. *)
Definition price_pattern_evidence (sym : string) (symbol_ticks : list tick)
  : list string :=
  if (length symbol_ticks <? 3)%nat then []
  else
    let price_changes := successive_differences (map bid symbol_ticks) in
    let unique_changes := distinct_count (map (py_round 6) price_changes) in
    let regularity_ratio :=
      match price_changes with
      | [] => 0%float
      | _ => int_truediv unique_changes (length price_changes)
      end in
    if (regularity_ratio <? 0.5)%float
    then [low_regularity_message sym regularity_ratio]
    else [high_variation_message sym regularity_ratio].

Definition analyze_price_patterns (ticks : list tick) (a : analysis_t) : analysis_t :=
  mkAnalysis (lp_sources a) (symbols a)
    (evidence a
     ++ flat_map (fun g => price_pattern_evidence (fst g) (snd g)) (group_by_symbol ticks)).

(** [analyze_timestamps] after [gaps] has been computed. *)
Definition timestamp_evidence (gaps : list number) : list string :=
  match gaps with
  | [] => []
  | _ =>
      let avg_gap := py_mean gaps in
      let unique_gaps := num_distinct_count gaps in
      let gap_regularity := int_truediv unique_gaps (length gaps) in
      if (gap_regularity <? 0.3)%float && num_ltb avg_gap (PInt 1)
      then [regular_intervals_message (to_float avg_gap)]
      else [irregular_intervals_message]
  end.

(** [[t['timestamp'] for t in ticks]] *)
Definition timestamps_of (ticks : list tick) : list number :=
  map (fun t => stamp_number (timestamp t)) ticks.

Definition timestamp_gaps (ticks : list tick) : list number :=
  num_differences (py_sorted (timestamps_of ticks)).

Definition analyze_timestamps (ticks : list tick) (a : analysis_t) : analysis_t :=
  mkAnalysis (lp_sources a) (symbols a)
    (evidence a ++ timestamp_evidence (timestamp_gaps ticks)).

(** The loop body of [analyze_spread] for one symbol. *)
Definition spread_evidence (sym : string) (symbol_ticks : list tick) : list string :=
  let spreads := map (fun t => py_round 6 (ask t - bid t)%float) symbol_ticks in
  let unique_spreads := distinct_count spreads in
  let spread_consistency := (1 - int_truediv unique_spreads (length spreads))%float in
  if (0.95 <? spread_consistency)%float
  then [consistent_spread_message sym spread_consistency]
  else [variable_spread_message sym].

Definition analyze_spread (ticks : list tick) (a : analysis_t) : analysis_t :=
  mkAnalysis (lp_sources a) (symbols a)
    (evidence a
     ++ flat_map (fun g => spread_evidence (fst g) (snd g)) (group_by_symbol ticks)).

(** ** Verdict *)

Definition is_simulated_indicator (e : string) : bool :=
  contains WARN e || contains CROSS e.
Definition is_real_indicator (e : string) : bool := contains CHECK e.

Definition simulated_indicators (ev : list string) : nat :=
  length (List.filter is_simulated_indicator ev).
Definition real_indicators (ev : list string) : nat :=
  length (List.filter is_real_indicator ev).

Definition generate_verdict (a : analysis_t) : verdict :=
  let simulated := simulated_indicators (evidence a) in
  let real := real_indicators (evidence a) in
  if bool_decide ("SIMULATED" ∈ lp_sources a) then SIMULATED
  else if bool_decide ("YOFX" ∈ lp_sources a) && (simulated <? real)%nat then REAL
  else if (real <? simulated)%nat then LIKELY_SIMULATED
  else INCONCLUSIVE.

(** The tail of [capture_and_analyze]: the four analyzers in order, then
    the verdict. *)
Definition run_analyzers (all_ticks : list tick) (a : analysis_t) : analysis_t :=
  analyze_spread all_ticks
    (analyze_timestamps all_ticks
       (analyze_price_patterns all_ticks
          (analyze_lp all_ticks a))).

(** ** Stream capture *)

(** What [json.loads(message)] yields for one text frame. *)
Inductive payload :=
| Malformed                  (* raises json.JSONDecodeError *)
| NotAnObject                (* valid JSON without [.get]: AttributeError *)
| Undecodable                (* raises another exception: UnicodeDecodeError on
                                a binary frame that is not valid UTF-8,
                                ValueError on an integer literal over the
                                digit limit, RecursionError on nesting over
                                the recursion limit *)
| Object (m : message).

(** What happens at one iteration of [while True], as the clock, the peer
    and the operator decide. *)
Inductive event :=
| DeadlinePassed             (* more than TIMEOUT seconds have elapsed *)
| ReadTimeout                (* wait_for raised asyncio.TimeoutError *)
| ReadFailed                 (* recv raised another Exception, e.g. connection closed *)
| Received (p : payload)
| KeyboardInterrupt.         (* the operator pressed Ctrl-C *)

(** Lines the capture stage prints. *)
Inductive output :=
| OutTick (n : nat) (sym : string)   (* one of the first five ticks *)
| OutDeadline                        (* "Analysis timeout reached" *)
| OutParseError                      (* "Error parsing tick: ..." *)
| OutConnectionError                 (* "Connection error: ..." *)
| OutDisconnected                    (* "WebSocket disconnected" *)
| OutNoTicks                         (* "No ticks captured. ..." *)
| OutInterrupted.                    (* "Analysis interrupted by user" *)

(** The module-level globals, and what has been printed. *)
Record capture := mkCapture {
  captured_ticks : list (string * list message);
  total_tick_count : nat;
  analysis : analysis_t;
  printed : list output
}.

Definition capture_init : capture := mkCapture [] 0 analysis_init [].

Definition print (o : output) (c : capture) : capture :=
  mkCapture (captured_ticks c) (total_tick_count c) (analysis c) (printed c ++ [o]).

Definition add_symbol (sym : string) (a : analysis_t) : analysis_t :=
  mkAnalysis (lp_sources a) ({[ sym ]} ∪ symbols a) (evidence a).

Inductive control := Continue | Break | Raise.

Inductive loop_exit := EnoughData | Deadline.

Inductive loop_result :=
| LoopRunning (c : capture)               (* no event left: still receiving *)
| LoopDone (how : loop_exit) (c : capture)
| LoopRaised (c : capture)                (* an Exception left the inner try *)
| LoopInterrupted (c : capture).

(** How the process ends. *)
Inductive outcome :=
| Pending (c : capture)
| ConnectionError (c : capture)           (* except Exception: sys.exit(1) *)
| UserInterrupt (c : capture)             (* except KeyboardInterrupt: sys.exit(0) *)
| EmptyCapture (c : capture)              (* not all_ticks: sys.exit(1) *)
| AnalysisCrashed (c : capture)           (* KeyError inside an analyzer, uncaught;
                                             [c] is the state the loop left *)
| Verdict (c : capture) (v : verdict).    (* capture_and_analyze returned *)

Definition is_tick (m : message) : bool :=
  match m_type m with
  | Some ty => String.eqb ty "tick"
  | None => false
  end.

Definition symbols_with_enough (d : list (string * list message)) : nat :=
  length (List.filter (fun kv => (CAPTURE_COUNT <=? length (snd kv))%nat) d).

Section Capture.

(** [datetime.fromtimestamp(ts)] returns for the timestamps the platform
    can represent and raises for the others (NaN, infinities, years out
    of range). *)
Variable fromtimestamp_ok : stamp -> bool.

(** The body of [if tick.get('type') == 'tick':]. *)
Definition handle_tick (m : message) (c : capture) : control * capture :=
  let total := S (total_tick_count c) in
  match m_symbol m with
  | None => (Raise, mkCapture (captured_ticks c) total (analysis c) (printed c))
  | Some sym =>
      let an := add_symbol sym (analysis c) in
      let ticks :=
        if (length (dict_get sym (captured_ticks c)) <? CAPTURE_COUNT)%nat
        then dict_append sym m (captured_ticks c)
        else captured_ticks c in
      let c1 := mkCapture ticks total an (printed c) in
      let logged :=
        if (total <=? 5)%nat then
          match m_timestamp m, m_bid m, m_ask m with
          | Some ts, Some _, Some _ =>
              if fromtimestamp_ok ts then Some (print (OutTick total sym) c1) else None
          | _, _, _ => None
          end
        else Some c1 in
      match logged with
      | None => (Raise, c1)
      | Some c2 =>
          if (Nat.min 3 (size (symbols an)) <=? symbols_with_enough ticks)%nat
             && (CAPTURE_COUNT <=? total)%nat
          then (Break, c2)
          else (Continue, c2)
      end
  end.

(** The inner [try] for one received frame. *)
Definition handle_frame (p : payload) (c : capture) : control * capture :=
  match p with
  | Malformed => (Continue, print OutParseError c)
  | NotAnObject => (Raise, c)
  | Undecodable => (Raise, c)
  | Object m => if is_tick m then handle_tick m c else (Continue, c)
  end.

(** [while True: ...] *)
Fixpoint receive_loop (evs : list event) (c : capture) : loop_result :=
  match evs with
  | [] => LoopRunning c
  | DeadlinePassed :: _ => LoopDone Deadline (print OutDeadline c)
  | KeyboardInterrupt :: _ => LoopInterrupted c
  | ReadTimeout :: evs' => receive_loop evs' c
  | ReadFailed :: _ => LoopRaised c
  | Received p :: evs' =>
      match handle_frame p c with
      | (Continue, c') => receive_loop evs' c'
      | (Break, c') => LoopDone EnoughData c'
      | (Raise, c') => LoopRaised c'
      end
  end.

Definition all_ticks_of (c : capture) : list message :=
  flat_map snd (captured_ticks c).

(** Everything after the [try] of [capture_and_analyze]. *)
Definition analyze_capture (c : capture) : outcome :=
  let c := print OutDisconnected c in
  match all_ticks_of c with
  | [] => EmptyCapture (print OutNoTicks c)
  | all_ticks =>
      match mapM as_tick all_ticks with
      | None => AnalysisCrashed c
      | Some ticks =>
          let a := run_analyzers ticks (analysis c) in
          Verdict (mkCapture (captured_ticks c) (total_tick_count c) a (printed c))
                  (generate_verdict a)
      end
  end.

Definition capture_and_analyze (connected : bool) (evs : list event) (c : capture)
  : outcome :=
  if connected then
    match receive_loop evs c with
    | LoopRunning c' => Pending c'
    | LoopDone _ c' => analyze_capture c'
    | LoopRaised c' => ConnectionError (print OutConnectionError c')
    | LoopInterrupted c' => UserInterrupt (print OutInterrupted c')
    end
  else ConnectionError (print OutConnectionError c).

(** [if __name__ == '__main__':] on the freshly imported module. *)
Definition main (connected : bool) (evs : list event) : outcome :=
  capture_and_analyze connected evs capture_init.

End Capture.



Definition final_capture (o : outcome) : capture :=
  match o with
  | Pending c | ConnectionError c | UserInterrupt c | EmptyCapture c
  | AnalysisCrashed c | Verdict c _ => c
  end.

Definition verdict_of (o : outcome) : option verdict :=
  match o with
  | Verdict _ v => Some v
  | _ => None
  end.

(** ** Specification-side definitions *)



(** Distinct strings of a list, by first occurrence. *)
Definition note_symbol (seen : list string) (s : string) : list string :=
  if existsb (String.eqb s) seen then seen else seen ++ [s].

Definition distinct_symbols (ticks : list tick) : list string :=
  fold_left note_symbol (map symbol ticks) [].

(** The ticks of one symbol, in arrival order. *)
Definition ticks_of (sym : string) (ticks : list tick) : list tick :=
  List.filter (fun t => String.eqb (symbol t) sym) ticks.

Definition distinct_labels (ticks : list tick) : list string :=
  fold_left note_symbol (map lp_label ticks) [].

Definition not_nan (x : float) : Prop := is_nan x = false.



(** State the loop holds when it stops or runs out of events. *)
Definition loop_state (r : loop_result) : capture :=
  match r with
  | LoopRunning c | LoopDone _ c | LoopRaised c | LoopInterrupted c => c
  end.

Definition buffer_sizes (c : capture) : list (string * nat) :=
  map (fun kv => (fst kv, length (snd kv))) (captured_ticks c).

(** A tick that arrives when its symbol's buffer is already full. *)
Definition is_dropped (c : capture) (ev : event) : bool :=
  match ev with
  | Received (Object m) =>
      is_tick m
      && match m_symbol m with
         | Some sym => (CAPTURE_COUNT <=? length (dict_get sym (captured_ticks c)))%nat
         | None => false
         end
  | _ => false
  end.

Section Dropped.
Variable fromtimestamp_ok : stamp -> bool.

(** The arrival sequence without the ticks dropped at capacity, while the
    loop runs from [c]; what follows the end of the loop is kept as is. *)
Fixpoint without_dropped (evs : list event) (c : capture) : list event :=
  match evs with
  | [] => []
  | ev :: evs' =>
      match receive_loop fromtimestamp_ok [ev] c with
      | LoopRunning c' =>
          if is_dropped c ev then without_dropped evs' c'
          else ev :: without_dropped evs' c'
      | _ => ev :: evs'
      end
  end.
End Dropped.

(** Two states of the globals that differ at most in the received counter,
    which then reads at least CAPTURE_COUNT in both. *)
Definition same_but_count (c1 c2 : capture) : Prop :=
  captured_ticks c1 = captured_ticks c2
  /\ analysis c1 = analysis c2
  /\ printed c1 = printed c2
  /\ (total_tick_count c1 = total_tick_count c2
      \/ (CAPTURE_COUNT <= total_tick_count c1 /\ CAPTURE_COUNT <= total_tick_count c2)).

Definition same_loop_result (r1 r2 : loop_result) : Prop :=
  match r1, r2 with
  | LoopRunning c1, LoopRunning c2
  | LoopRaised c1, LoopRaised c2
  | LoopInterrupted c1, LoopInterrupted c2 => same_but_count c1 c2
  | LoopDone how1 c1, LoopDone how2 c2 => how1 = how2 /\ same_but_count c1 c2
  | _, _ => False
  end.

(** What the aggregator reads and what it answers. *)
Definition classification (o : outcome) : gset string * list string * option verdict :=
  (lp_sources (analysis (final_capture o)), evidence (analysis (final_capture o)),
   verdict_of o).

(** Two outcomes that end the same way. *)
Definition same_ending (o1 o2 : outcome) : Prop :=
  match o1, o2 with
  | Pending _, Pending _
  | ConnectionError _, ConnectionError _
  | UserInterrupt _, UserInterrupt _
  | EmptyCapture _, EmptyCapture _
  | AnalysisCrashed _, AnalysisCrashed _ => True
  | Verdict _ v1, Verdict _ v2 => v1 = v2
  | _, _ => False
  end.

(** No buffer above its cap. *)
Definition within_capacity (c : capture) : Prop :=
  Forall (fun kv => length (snd kv) <= CAPTURE_COUNT) (captured_ticks c).

(** What holds of the globals while the loop runs: every buffer holds
    between one and CAPTURE_COUNT ticks, no more than were received, under
    a symbol that has been recorded; and the buffers are empty exactly
    when nothing has been received. *)
Definition capture_inv (c : capture) : Prop :=
  Forall (fun kv => 1 <= length (snd kv) <= CAPTURE_COUNT
                    /\ length (snd kv) <= total_tick_count c
                    /\ fst kv ∈ symbols (analysis c))
         (captured_ticks c)
  /\ (captured_ticks c = [] <-> total_tick_count c = 0).

(** The target that lets the loop stop before the deadline. *)
Definition target_reached (c : capture) : Prop :=
  Nat.min 3 (size (symbols (analysis c))) <= symbols_with_enough (captured_ticks c)
  /\ CAPTURE_COUNT <= total_tick_count c.




(** The distinct values of a list under an equality test: [reps] holds
    values of [l], no two of them equal, among them one equal to each
    value of [l] that equals itself and every value of [l] that does not
    (a NaN). *)
Definition distinct_values {A : Type} (eqb : A -> A -> bool) (l reps : list A) : Prop :=
  incl reps l
  /\ ForallOrdPairs (fun a b => eqb a b = false) reps
  /\ (forall x, In x l -> eqb x x = true -> exists r, In r reps /\ eqb r x = true)
  /\ List.filter (fun x => negb (eqb x x)) reps
     = List.filter (fun x => negb (eqb x x)) l.

(** [k] is the integer nearest to [a / b], the even one of two equally
    near. *)
Definition nearest_even (a b k : Z) : Prop :=
  (Z.abs (2 * (a - k * b)) <= b)%Z
  /\ (Z.abs (2 * (a - k * b)) = b -> Z.even k = true)%Z.

(** [m * 2^e * 10^d] as a fraction of whole numbers. *)
Definition scaled_fraction (d : nat) (m : positive) (e : Z) : Z * Z :=
  match e with
  | Zneg sh => ((Z.pos m * 10 ^ Z.of_nat d)%Z, (2 ^ Z.pos sh)%Z)
  | _ => ((Z.pos m * 10 ^ Z.of_nat d * 2 ^ e)%Z, 1%Z)
  end.

(** [y] is [x] rounded to [d] decimals: for a finite [x] that is not
    zero, the double nearest to [k / 10^d] where [k] is the whole number
    nearest to [x * 10^d], ties to even; any other [x] itself. *)
Definition rounded_to (d : nat) (x y : float) : Prop :=
  match Prim2SF x with
  | S754_finite s m e =>
      exists k : Z,
        nearest_even (fst (scaled_fraction d m e)) (snd (scaled_fraction d m e)) k
        /\ y = nearest_quotient s k 0 (Z.to_pos (10 ^ Z.of_nat d))
  | _ => y = x
  end.







(** ** Sample data *)

Definition sample_tick (sym : string) (b a ts : float) (label : option string) : tick :=
  mkTick sym b a (FloatStamp ts) label.

(** Bids climbing by a constant step. *)
Definition constant_step_ticks : list tick :=
  [ sample_tick "EURUSD" 1.1000 1.1002 1700000000.0 (Some "YOFX");
    sample_tick "EURUSD" 1.1001 1.1003 1700000000.5 (Some "YOFX");
    sample_tick "EURUSD" 1.1002 1.1004 1700000001.3 (Some "YOFX");
    sample_tick "EURUSD" 1.1003 1.1005 1700000001.4 (Some "YOFX") ].

(** Ten ticks whose spread is 0.00020 throughout. *)
Definition constant_spread_ticks : list tick :=
  map (fun i => sample_tick "GBPUSD" (1.25 + i)%float (1.2502 + i)%float i None)
      [0; 1; 2; 3; 4; 5; 6; 7; 8; 9]%float.


(** Bids whose steps differ as doubles and agree at six decimals. *)
Definition merged_step_ticks : list tick :=
  map (fun b => sample_tick "EURUSD" b (b + 0.0002)%float 1700000000 None)
      [1.0; 1.1; 1.2; 1.3]%float.

(** Bids with two different steps among three. *)
Definition uneven_step_ticks : list tick :=
  map (fun b => sample_tick "EURUSD" b (b + 0.0002)%float 1700000000 None)
      [1.0; 1.1; 1.3; 1.4]%float.

(** Twenty-one ticks whose spread is 0.00020 at six decimals. *)
Definition steady_spread_ticks : list tick :=
  map (fun i => sample_tick "GBPUSD" (1.25 + i)%float (1.2502 + i)%float i None)
      (map float_of_nat (seq 0 21)).

(** The same with a spread of 0.00030 on the first tick. *)
Definition two_spread_ticks : list tick :=
  sample_tick "GBPUSD" 1.25 1.2503 0 None :: tl steady_spread_ticks.







(** Real-looking ticks with one tick labelled SIMULATED among them. *)
Definition one_simulated_tick : list tick :=
  constant_step_ticks
  ++ [sample_tick "GBPUSD" 1.25 1.2502 1700000002.1 (Some "SIMULATED")].

Definition always_ok (ts : stamp) : bool := true.

Definition feed (sym : string) (label : option string) : event :=
  Received (Object (tick_message (sample_tick sym 1.1 1.2 1700000000 label))).

(** Two symbols fed from the gateway until both buffers are full. *)
Definition gateway_feed : list event :=
  feed "EURUSD" (Some "YOFX") :: repeat (feed "GBPUSD" (Some "YOFX")) 20
  ++ repeat (feed "EURUSD" (Some "YOFX")) 19.

(** The same arrivals, with one tick labelled SIMULATED arriving for
    GBPUSD once its buffer is full. *)
Definition gateway_feed_with_late_simulated : list event :=
  feed "EURUSD" (Some "YOFX") :: repeat (feed "GBPUSD" (Some "YOFX")) 20
  ++ feed "GBPUSD" (Some "SIMULATED") :: repeat (feed "EURUSD" (Some "YOFX")) 19.

(** ** Further specification-side definitions *)

(** Events that leave the globals and the output as they are: a read
    timeout, and an object whose ['type'] is not ["tick"]. *)
Definition is_noop (ev : event) : bool :=
  match ev with
  | ReadTimeout => true
  | Received (Object m) => negb (is_tick m)
  | _ => false
  end.

(** [tick.get('lp', 'UNKNOWN')] on a captured object. *)
Definition message_label (m : message) : string := default "UNKNOWN" (m_lp m).


(** The ticks of [constant_step_ticks] as they arrive, then the deadline. *)
Definition constant_step_feed : list event :=
  map (fun t => Received (Object (tick_message t))) constant_step_ticks
  ++ [DeadlinePassed].



(** The objects of type "tick" among the frames received, in arrival
    order. *)
Definition received_ticks (evs : list event) : list message :=
  flat_map (fun ev => match ev with
                      | Received (Object m) => if is_tick m then [m] else []
                      | _ => []
                      end) evs.

Definition has_symbol (sym : string) (m : message) : bool :=
  match m_symbol m with
  | Some s => String.eqb s sym
  | None => false
  end.

(** The symbols of the received ticks, one per tick, in arrival order. *)
Definition received_symbols (evs : list event) : list string :=
  flat_map (fun m => match m_symbol m with
                     | Some s => [s]
                     | None => []
                     end) (received_ticks evs).

(** The numbers of the tick lines printed so far. *)
Definition tick_numbers (c : capture) : list nat :=
  flat_map (fun o => match o with
                     | OutTick n _ => [n]
                     | _ => []
                     end) (printed c).

(** The set of symbols is the set of buffer keys, each key held once. *)
Definition keys_inv (c : capture) : Prop :=
  symbols (analysis c) = list_to_set (map fst (captured_ticks c))
  /\ List.NoDup (map fst (captured_ticks c)).

(** Every buffered tick stands under its own symbol. *)
Definition keyed_inv (c : capture) : Prop :=
  Forall (fun kv => Forall (fun m => m_symbol m = Some (fst kv)) (snd kv))
         (captured_ticks c).

(** Three ticks of one symbol. *)
Definition three_ticks : list tick :=
  [ sample_tick "EURUSD" 1.1000 1.1002 1700000000.0 None;
    sample_tick "EURUSD" 1.1001 1.1003 1700000001.0 None;
    sample_tick "EURUSD" 1.1002 1.1004 1700000002.0 None ].

(** Whether every byte of a string is below 128 (plain ASCII). *)
Fixpoint ascii_only (s : string) : bool :=
  match s with
  | EmptyString => true
  | String a rest => (nat_of_ascii a <? 128)%nat && ascii_only rest
  end.

(** Whether every byte of a string is 128 or above, as in the UTF-8
    encoding of a character outside ASCII. *)
Fixpoint high_only (s : string) : bool :=
  match s with
  | EmptyString => true
  | String a rest => (128 <=? nat_of_ascii a)%nat && high_only rest
  end.

(** [d.get(k, 0)] on the dictionary of counts. *)
Fixpoint dict_count (k : string) (d : list (string * nat)) : nat :=
  match d with
  | [] => 0
  | (k', n) :: d' => if String.eqb k' k then n else dict_count k d'
  end.

(** The ticks that carry a given label. *)
Definition ticks_labelled (l : string) (ticks : list tick) : list tick :=
  List.filter (fun t => String.eqb (lp_label t) l) ticks.

(** Two states with the same buffers, counter and set of symbols. *)
Definition same_core (c1 c2 : capture) : Prop :=
  captured_ticks c1 = captured_ticks c2
  /\ total_tick_count c1 = total_tick_count c2
  /\ symbols (analysis c1) = symbols (analysis c2).



(** ** Evidence records with a polarity *)














(** * The rotation monitor ([backend/schema/automation_monitor.py]) *)

Module Monitor.

(** [os.name == "nt"], or not. *)
Inductive platform := Windows | Posix.

(** A call that returns a value or raises. *)
Inductive result (A : Type) :=
| Returns (a : A)
| Raises.
Arguments Returns {A} a.
Arguments Raises {A}.

Definition bind {A B : Type} (r : result A) (f : A -> result B) : result B :=
  match r with
  | Returns a => f a
  | Raises => Raises
  end.

Notation "'let!' x ':=' r 'in' k" := (bind r (fun x => k))
  (at level 10, x name, r at level 100, k at level 200).

(** [result.stdout.strip()] of the scheduled-task query, as [bool(...)]
    and [int(...)] take it. *)
Inductive task_output :=
| Blank                      (* empty: falsy *)
| Unparsable                 (* int() raises ValueError *)
| Number (n : Z).

(** The fields of [shutil.disk_usage(...)] that are read, in bytes. *)
Record usage := mkUsage { used : N; total : N }.

(** What the machine answers to the probes of [check_system_status], in
    the order in which they are made. *)
Record machine := mkMachine {
  os_name : platform;
  rotate_script_exists : result bool;        (* rotate_script.exists() *)
  compress_script_exists : result bool;      (* compress_script.exists() *)
  db_dir_exists : result bool;               (* self.db_dir.exists(), check 2 *)
  metadata_file_exists : result bool;        (* self.metadata_file.exists() *)
  scheduled_tasks : result (Z * task_output);
    (* subprocess.run(["powershell.exe", ...]): returncode and stdout *)
  db_dir_exists_again : result bool;         (* self.db_dir.exists(), check 5 *)
  disk_usage : result usage                  (* shutil.disk_usage(self.db_dir) *)
}.

(** [checks_passed] and [checks_total]. *)
Record tally := mkTally { checks_passed : nat; checks_total : nat }.

(** [checks_total += 1] *)
Definition count_check (t : tally) : tally :=
  mkTally (checks_passed t) (S (checks_total t)).

(** [if ok: checks_passed += 1] *)
Definition pass (ok : bool) (t : tally) : tally :=
  if ok then mkTally (S (checks_passed t)) (checks_total t) else t.

(** Check 4.  Off Windows the call is
    [subprocess.run(["crontab", "-l"], capture_output=True, text=True,
    stderr=subprocess.DEVNULL)], which [subprocess.run] rejects with
    [ValueError] before it starts anything: [stderr] may not be given
    together with [capture_output]. *)
Definition scheduler_check (m : machine) : result bool :=
  match os_name m with
  | Windows =>
      let! r := scheduled_tasks m in
      if (fst r =? 0)%Z then
        match snd r with
        | Blank => Returns false
        | Unparsable => Raises
        | Number n => Returns (0 <? n)%Z
        end
      else Returns false
  | Posix => Raises
  end.

(** Check 5: [(stat.used / stat.total) * 100 < 80]. *)
Definition disk_check (m : machine) : result bool :=
  let! e := db_dir_exists_again m in
  if e : bool then
    let! u := disk_usage m in
    match total u with
    | N0 => Raises                                   (* ZeroDivisionError *)
    | Npos t =>
        let ratio := nearest_quotient false (Z.of_N (used u)) 0 t in
        if is_infinity ratio then Raises             (* OverflowError *)
        else Returns (ratio * 100 <? 80)%float
    end
  else Returns false.

(** [check_system_status]: the value returned and the two counters the
    summary line prints. *)
Definition check_system_status (m : machine) : result (bool * tally) :=
  let t := mkTally 0 0 in
  (* Check 1: script files exist *)
  let t := count_check t in
  let! r := rotate_script_exists m in
  let t := pass r t in
  let! c := compress_script_exists m in
  let t := pass c t in
  (* Check 2: DB directory exists *)
  let t := count_check t in
  let! d := db_dir_exists m in
  let t := pass d t in
  (* Check 3: Metadata file *)
  let t := count_check t in
  let! f := metadata_file_exists m in
  let t := pass f t in
  (* Check 4: Cron/Task Scheduler *)
  let t := count_check t in
  let! s := scheduler_check m in
  let t := pass s t in
  (* Check 5: Disk space *)
  let t := count_check t in
  let! k := disk_check m in
  let t := pass k t in
  Returns ((checks_passed t =? checks_total t)%nat, t).

(** The process [run_rotation_test] and [run_compression_test] start:
    the command line and the value of [DRY_RUN] put into its environment,
    if any. *)
Record invocation := mkInvocation {
  argv : list string;
  env_dry_run : option string
}.

Definition rotation_invocation (os : platform) (script : string) (dry_run : bool)
  : invocation :=
  match os with
  | Windows =>
      mkInvocation
        (["powershell.exe"; "-NoProfile"; "-ExecutionPolicy"; "Bypass";
          "-File"; script; "-Action"; "rotate"]
         ++ (if dry_run then ["-DryRun"] else []))
        None
  | Posix =>
      mkInvocation [script; "rotate"] (Some (if dry_run then "true" else "false"))
  end.

Definition compression_invocation (script : string) (dry_run : bool) : invocation :=
  mkInvocation [script; "compress"] (Some (if dry_run then "true" else "false")).

Section Tests.

(** [subprocess.run(cmd, ...)]: the return code, unless the call raises. *)
Variable run : invocation -> result Z.

(** The body of the [try] of both tests: any exception gives [False]. *)
Definition run_test (i : invocation) : bool :=
  match run i with
  | Returns returncode => (returncode =? 0)%Z
  | Raises => false
  end.

Definition run_rotation_test (os : platform) (script : string)
           (script_exists : result bool) (dry_run : bool) : result bool :=
  let! e := script_exists in
  if e : bool then Returns (run_test (rotation_invocation os script dry_run))
  else Returns false.

Definition run_compression_test (script : string) (script_exists : result bool)
           (dry_run : bool) : result bool :=
  let! e := script_exists in
  if e : bool then Returns (run_test (compression_invocation script dry_run))
  else Returns false.

(** [main] for the command [test-rotation]:
    [success = monitor.run_rotation_test(dry_run=args.dry_run or True)],
    then [sys.exit(0 if success else 1)]. *)
Definition main_test_rotation (os : platform) (script : string)
           (script_exists : result bool) (args_dry_run : bool) : result Z :=
  let! success := run_rotation_test os script script_exists (args_dry_run || true) in
  Returns (if success : bool then 0%Z else 1%Z).

(** [main] for the command [test-compression]. *)
Definition main_test_compression (script : string) (script_exists : result bool)
           (args_dry_run : bool) : result Z :=
  let! success := run_compression_test script script_exists (args_dry_run || true) in
  Returns (if success : bool then 0%Z else 1%Z).

End Tests.

(** The six probes that can add to [checks_passed]. *)
Definition probe_outcomes (m : machine) : list (result bool) :=
  [ rotate_script_exists m; compress_script_exists m; db_dir_exists m;
    metadata_file_exists m; scheduler_check m; disk_check m ].

Definition succeeded (r : result bool) : bool :=
  match r with
  | Returns true => true
  | _ => false
  end.

Definition successes (m : machine) : nat :=
  length (List.filter succeeded (probe_outcomes m)).

(** A Windows machine on which everything is in place: both scripts, the
    directory, the metadata, two scheduled tasks, a disk half full. *)
Definition healthy_windows : machine :=
  mkMachine Windows (Returns true) (Returns true) (Returns true) (Returns true)
            (Returns (0%Z, Number 2)) (Returns true)
            (Returns (mkUsage 50000000000 100000000000)).

(** The same machine with another operating system. *)
Definition healthy_posix : machine :=
  mkMachine Posix (Returns true) (Returns true) (Returns true) (Returns true)
            (Returns (0%Z, Number 2)) (Returns true)
            (Returns (mkUsage 50000000000 100000000000)).

End Monitor.

(** * Proofs *)

(** ** Lists, dictionaries and grouping *)

Lemma existsb_eqb_In (s : string) (l : list string) :
  existsb (String.eqb s) l = true <-> In s l.
Proof.
  rewrite existsb_exists. split.
  - intros [x [Hin Heq]]. apply String.eqb_eq in Heq. now subst.
  - intros Hin. exists s. split; [assumption | apply String.eqb_refl].
Qed.

Lemma existsb_eqb_not_In (s : string) (l : list string) :
  existsb (String.eqb s) l = false <-> ~ In s l.
Proof.
  rewrite <- existsb_eqb_In. destruct (existsb (String.eqb s) l); split; congruence.
Qed.

Lemma note_symbol_In (seen : list string) (s x : string) :
  In x (note_symbol seen s) <-> In x seen \/ x = s.
Proof.
  unfold note_symbol. destruct (existsb (String.eqb s) seen) eqn:E.
  - apply existsb_eqb_In in E. split; [auto | intros [H | ->]; assumption].
  - rewrite in_app_iff. simpl. intuition congruence.
Qed.

Lemma note_symbol_NoDup (seen : list string) (s : string) :
  List.NoDup seen -> List.NoDup (note_symbol seen s).
Proof.
  intros Hnd. unfold note_symbol.
  destruct (existsb (String.eqb s) seen) eqn:E; [assumption |].
  apply existsb_eqb_not_In in E.
  apply List.NoDup_app; [assumption | repeat constructor; simpl; tauto |].
  intros x Hx [<- | []]. contradiction.
Qed.

Lemma fold_note_symbol_In (l seen : list string) (x : string) :
  In x (fold_left note_symbol l seen) <-> In x seen \/ In x l.
Proof.
  revert seen. induction l as [| s l IH]; intros seen; simpl.
  - tauto.
  - rewrite IH, note_symbol_In. intuition congruence.
Qed.

Lemma fold_note_symbol_NoDup (l seen : list string) :
  List.NoDup seen -> List.NoDup (fold_left note_symbol l seen).
Proof.
  revert seen. induction l as [| s l IH]; intros seen Hnd; simpl; [assumption |].
  apply IH, note_symbol_NoDup, Hnd.
Qed.

Lemma distinct_symbols_snoc (ticks : list tick) (t : tick) :
  distinct_symbols (ticks ++ [t]) = note_symbol (distinct_symbols ticks) (symbol t).
Proof. unfold distinct_symbols. now rewrite map_app, fold_left_app. Qed.

Lemma distinct_symbols_In (ticks : list tick) (s : string) :
  In s (distinct_symbols ticks) <-> exists t, In t ticks /\ symbol t = s.
Proof.
  unfold distinct_symbols. rewrite fold_note_symbol_In, in_map_iff. simpl.
  split.
  - intros [[] | [t [Heq Hin]]]. eauto.
  - intros [t [Hin Heq]]. right. eauto.
Qed.

Lemma distinct_symbols_NoDup (ticks : list tick) : List.NoDup (distinct_symbols ticks).
Proof. apply fold_note_symbol_NoDup. constructor. Qed.

Lemma ticks_of_snoc (s : string) (ticks : list tick) (t : tick) :
  ticks_of s (ticks ++ [t])
  = ticks_of s ticks ++ (if String.eqb (symbol t) s then [t] else []).
Proof. unfold ticks_of. rewrite List.filter_app. reflexivity. Qed.

Lemma ticks_of_absent (s : string) (ticks : list tick) :
  ~ In s (distinct_symbols ticks) -> ticks_of s ticks = [].
Proof.
  intros Hnot. unfold ticks_of.
  induction ticks as [| t ticks IH] using rev_ind; [reflexivity |].
  rewrite List.filter_app. simpl.
  rewrite distinct_symbols_snoc, note_symbol_In in Hnot.
  destruct (String.eqb (symbol t) s) eqn:E.
  - apply String.eqb_eq in E. exfalso. apply Hnot. right. now symmetry.
  - rewrite IH; [reflexivity | tauto].
Qed.

Lemma group_by_symbol_snoc (ticks : list tick) (t : tick) :
  group_by_symbol (ticks ++ [t]) = dict_append (symbol t) t (group_by_symbol ticks).
Proof. unfold group_by_symbol. now rewrite fold_left_app. Qed.

(** Appending under key [k] to a dictionary laid out by distinct keys. *)
Lemma dict_append_layout (k : string) (t : tick) (F F' : string -> list tick)
      (keys : list string) :
  List.NoDup keys ->
  (forall s, s <> k -> F' s = F s) ->
  F' k = F k ++ [t] ->
  (~ In k keys -> F k = []) ->
  dict_append k t (map (fun s => (s, F s)) keys)
  = map (fun s => (s, F' s)) (note_symbol keys k).
Proof.
  intros Hnd Hother Hk Hfresh. unfold note_symbol.
  induction keys as [| s keys IH]; simpl.
  - rewrite Hk, Hfresh by tauto. reflexivity.
  - inversion Hnd as [| ? ? Hnotin Hnd']; subst.
    rewrite (String.eqb_sym k s).
    destruct (String.eqb s k) eqn:E; simpl.
    + apply String.eqb_eq in E. subst s. rewrite Hk. f_equal.
      apply map_ext_in. intros s Hin. cbv beta. f_equal. symmetry. apply Hother.
      intros ->. contradiction.
    + apply String.eqb_neq in E.
      destruct (existsb (String.eqb k) keys) eqn:Ex; simpl; rewrite (Hother s E); f_equal.
      * apply IH; [assumption |].
        intros Hnot. apply existsb_eqb_In in Ex. contradiction.
      * rewrite IH; [reflexivity | assumption |].
        intros Hnot. apply Hfresh. simpl. intros [-> | Hin]; [now apply E | contradiction].
Qed.

(** The dictionary built by the analyzers holds, for each distinct symbol
    in order of first arrival, that symbol's ticks in arrival order. *)
Lemma group_by_symbol_layout (ticks : list tick) :
  group_by_symbol ticks
  = map (fun s => (s, ticks_of s ticks)) (distinct_symbols ticks).
Proof.
  induction ticks as [| t ticks IH] using rev_ind; [reflexivity |].
  rewrite group_by_symbol_snoc, IH, distinct_symbols_snoc.
  apply dict_append_layout.
  - apply distinct_symbols_NoDup.
  - intros s Hne. rewrite ticks_of_snoc.
    destruct (String.eqb (symbol t) s) eqn:E.
    + apply String.eqb_eq in E. congruence.
    + apply app_nil_r.
  - rewrite ticks_of_snoc, String.eqb_refl. reflexivity.
  - apply ticks_of_absent.
Qed.

Lemma flat_map_map {A B C : Type} (f : B -> list C) (g : A -> B) (l : list A) :
  flat_map f (map g l) = flat_map (fun x => f (g x)) l.
Proof. induction l as [| x l IH]; simpl; [reflexivity | now rewrite IH]. Qed.

Lemma successive_differences_length (l : list float) :
  length (successive_differences l) = length l - 1.
Proof.
  induction l as [| a [| b l] IH]; simpl in *; try reflexivity.
  rewrite IH. lia.
Qed.

Lemma distinct_count_singleton (x : float) : distinct_count [x] = 1.
Proof. reflexivity. Qed.

(** ** Counting distinct values *)

Section PySetFacts.

Context {A : Type} (eqb : A -> A -> bool).

Lemma set_add_by_length (seen : list A) (x : A) :
  length seen <= length (set_add_by eqb seen x) <= S (length seen).
Proof.
  unfold set_add_by. destruct (existsb _ seen); [lia |]. rewrite length_app. simpl. lia.
Qed.

Lemma fold_set_add_by_length (l seen : list A) :
  length seen <= length (fold_left (set_add_by eqb) l seen) <= length seen + length l.
Proof.
  revert seen. induction l as [| x l IH]; intros seen; simpl; [lia |].
  pose proof (IH (set_add_by eqb seen x)). pose proof (set_add_by_length seen x). lia.
Qed.

Lemma py_set_by_bounds (l : list A) :
  l <> [] -> 1 <= length (py_set_by eqb l) <= length l.
Proof.
  destruct l as [| x l]; [congruence |]. intros _. unfold py_set_by.
  cbn [fold_left]. pose proof (fold_set_add_by_length l (set_add_by eqb [] x)).
  unfold set_add_by in *. cbn [existsb app length] in *. lia.
Qed.

Hypothesis eqb_refl_r : forall y x : A, eqb y x = true -> eqb x x = true.

Let unequal (a b : A) : Prop := eqb a b = false.
Let odd_one (x : A) : bool := negb (eqb x x).

Lemma unequal_snoc (seen : list A) (x : A) :
  ForallOrdPairs unequal seen ->
  existsb (fun y => eqb y x) seen = false ->
  ForallOrdPairs unequal (seen ++ [x]).
Proof.
  intros Hs Hx. induction Hs as [| a seen Ha Hs IH]; simpl.
  - repeat constructor.
  - simpl in Hx. apply orb_false_iff in Hx as [Hax Hx].
    constructor; [| now apply IH].
    apply Forall_app. split; [exact Ha |]. now repeat constructor.
Qed.

Lemma fold_set_add_by_values (l seen : list A) :
  ForallOrdPairs unequal seen ->
  incl (fold_left (set_add_by eqb) l seen) (seen ++ l)
  /\ incl seen (fold_left (set_add_by eqb) l seen)
  /\ ForallOrdPairs unequal (fold_left (set_add_by eqb) l seen)
  /\ (forall x, In x l -> eqb x x = true ->
       exists r, In r (fold_left (set_add_by eqb) l seen) /\ eqb r x = true)
  /\ List.filter odd_one (fold_left (set_add_by eqb) l seen)
     = List.filter odd_one seen ++ List.filter odd_one l.
Proof.
  revert seen. induction l as [| x l IH]; intros seen Hs; cbn [fold_left].
  - rewrite !app_nil_r. repeat split; auto using incl_refl.
    intros x [].
  - assert (Hs' : ForallOrdPairs unequal (set_add_by eqb seen x)).
    { unfold set_add_by. destruct (existsb _ seen) eqn:E; [exact Hs |].
      now apply unequal_snoc. }
    destruct (IH _ Hs') as (Hin & Hkeep & Hord & Hcov & Hodd).
    assert (Hsub : incl seen (set_add_by eqb seen x)).
    { unfold set_add_by. destruct (existsb _ seen); [apply incl_refl |].
      now apply incl_appl, incl_refl. }
    assert (Hsup : incl (set_add_by eqb seen x) (seen ++ [x])).
    { unfold set_add_by. destruct (existsb _ seen); [| apply incl_refl].
      now apply incl_appl, incl_refl. }
    split.
    { intros y Hy. apply Hin in Hy. apply in_app_or in Hy as [Hy | Hy].
      - apply Hsup in Hy. apply in_app_or in Hy as [Hy | [-> | []]];
          apply in_or_app; [now left | right; now left].
      - apply in_or_app. right. now right. }
    split; [intros y Hy; now apply Hkeep, Hsub |].
    split; [exact Hord |].
    split.
    { intros y [<- | Hy] Hyy; [| now apply Hcov].
      assert (Hx : exists r, In r (set_add_by eqb seen x) /\ eqb r x = true).
      { unfold set_add_by. destruct (existsb _ seen) eqn:E.
        - apply existsb_exists in E as (r & Hr & Hrx). now exists r.
        - exists x. split; [| exact Hyy]. apply in_or_app. right. now left. }
      destruct Hx as (r & Hr & Hrx). exists r. split; [now apply Hkeep | exact Hrx]. }
    rewrite Hodd. cbn [List.filter]. unfold set_add_by.
    destruct (existsb _ seen) eqn:E.
    + apply existsb_exists in E as (r & _ & Hrx). apply eqb_refl_r in Hrx.
      assert (Hx : odd_one x = false) by (unfold odd_one; now rewrite Hrx).
      now rewrite Hx.
    + rewrite List.filter_app. cbn [List.filter].
      destruct (odd_one x); [now rewrite <- app_assoc | now rewrite app_nil_r].
Qed.

(** [set(l)] holds the distinct values of [l]. *)
Lemma py_set_by_distinct (l : list A) : distinct_values eqb l (py_set_by eqb l).
Proof.
  destruct (fold_set_add_by_values l [] (FOP_nil _)) as (Hin & _ & Hord & Hcov & Hodd).
  unfold distinct_values, py_set_by. repeat split; assumption.
Qed.

End PySetFacts.

Lemma SFcompare_refl (a : spec_float) : a <> S754_nan -> SFcompare a a = Some Eq.
Proof.
  destruct a as [s | s | | s m e]; try congruence; intros _; simpl.
  - now destruct s.
  - now destruct s.
  - rewrite Z.compare_refl. destruct s; now rewrite Pos.compare_cont_refl.
Qed.

Lemma SFcompare_some_r (a b : spec_float) (c : comparison) :
  SFcompare a b = Some c -> b <> S754_nan.
Proof. destruct a, b; simpl; congruence. Qed.

Lemma float_eqb_refl_r (y x : float) :
  PrimFloat.eqb y x = true -> PrimFloat.eqb x x = true.
Proof.
  rewrite !FloatAxioms.eqb_spec. unfold SFeqb.
  destruct (SFcompare (Prim2SF y) (Prim2SF x)) as [c |] eqn:E; [| discriminate].
  intros _. now rewrite (SFcompare_refl _ (SFcompare_some_r _ _ _ E)).
Qed.


Lemma distinct_count_bounds (l : list float) :
  l <> [] -> 1 <= distinct_count l <= length l.
Proof. apply py_set_by_bounds. Qed.

Lemma num_distinct_count_bounds (l : list number) :
  l <> [] -> 1 <= num_distinct_count l <= length l.
Proof. apply py_set_by_bounds. Qed.

(** ** Evidence markers *)

Lemma prefix_append (p rest : string) : String.prefix p (p +:+ rest) = true.
Proof.
  induction p as [| c p IH]; simpl.
  - now destruct rest.
  - destruct (ascii_dec c c); [assumption | contradiction].
Qed.

Lemma contains_unfold (needle hay : string) :
  contains needle hay
  = String.prefix needle hay
    || match hay with
       | EmptyString => false
       | String _ rest => contains needle rest
       end.
Proof. destruct hay; reflexivity. Qed.

Lemma contains_prefix (p rest : string) : contains p (p +:+ rest) = true.
Proof. rewrite contains_unfold, prefix_append. reflexivity. Qed.

Lemma low_regularity_is_simulated (sym : string) (r : float) :
  is_simulated_indicator (low_regularity_message sym r) = true.
Proof.
  unfold is_simulated_indicator, low_regularity_message. now rewrite contains_prefix.
Qed.

Lemma high_variation_is_real (sym : string) (r : float) :
  is_real_indicator (high_variation_message sym r) = true.
Proof. unfold is_real_indicator, high_variation_message. apply contains_prefix. Qed.

Lemma consistent_spread_is_simulated (sym : string) (r : float) :
  is_simulated_indicator (consistent_spread_message sym r) = true.
Proof.
  unfold is_simulated_indicator, consistent_spread_message. now rewrite contains_prefix.
Qed.

Lemma variable_spread_is_real (sym : string) :
  is_real_indicator (variable_spread_message sym) = true.
Proof. unfold is_real_indicator, variable_spread_message. apply contains_prefix. Qed.



(** ** Source labels *)

Lemma lp_step_sources (ticks : list tick) (d : list (string * nat)) (S : gset string)
      (x : string) :
  x ∈ snd (fold_left lp_step ticks (d, S))
  <-> x ∈ S \/ exists t, In t ticks /\ lp_label t = x.
Proof.
  revert d S. induction ticks as [| t ticks IH]; intros d S; simpl.
  - split; [auto | intros [H | [t [[] _]]]; exact H].
  - unfold lp_step at 2. simpl. rewrite IH. rewrite elem_of_union, elem_of_singleton.
    split.
    + intros [[-> | H] | [t' [Hin Heq]]]; eauto.
    + intros [H | [t' [[-> | Hin] Heq]]]; eauto.
Qed.

Lemma analyze_lp_sources (ticks : list tick) (a : analysis_t) (x : string) :
  x ∈ lp_sources (analyze_lp ticks a)
  <-> x ∈ lp_sources a \/ exists t, In t ticks /\ lp_label t = x.
Proof.
  unfold analyze_lp. rewrite <- (lp_step_sources ticks [] (lp_sources a) x).
  destruct (fold_left lp_step ticks ([], lp_sources a)); reflexivity.
Qed.

Lemma dict_incr_keys (k : string) (d : list (string * nat)) :
  map fst (dict_incr k d) = note_symbol (map fst d) k.
Proof.
  unfold note_symbol. induction d as [| [k' n] d IH]; simpl; [reflexivity |].
  rewrite (String.eqb_sym k k').
  destruct (String.eqb k' k); simpl; [reflexivity |].
  rewrite IH. now destruct (existsb (String.eqb k) (map fst d)).
Qed.

Lemma lp_step_keys (ticks : list tick) (d : list (string * nat)) (S : gset string) :
  map fst (fst (fold_left lp_step ticks (d, S)))
  = fold_left note_symbol (map lp_label ticks) (map fst d).
Proof.
  revert d S. induction ticks as [| t ticks IH]; intros d S; simpl; [reflexivity |].
  unfold lp_step at 2. simpl. now rewrite IH, dict_incr_keys.
Qed.

(** [analyze_lp] adds one record for the label "SIMULATED" and one for the
    label "YOFX", in the order in which the labels were first seen. *)
Lemma analyze_lp_evidence (ticks : list tick) (a : analysis_t) :
  evidence (analyze_lp ticks a)
  = evidence a ++ flat_map lp_evidence (distinct_labels ticks).
Proof.
  unfold analyze_lp, distinct_labels.
  change (fold_left note_symbol (map lp_label ticks) [])
    with (fold_left note_symbol (map lp_label ticks) (map fst (@nil (string * nat)))).
  rewrite <- (lp_step_keys ticks [] (lp_sources a)).
  destruct (fold_left lp_step ticks ([], lp_sources a)) as [lp_counts sources].
  simpl. now rewrite flat_map_map.
Qed.

Lemma run_analyzers_sources (ticks : list tick) (a : analysis_t) :
  lp_sources (run_analyzers ticks a) = lp_sources (analyze_lp ticks a).
Proof. reflexivity. Qed.

Lemma run_analyzers_symbols (ticks : list tick) (a : analysis_t) :
  symbols (run_analyzers ticks a) = symbols a.
Proof.
  unfold run_analyzers, analyze_spread, analyze_timestamps, analyze_price_patterns,
    analyze_lp.
  destruct (fold_left lp_step ticks ([], lp_sources a)); reflexivity.
Qed.

(** ** Ordering of numbers and [sorted] *)

Lemma Prim2SF_not_nan (x : float) : not_nan x -> Prim2SF x <> S754_nan.
Proof.
  unfold not_nan, Prim2SF. intros ->.
  destruct (is_zero x); [discriminate |].
  destruct (is_infinity x); [discriminate |].
  destruct (Z.frexp x) as [r e].
  destruct (shr_fexp prec emax _ _ _) as [shr e'].
  destruct (shr_m shr); discriminate.
Qed.






Lemma insert_sorted_permutation (x : number) (l : list number) :
  Permutation (insert_sorted x l) (x :: l).
Proof.
  induction l as [| y l IH]; simpl; [reflexivity |].
  destruct (num_ltb y x); [| reflexivity].
  rewrite IH. apply perm_swap.
Qed.

Lemma py_sorted_permutation (l : list number) : Permutation (py_sorted l) l.
Proof.
  induction l as [| x l IH]; simpl; [reflexivity |].
  rewrite insert_sorted_permutation. now constructor.
Qed.

Lemma py_sorted_length (l : list number) : length (py_sorted l) = length l.
Proof. apply Permutation_length, py_sorted_permutation. Qed.




Lemma num_differences_length (l : list number) :
  length (num_differences l) = length l - 1.
Proof.
  induction l as [| a [| b l] IH]; [reflexivity | reflexivity |].
  change (num_differences (a :: b :: l)) with (num_sub b a :: num_differences (b :: l)).
  simpl length in *. lia.
Qed.

(** ** Rounding to decimals *)

Lemma round_half_even_div_nearest (a b : Z) :
  (0 < b)%Z -> nearest_even a b (round_half_even_div a b).
Proof.
  intros Hb. unfold nearest_even, round_half_even_div. cbv zeta.
  pose proof (Z.div_mod a b ltac:(lia)) as Hdm.
  pose proof (Z.mod_pos_bound a b Hb) as Hr.
  set (q := (a / b)%Z) in *. set (r := (a mod b)%Z) in *.
  destruct (Z.compare_spec (2 * r) b) as [He | Hl | Hg].
  - destruct (Z.even q) eqn:Ev.
    + split; [nia | intros _; exact Ev].
    + split; [nia |]. intros _. rewrite Z.even_add, Ev. reflexivity.
  - split; [nia | nia].
  - split; [nia | nia].
Qed.

Lemma nearest_even_unique (a b k k' : Z) :
  (0 < b)%Z -> nearest_even a b k -> nearest_even a b k' -> k = k'.
Proof.
  intros Hb [Hk Ek] [Hk' Ek'].
  assert (Hd : (k' = k \/ k' = k + 1 \/ k' = k - 1)%Z) by nia.
  destruct Hd as [-> | [-> | ->]]; [reflexivity | |].
  - assert (H1 : (Z.abs (2 * (a - k * b)) = b)%Z) by nia.
    assert (H2 : (Z.abs (2 * (a - (k + 1) * b)) = b)%Z) by nia.
    specialize (Ek H1). specialize (Ek' H2).
    rewrite Z.even_add, Ek in Ek'. discriminate.
  - assert (H1 : (Z.abs (2 * (a - k * b)) = b)%Z) by nia.
    assert (H2 : (Z.abs (2 * (a - (k - 1) * b)) = b)%Z) by nia.
    specialize (Ek H1). specialize (Ek' H2).
    rewrite Z.even_sub, Ek in Ek'. discriminate.
Qed.

Lemma scaled_fraction_pos (d : nat) (m : positive) (e : Z) :
  (0 < snd (scaled_fraction d m e))%Z.
Proof.
  unfold scaled_fraction. destruct e; cbn [snd]; first [lia | apply Z.pow_pos_nonneg; lia].
Qed.

Lemma scaled_decimal_nearest (d : nat) (m : positive) (e : Z) :
  nearest_even (fst (scaled_fraction d m e)) (snd (scaled_fraction d m e))
               (scaled_decimal d m e).
Proof.
  unfold scaled_fraction, scaled_decimal. cbv zeta. destruct e as [| p | p]; cbn [fst snd].
  - unfold nearest_even. split; [lia | lia].
  - unfold nearest_even. split; [lia | lia].
  - apply round_half_even_div_nearest. apply Z.pow_pos_nonneg; lia.
Qed.

(** [round(x, d)] is [x] rounded to [d] decimals, and nothing else is. *)
Lemma py_round_rounded (d : nat) (x y : float) :
  rounded_to d x y <-> y = py_round d x.
Proof.
  unfold rounded_to, py_round. destruct (Prim2SF x) as [s | s | | s m e]; try tauto.
  split.
  - intros (k & Hk & ->). f_equal.
    eapply nearest_even_unique; [apply scaled_fraction_pos | exact Hk |].
    apply scaled_decimal_nearest.
  - intros ->. exists (scaled_decimal d m e). split; [apply scaled_decimal_nearest |].
    reflexivity.
Qed.

(** ** Equality of doubles *)

Lemma is_nan_Prim2SF (x : float) : is_nan x = true <-> Prim2SF x = S754_nan.
Proof.
  split.
  - intros H. unfold Prim2SF. now rewrite H.
  - intros H. destruct (is_nan x) eqn:E; [reflexivity |].
    exfalso. now apply (Prim2SF_not_nan x E).
Qed.

Lemma SFcompare_Eq (a b : spec_float) :
  SFcompare a b = Some Eq ->
  a = b \/ exists s s', a = S754_zero s /\ b = S754_zero s'.
Proof.
  destruct a as [sa | sa | | sa ma ea], b as [sb | sb | | sb mb eb]; simpl;
    try discriminate;
    try (destruct sa; discriminate); try (destruct sb; discriminate).
  - intros _. right. eauto.
  - destruct sa, sb; try discriminate; intros _; now left.
  - destruct sa, sb; try discriminate;
      destruct (Z.compare_spec ea eb) as [-> | |]; try discriminate;
      intros H; left.
    + injection H as H. apply CompOpp_iff in H. simpl in H.
      apply Pos.compare_eq in H. now subst.
    + injection H as H. apply Pos.compare_eq in H. now subst.
Qed.

Lemma float_eqb_zero (x : float) :
  PrimFloat.eqb x 0 = true <-> exists s, Prim2SF x = S754_zero s.
Proof.
  rewrite FloatAxioms.eqb_spec. unfold SFeqb.
  change (Prim2SF 0) with (S754_zero false). split.
  - destruct (SFcompare (Prim2SF x) (S754_zero false)) as [[| |] |] eqn:E;
      try discriminate.
    intros _. apply SFcompare_Eq in E as [E | (s & s' & E & _)]; eauto.
  - intros [s ->]. reflexivity.
Qed.

(** Two doubles compare equal exactly when neither is a NaN and they
    are the same double or both are zeros. *)
Lemma float_eqb_true (x y : float) :
  PrimFloat.eqb x y = true
  <-> not_nan x /\ not_nan y
      /\ (x = y \/ (PrimFloat.eqb x 0 = true /\ PrimFloat.eqb y 0 = true)).
Proof.
  split.
  - rewrite FloatAxioms.eqb_spec. unfold SFeqb.
    destruct (SFcompare (Prim2SF x) (Prim2SF y)) as [[| |] |] eqn:E; try discriminate.
    intros _.
    assert (Hx : not_nan x).
    { unfold not_nan. destruct (is_nan x) eqn:N; [| reflexivity].
      apply is_nan_Prim2SF in N. rewrite N in E. discriminate. }
    assert (Hy : not_nan y).
    { unfold not_nan. destruct (is_nan y) eqn:N; [| reflexivity].
      apply is_nan_Prim2SF in N. rewrite N in E.
      destruct (Prim2SF x); discriminate. }
    split; [exact Hx | split; [exact Hy |]].
    apply SFcompare_Eq in E as [E | (s & s' & E1 & E2)].
    + left. now apply Prim2SF_inj.
    + right. split; apply float_eqb_zero; eauto.
  - intros (Hx & Hy & [-> | [Zx Zy]]); rewrite FloatAxioms.eqb_spec; unfold SFeqb.
    + rewrite SFcompare_refl; [reflexivity | now apply Prim2SF_not_nan].
    + apply float_eqb_zero in Zx as [s ->]. apply float_eqb_zero in Zy as [s' ->].
      reflexivity.
Qed.

(** ** Successive differences *)

Lemma successive_differences_nth (l : list float) (i : nat) :
  S i < length l ->
  nth i (successive_differences l) 0%float = (nth (S i) l 0 - nth i l 0)%float.
Proof.
  revert i. induction l as [| a [| b l] IH]; intros i Hi; simpl in Hi; try lia.
  change (successive_differences (a :: b :: l))
    with ((b - a)%float :: successive_differences (b :: l)).
  destruct i as [| i]; [reflexivity |].
  change (nth (S i) ((b - a)%float :: successive_differences (b :: l)) 0%float)
    with (nth i (successive_differences (b :: l)) 0%float).
  rewrite IH by (simpl; lia). reflexivity.
Qed.


(** ** The exact sum and the mean *)





(** ** NaN among the timestamps *)








(** ** Thresholds in whole numbers *)

Lemma regularity_below_half (u n : nat) :
  1 <= u <= n -> n <= 64 ->
  (int_truediv u n <? 0.5)%float = (2 * u <? n)%nat.
Proof.
  intros Hu Hn.
  assert (Htable :
            forallb (fun n => forallb (fun u => Bool.eqb (int_truediv u n <? 0.5)%float
                                                         (2 * u <? n)%nat)
                                      (seq 1 n))
                    (seq 1 64) = true) by (vm_compute; reflexivity).
  rewrite forallb_forall in Htable.
  assert (Hin : In n (seq 1 64)) by (apply in_seq; lia).
  specialize (Htable n Hin). rewrite forallb_forall in Htable.
  assert (Hiu : In u (seq 1 n)) by (apply in_seq; lia).
  specialize (Htable u Hiu). now apply eqb_prop in Htable.
Qed.

Lemma consistency_above_095 (u n : nat) :
  1 <= u <= n -> n <= 64 ->
  (0.95 <? 1 - int_truediv u n)%float = (20 * u <? n)%nat.
Proof.
  intros Hu Hn.
  assert (Htable :
            forallb (fun n => forallb (fun u => Bool.eqb (0.95 <? 1 - int_truediv u n)%float
                                                         (20 * u <? n)%nat)
                                      (seq 1 n))
                    (seq 1 64) = true) by (vm_compute; reflexivity).
  rewrite forallb_forall in Htable.
  assert (Hin : In n (seq 1 64)) by (apply in_seq; lia).
  specialize (Htable n Hin). rewrite forallb_forall in Htable.
  assert (Hiu : In u (seq 1 n)) by (apply in_seq; lia).
  specialize (Htable u Hiu). now apply eqb_prop in Htable.
Qed.


(** ** The price-pattern analyzer *)

Lemma analyze_price_patterns_evidence (ticks : list tick) (a : analysis_t) :
  evidence (analyze_price_patterns ticks a)
  = evidence a
    ++ flat_map (fun s => price_pattern_evidence s (ticks_of s ticks))
                (distinct_symbols ticks).
Proof.
  unfold analyze_price_patterns. simpl.
  now rewrite group_by_symbol_layout, flat_map_map.
Qed.

Lemma price_pattern_evidence_enough (sym : string) (g : list tick) :
  3 <= length g ->
  price_pattern_evidence sym g
  = let changes := successive_differences (map bid g) in
    let ratio :=
      int_truediv (distinct_count (map (py_round 6) changes)) (length changes) in
    [if (ratio <? 0.5)%float
     then low_regularity_message sym ratio
     else high_variation_message sym ratio].
Proof.
  intros Hlen. unfold price_pattern_evidence.
  destruct (Nat.ltb_spec (length g) 3) as [Hlt | _]; [lia |].
  pose proof (successive_differences_length (map bid g)) as Hsd.
  rewrite length_map in Hsd.
  destruct (successive_differences (map bid g)) as [| c cs] eqn:E.
  - simpl in Hsd. lia.
  - cbv zeta. now destruct (_ <? 0.5)%float.
Qed.

Lemma Forall2_map_r {A B : Type} (R : A -> B -> Prop) (f : A -> B) (l : list A) :
  (forall x, R x (f x)) -> Forall2 R l (map f l).
Proof. intros H. induction l; simpl; constructor; auto. Qed.

Lemma distinct_count_values (l : list float) :
  exists reps, distinct_values PrimFloat.eqb l reps /\ distinct_count l = length reps.
Proof.
  exists (py_set l). split; [| reflexivity].
  apply py_set_by_distinct, float_eqb_refl_r.
Qed.

(** C6: the price-pattern analyzer emits, for each distinct symbol in
    order of first arrival, nothing when the symbol has fewer than three
    ticks and otherwise exactly one record, computed from the [n - 1]
    successive bid differences of that symbol's ticks in arrival order:
    each difference is rounded to 6 decimals (the double nearest to
    [k / 10^6], [k] the whole number nearest to the difference times
    [10^6], ties to even), the distinct rounded values are counted (one
    for each class of equal values and one for each NaN), and ratio =
    distinct / number of differences; the record is the low-regularity
    (simulated) one when ratio < 0.5, that is, for up to 64 ticks, when
    twice the distinct count is below the number of differences, and the
    high-variation (real) one otherwise.  Four ticks with bids 1.1000,
    1.1001, 1.1002, 1.1003 give one distinct rounded difference out of
    three and the simulated record; so do bids 1.0, 1.1, 1.2, 1.3, whose
    differences are two different doubles before rounding; bids 1.0,
    1.1, 1.3, 1.4 give two distinct values out of three and the real
    record. *)
Theorem price_pattern_analyzer :
  (forall (ticks : list tick) (a : analysis_t),
      evidence (analyze_price_patterns ticks a)
      = evidence a
        ++ flat_map (fun s => price_pattern_evidence s (ticks_of s ticks))
                    (distinct_symbols ticks))
  /\ (forall (sym : string) (g : list tick),
         length g < 3 -> price_pattern_evidence sym g = [])
  /\ (forall (sym : string) (g : list tick),
         3 <= length g ->
         let changes := successive_differences (map bid g) in
         let rounded := map (py_round 6) changes in
         let ratio := int_truediv (distinct_count rounded) (length changes) in
         length changes = length g - 1
         /\ (forall i : nat,
                S i < length g ->
                nth i changes 0%float
                = (nth (S i) (map bid g) 0 - nth i (map bid g) 0)%float)
         /\ Forall2 (rounded_to 6) changes rounded
         /\ (exists reps : list float,
                distinct_values PrimFloat.eqb rounded reps
                /\ distinct_count rounded = length reps)
         /\ 1 <= distinct_count rounded <= length changes
         /\ price_pattern_evidence sym g
            = [if (ratio <? 0.5)%float
               then low_regularity_message sym ratio
               else high_variation_message sym ratio]
         /\ (length g <= 64 ->
             (ratio <? 0.5)%float
             = (2 * distinct_count rounded <? length changes)%nat))
  /\ (forall x y : float, rounded_to 6 x y <-> y = py_round 6 x)
  /\ (forall x y : float,
         PrimFloat.eqb x y = true
         <-> not_nan x /\ not_nan y
             /\ (x = y \/ (PrimFloat.eqb x 0 = true /\ PrimFloat.eqb y 0 = true)))
  /\ (forall (sym : string) (ratio : float),
         is_simulated_indicator (low_regularity_message sym ratio) = true
         /\ is_real_indicator (high_variation_message sym ratio) = true)
  /\ (forall (sym : string) (g : list tick),
         map bid g = [1.1000; 1.1001; 1.1002; 1.1003]%float ->
         distinct_count (map (py_round 6) (successive_differences (map bid g))) = 1
         /\ length (successive_differences (map bid g)) = 3
         /\ (int_truediv 1 3 <? 0.5)%float = true
         /\ price_pattern_evidence sym g
            = [low_regularity_message sym (int_truediv 1 3)])
  /\ (map (py_round 6)
          (successive_differences [1.1000; 1.1001; 1.1002; 1.1003]%float)
      = [0.0001; 0.0001; 0.0001]%float
      /\ low_regularity_message "EURUSD" (int_truediv 1 3)
         = "⚠️  EURUSD: Low regularity ratio (0.333) suggests simulated data")
  /\ (map bid merged_step_ticks = [1.0; 1.1; 1.2; 1.3]%float
      /\ successive_differences (map bid merged_step_ticks)
         = [0.10000000000000009; 0.09999999999999987; 0.10000000000000009]%float
      /\ distinct_count (successive_differences (map bid merged_step_ticks)) = 2
      /\ map (py_round 6) (successive_differences (map bid merged_step_ticks))
         = [0.1; 0.1; 0.1]%float
      /\ price_pattern_evidence "EURUSD" merged_step_ticks
         = ["⚠️  EURUSD: Low regularity ratio (0.333) suggests simulated data"])
  /\ (map bid uneven_step_ticks = [1.0; 1.1; 1.3; 1.4]%float
      /\ map (py_round 6) (successive_differences (map bid uneven_step_ticks))
         = [0.1; 0.2; 0.1]%float
      /\ distinct_count
           (map (py_round 6) (successive_differences (map bid uneven_step_ticks))) = 2
      /\ price_pattern_evidence "EURUSD" uneven_step_ticks
         = ["✅ EURUSD: High price variation (0.667) suggests real market data"]).
Proof.
  split; [exact analyze_price_patterns_evidence |].
  split.
  { intros sym g Hlen. unfold price_pattern_evidence.
    destruct (Nat.ltb_spec (length g) 3); [reflexivity | lia]. }
  split.
  { intros sym g Hlen. cbv zeta.
    assert (Hn : length (successive_differences (map bid g)) = length g - 1)
      by now rewrite successive_differences_length, length_map.
    assert (Hne : map (py_round 6) (successive_differences (map bid g)) <> []).
    { intros H. apply (f_equal (@length float)) in H.
      rewrite length_map, Hn in H. simpl in H. lia. }
    pose proof (distinct_count_bounds _ Hne) as Hu. rewrite length_map in Hu.
    split; [exact Hn |].
    split.
    { intros i Hi. apply successive_differences_nth. now rewrite length_map. }
    split.
    { apply Forall2_map_r. intros x. now apply py_round_rounded. }
    split; [apply distinct_count_values |].
    split; [exact Hu |].
    split; [now rewrite price_pattern_evidence_enough |].
    intros Hmax. apply regularity_below_half; [exact Hu | lia]. }
  split; [exact (py_round_rounded 6) |].
  split; [exact float_eqb_true |].
  split.
  { intros sym ratio. split.
    - apply low_regularity_is_simulated.
    - apply high_variation_is_real. }
  split.
  { intros sym g Hbids.
    assert (Hlen : length g = 4).
    { rewrite <- (length_map bid), Hbids. reflexivity. }
    rewrite price_pattern_evidence_enough by lia. cbv zeta. rewrite Hbids.
    assert (Hd : distinct_count
                   (map (py_round 6)
                        (successive_differences [1.1000; 1.1001; 1.1002; 1.1003]%float))
                 = 1) by (vm_compute; reflexivity).
    assert (Hn : length (successive_differences [1.1000; 1.1001; 1.1002; 1.1003]%float)
                 = 3) by reflexivity.
    assert (Hr : (int_truediv 1 3 <? 0.5)%float = true) by (vm_compute; reflexivity).
    rewrite Hd, Hn, Hr. repeat split. }
  split; [split; vm_compute; reflexivity |].
  split; [repeat split; vm_compute; reflexivity |].
  repeat split; vm_compute; reflexivity.
Qed.

Lemma price_pattern_analyzer_witness :
  map bid constant_step_ticks = [1.1000; 1.1001; 1.1002; 1.1003]%float
  /\ price_pattern_evidence "EURUSD" constant_step_ticks
     = [low_regularity_message "EURUSD" (int_truediv 1 3)]
  /\ 3 <= length uneven_step_ticks
  /\ (int_truediv
        (distinct_count
           (map (py_round 6) (successive_differences (map bid uneven_step_ticks))))
        (length (successive_differences (map bid uneven_step_ticks))) <? 0.5)%float
     = false.
Proof.
  assert (H : map bid constant_step_ticks = [1.1000; 1.1001; 1.1002; 1.1003]%float)
    by reflexivity.
  assert (H3 : 3 <= length uneven_step_ticks) by (simpl; lia).
  assert (H64 : length uneven_step_ticks <= 64) by (simpl; lia).
  split; [exact H |].
  split.
  { exact (proj2 (proj2 (proj2
             (proj1 (proj2 (proj2 (proj2 (proj2 (proj2 (proj2 price_pattern_analyzer))))))
                    "EURUSD" constant_step_ticks H)))). }
  split; [exact H3 |].
  destruct (proj1 (proj2 (proj2 price_pattern_analyzer)) "EURUSD" uneven_step_ticks H3)
    as (_ & _ & _ & _ & _ & _ & Hw).
  rewrite (Hw H64). vm_compute. reflexivity.
Defined.

(** ** The spread-consistency analyzer *)

Lemma analyze_spread_evidence (ticks : list tick) (a : analysis_t) :
  evidence (analyze_spread ticks a)
  = evidence a
    ++ flat_map (fun s => spread_evidence s (ticks_of s ticks)) (distinct_symbols ticks).
Proof.
  unfold analyze_spread. simpl. now rewrite group_by_symbol_layout, flat_map_map.
Qed.

Lemma ticks_of_present (sym : string) (ticks : list tick) :
  In sym (distinct_symbols ticks) -> 1 <= length (ticks_of sym ticks).
Proof.
  rewrite distinct_symbols_In. intros [t [Hin Heq]].
  assert (Hin' : In t (ticks_of sym ticks)).
  { unfold ticks_of. apply List.filter_In. split; [assumption |].
    now apply String.eqb_eq. }
  destruct (ticks_of sym ticks); [contradiction | simpl; lia].
Qed.

(** C7: the spread analyzer emits exactly one record for each distinct
    symbol, in order of first arrival and with no minimum count; the
    record is computed from the symbol's spreads [ask - bid], each
    rounded to 6 decimals (the double nearest to [k / 10^6], [k] the
    whole number nearest to the spread times [10^6], ties to even): the
    distinct rounded spreads are counted (one for each class of equal
    values and one for each NaN), consistency = 1 - distinct / ticks,
    and the record is the consistent-spread (simulated) one when
    consistency > 0.95, that is, for up to 64 ticks, when twenty times
    the distinct count is below the number of ticks, and the
    variable-spread (real) one otherwise.  Ten ticks whose rounded
    spread is 0.00020 throughout give consistency 0.9 and the real
    record; a single tick gives consistency 0 and the real record;
    twenty-one ticks whose spreads are two different doubles and
    0.00020 once rounded give the simulated record; the same with one
    spread of 0.00030 give two distinct values and the real record. *)
Theorem spread_analyzer :
  (forall (ticks : list tick) (a : analysis_t),
      evidence (analyze_spread ticks a)
      = evidence a
        ++ flat_map (fun s => spread_evidence s (ticks_of s ticks))
                    (distinct_symbols ticks))
  /\ (forall (sym : string) (ticks : list tick),
         In sym (distinct_symbols ticks) -> 1 <= length (ticks_of sym ticks))
  /\ (forall (sym : string) (g : list tick),
         g <> [] ->
         let spreads := map (fun t => py_round 6 (ask t - bid t)%float) g in
         let consistency :=
           (1 - int_truediv (distinct_count spreads) (length g))%float in
         Forall2 (fun t s => rounded_to 6 (ask t - bid t)%float s) g spreads
         /\ (exists reps : list float,
                distinct_values PrimFloat.eqb spreads reps
                /\ distinct_count spreads = length reps)
         /\ 1 <= distinct_count spreads <= length g
         /\ spread_evidence sym g
            = [if (0.95 <? consistency)%float
               then consistent_spread_message sym consistency
               else variable_spread_message sym]
         /\ (length g <= 64 ->
             (0.95 <? consistency)%float
             = (20 * distinct_count spreads <? length g)%nat))
  /\ (forall x y : float, rounded_to 6 x y <-> y = py_round 6 x)
  /\ (forall x y : float,
         PrimFloat.eqb x y = true
         <-> not_nan x /\ not_nan y
             /\ (x = y \/ (PrimFloat.eqb x 0 = true /\ PrimFloat.eqb y 0 = true)))
  /\ (forall (sym : string) (consistency : float),
         is_simulated_indicator (consistent_spread_message sym consistency) = true
         /\ is_real_indicator (variable_spread_message sym) = true)
  /\ (forall (sym : string) (g : list tick),
         map (fun t => py_round 6 (ask t - bid t)%float) g = repeat 0.00020%float 10 ->
         (1 - int_truediv (distinct_count (repeat 0.00020%float 10)) 10 = 0.9)%float
         /\ (0.95 <? 0.9)%float = false
         /\ spread_evidence sym g = [variable_spread_message sym])
  /\ (forall (sym : string) (t : tick),
         (1 - int_truediv
                (distinct_count [py_round 6 (ask t - bid t)%float]) 1 = 0)%float
         /\ spread_evidence sym [t] = [variable_spread_message sym])
  /\ (length steady_spread_ticks = 21
      /\ distinct_count (map (fun t => (ask t - bid t)%float) steady_spread_ticks) = 2
      /\ map (fun t => py_round 6 (ask t - bid t)%float) steady_spread_ticks
         = repeat 0.0002%float 21
      /\ distinct_count
           (map (fun t => py_round 6 (ask t - bid t)%float) steady_spread_ticks) = 1
      /\ spread_evidence "GBPUSD" steady_spread_ticks
         = ["⚠️  GBPUSD: Perfectly consistent spread (95.2%) suggests simulation"])
  /\ (length two_spread_ticks = 21
      /\ map (fun t => py_round 6 (ask t - bid t)%float) two_spread_ticks
         = 0.0003%float :: repeat 0.0002%float 20
      /\ distinct_count
           (map (fun t => py_round 6 (ask t - bid t)%float) two_spread_ticks) = 2
      /\ spread_evidence "GBPUSD" two_spread_ticks
         = ["✅ GBPUSD: Variable spread suggests real market conditions"]).
Proof.
  split; [exact analyze_spread_evidence |].
  split; [exact ticks_of_present |].
  split.
  { intros sym g Hg. cbv zeta.
    assert (Hne : map (fun t => py_round 6 (ask t - bid t)%float) g <> []).
    { destruct g; [congruence | discriminate]. }
    pose proof (distinct_count_bounds _ Hne) as Hu. rewrite length_map in Hu.
    split.
    { apply Forall2_map_r. intros t. now apply py_round_rounded. }
    split; [apply distinct_count_values |].
    split; [exact Hu |].
    split.
    { unfold spread_evidence. rewrite length_map. now destruct (0.95 <? _)%float. }
    intros Hmax. apply consistency_above_095; [exact Hu | exact Hmax]. }
  split; [exact (py_round_rounded 6) |].
  split; [exact float_eqb_true |].
  split.
  { intros sym c. split.
    - apply consistent_spread_is_simulated.
    - apply variable_spread_is_real. }
  split.
  { intros sym g Hspreads.
    assert (Hlen : length g = 10).
    { rewrite <- (length_map (fun t => py_round 6 (ask t - bid t)%float)), Hspreads.
      reflexivity. }
    assert (Hc : (1 - int_truediv (distinct_count (repeat 0.00020%float 10)) 10
                  = 0.9)%float) by (vm_compute; reflexivity).
    assert (Hcmp : (0.95 <? 0.9)%float = false) by (vm_compute; reflexivity).
    split; [exact Hc | split; [exact Hcmp |]].
    unfold spread_evidence. rewrite length_map, Hspreads, Hlen, Hc, Hcmp.
    reflexivity. }
  split.
  { intros sym t.
    assert (Hc : (1 - int_truediv 1 1 = 0)%float) by (vm_compute; reflexivity).
    assert (Hcmp : (0.95 <? 0)%float = false) by (vm_compute; reflexivity).
    rewrite distinct_count_singleton. split; [exact Hc |].
    unfold spread_evidence. simpl map. simpl length.
    rewrite distinct_count_singleton, Hc, Hcmp. reflexivity. }
  split; [repeat split; vm_compute; reflexivity |].
  repeat split; vm_compute; reflexivity.
Qed.

Lemma spread_analyzer_witness :
  map (fun t => py_round 6 (ask t - bid t)%float) constant_spread_ticks
  = repeat 0.00020%float 10
  /\ spread_evidence "GBPUSD" constant_spread_ticks = [variable_spread_message "GBPUSD"]
  /\ two_spread_ticks <> []
  /\ (0.95 <? 1 - int_truediv
                    (distinct_count
                       (map (fun t => py_round 6 (ask t - bid t)%float)
                            two_spread_ticks))
                    (length two_spread_ticks))%float
     = false.
Proof.
  assert (H : map (fun t => py_round 6 (ask t - bid t)%float) constant_spread_ticks
              = repeat 0.00020%float 10) by (vm_compute; reflexivity).
  assert (Hne : two_spread_ticks <> []) by discriminate.
  assert (H64 : length two_spread_ticks <= 64) by (vm_compute; lia).
  split; [exact H |].
  split.
  { exact (proj2 (proj2
             (proj1 (proj2 (proj2 (proj2 (proj2 (proj2 (proj2 spread_analyzer))))))
                    "GBPUSD" constant_spread_ticks H))). }
  split; [exact Hne |].
  destruct (proj1 (proj2 (proj2 spread_analyzer)) "GBPUSD" two_spread_ticks Hne)
    as (_ & _ & _ & _ & Hw).
  rewrite (Hw H64). vm_compute. reflexivity.
Defined.

(** ** The timestamp-gap analyzer *)

Lemma timestamp_gaps_length (ticks : list tick) :
  length (timestamp_gaps ticks) = length ticks - 1.
Proof.
  unfold timestamp_gaps, timestamps_of.
  now rewrite num_differences_length, py_sorted_length, length_map.
Qed.



Lemma timestamp_evidence_some (gaps : list number) :
  gaps <> [] ->
  timestamp_evidence gaps
  = [if (int_truediv (num_distinct_count gaps) (length gaps) <? 0.3)%float
        && num_ltb (py_mean gaps) (PInt 1)
     then regular_intervals_message (to_float (py_mean gaps))
     else irregular_intervals_message].
Proof.
  intros Hne. unfold timestamp_evidence. destruct gaps as [| g gaps]; [congruence |].
  now destruct (_ && _).
Qed.





(** ** The analyzers on the sample data *)

Example constant_step_report :
  evidence (run_analyzers constant_step_ticks analysis_init)
  = [ lp_real_message;
      "⚠️  EURUSD: Low regularity ratio (0.333) suggests simulated data";
      "✅ Irregular timestamp intervals suggest real market data";
      "✅ EURUSD: Variable spread suggests real market conditions" ]
  /\ generate_verdict (run_analyzers constant_step_ticks analysis_init) = REAL.
Proof. split; vm_compute; reflexivity. Qed.

Example one_simulated_tick_report :
  real_indicators (evidence (run_analyzers one_simulated_tick analysis_init)) = 4
  /\ simulated_indicators (evidence (run_analyzers one_simulated_tick analysis_init)) = 2
  /\ generate_verdict (run_analyzers one_simulated_tick analysis_init) = SIMULATED.
Proof. repeat split; vm_compute; reflexivity. Qed.

(** ** The capture buffers *)

Lemma dict_get_append {A : Type} (k : string) (v : A) (d : list (string * list A)) :
  dict_get k (dict_append k v d) = dict_get k d ++ [v].
Proof.
  induction d as [| [k' vs] d IH]; simpl.
  - now rewrite String.eqb_refl.
  - destruct (String.eqb k' k) eqn:E; simpl; rewrite E; [reflexivity | exact IH].
Qed.

(** A property of every entry survives [d[k].append(v)] when it holds of
    the extended list under [k]. *)
Lemma dict_append_Forall {A : Type} (Q : string -> list A -> Prop) (k : string) (v : A)
      (d : list (string * list A)) :
  Forall (fun kv => Q (fst kv) (snd kv)) d ->
  Q k (dict_get k d ++ [v]) ->
  Forall (fun kv => Q (fst kv) (snd kv)) (dict_append k v d).
Proof.
  intros Hd Hk. induction Hd as [| [k' vs] d Hkv Hd IH]; simpl in *.
  - repeat constructor. exact Hk.
  - destruct (String.eqb k' k) eqn:E.
    + apply String.eqb_eq in E. subst k'. constructor; assumption.
    + constructor; [assumption | now apply IH].
Qed.

Lemma dict_get_Forall {A : Type} (Q : string -> list A -> Prop) (k : string)
      (d : list (string * list A)) :
  Forall (fun kv => Q (fst kv) (snd kv)) d ->
  dict_get k d <> [] -> Q k (dict_get k d).
Proof.
  intros Hd. induction Hd as [| [k' vs] d Hkv Hd IH]; simpl in *; [congruence |].
  destruct (String.eqb k' k) eqn:E; [| exact IH].
  apply String.eqb_eq in E. now subst k'.
Qed.

Lemma dict_append_not_nil {A : Type} (k : string) (v : A) (d : list (string * list A)) :
  dict_append k v d <> [].
Proof.
  destruct d as [| [k' vs] d]; simpl; [| destruct (String.eqb k' k)]; discriminate.
Qed.


Section CaptureFacts.

Variable fromtimestamp_ok : stamp -> bool.

(** The loop handles the first event and, if it is still running, goes on
    with the rest. *)
Lemma receive_loop_cons (ev : event) (evs : list event) (c : capture) :
  receive_loop fromtimestamp_ok (ev :: evs) c
  = match receive_loop fromtimestamp_ok [ev] c with
    | LoopRunning c' => receive_loop fromtimestamp_ok evs c'
    | r => r
    end.
Proof.
  destruct ev as [| | | p |]; simpl; try reflexivity.
  destruct (handle_frame fromtimestamp_ok p c) as [[| |] c']; reflexivity.
Qed.

Lemma receive_loop_app (pre post : list event) (c : capture) :
  receive_loop fromtimestamp_ok (pre ++ post) c
  = match receive_loop fromtimestamp_ok pre c with
    | LoopRunning c' => receive_loop fromtimestamp_ok post c'
    | r => r
    end.
Proof.
  revert c. induction pre as [| ev pre IH]; intros c; [reflexivity |].
  rewrite <- app_comm_cons, receive_loop_cons, (receive_loop_cons ev pre).
  destruct (receive_loop fromtimestamp_ok [ev] c); try reflexivity. apply IH.
Qed.

(** What [handle_tick] does to the globals, whatever it decides. *)
Lemma handle_tick_effect (m : message) (c : capture) :
  total_tick_count (snd (handle_tick fromtimestamp_ok m c)) = S (total_tick_count c)
  /\ lp_sources (analysis (snd (handle_tick fromtimestamp_ok m c)))
     = lp_sources (analysis c)
  /\ evidence (analysis (snd (handle_tick fromtimestamp_ok m c))) = evidence (analysis c)
  /\ match m_symbol m with
     | None => captured_ticks (snd (handle_tick fromtimestamp_ok m c)) = captured_ticks c
               /\ symbols (analysis (snd (handle_tick fromtimestamp_ok m c)))
                  = symbols (analysis c)
     | Some sym =>
         captured_ticks (snd (handle_tick fromtimestamp_ok m c))
         = (if (length (dict_get sym (captured_ticks c)) <? CAPTURE_COUNT)%nat
            then dict_append sym m (captured_ticks c)
            else captured_ticks c)
         /\ symbols (analysis (snd (handle_tick fromtimestamp_ok m c)))
            = {[ sym ]} ∪ symbols (analysis c)
     end.
Proof.
  unfold handle_tick. destruct (m_symbol m) as [sym |]; [| simpl; auto].
  destruct (S (total_tick_count c) <=? 5)%nat.
  - destruct (m_timestamp m) as [ts |], (m_bid m), (m_ask m);
      try (simpl; auto; fail).
    destruct (fromtimestamp_ok ts); [| simpl; auto].
    destruct (_ && _); simpl; auto.
  - destruct (_ && _); simpl; auto.
Qed.

Lemma handle_tick_within_capacity (m : message) (c : capture) :
  within_capacity c -> within_capacity (snd (handle_tick fromtimestamp_ok m c)).
Proof.
  unfold within_capacity. intros Hc.
  destruct (handle_tick_effect m c) as (_ & _ & _ & H).
  destruct (m_symbol m) as [sym |]; destruct H as [-> _]; [| assumption].
  destruct (Nat.ltb_spec (length (dict_get sym (captured_ticks c))) CAPTURE_COUNT)
    as [Hlt | Hge]; [| assumption].
  apply (dict_append_Forall (fun _ vs => length vs <= CAPTURE_COUNT)); [assumption |].
  rewrite length_app. simpl. lia.
Qed.

Lemma handle_frame_within_capacity (p : payload) (c : capture) :
  within_capacity c -> within_capacity (snd (handle_frame fromtimestamp_ok p c)).
Proof.
  intros Hc. destruct p as [| | | m]; simpl; try assumption.
  destruct (is_tick m); [now apply handle_tick_within_capacity | assumption].
Qed.

Lemma receive_loop_within_capacity (evs : list event) (c : capture) :
  within_capacity c -> within_capacity (loop_state (receive_loop fromtimestamp_ok evs c)).
Proof.
  revert c. induction evs as [| ev evs IH]; intros c Hc; [exact Hc |].
  destruct ev as [| | | p |]; simpl; try assumption; [now apply IH |].
  pose proof (handle_frame_within_capacity p c Hc) as Hc'.
  destruct (handle_frame fromtimestamp_ok p c) as [[| |] c']; simpl in *; auto.
Qed.

Lemma analyze_capture_ticks (c : capture) :
  captured_ticks (final_capture (analyze_capture c)) = captured_ticks c.
Proof.
  unfold analyze_capture. destruct (all_ticks_of _); [reflexivity |].
  destruct (mapM as_tick _); reflexivity.
Qed.

Lemma capture_and_analyze_ticks (connected : bool) (evs : list event) (c : capture) :
  captured_ticks (final_capture (capture_and_analyze fromtimestamp_ok connected evs c))
  = if connected then captured_ticks (loop_state (receive_loop fromtimestamp_ok evs c))
    else captured_ticks c.
Proof.
  unfold capture_and_analyze. destruct connected; [| reflexivity].
  destruct (receive_loop fromtimestamp_ok evs c); simpl; try reflexivity.
  apply analyze_capture_ticks.
Qed.

(** A tick for a symbol whose buffer is full. *)
Lemma handle_tick_at_capacity (m : message) (sym : string) (c : capture) :
  m_symbol m = Some sym ->
  CAPTURE_COUNT <= length (dict_get sym (captured_ticks c)) ->
  captured_ticks (snd (handle_tick fromtimestamp_ok m c)) = captured_ticks c
  /\ total_tick_count (snd (handle_tick fromtimestamp_ok m c)) = S (total_tick_count c)
  /\ sym ∈ symbols (analysis (snd (handle_tick fromtimestamp_ok m c))).
Proof.
  intros Hsym Hfull.
  destruct (handle_tick_effect m c) as (Ht & _ & _ & H). rewrite Hsym in H.
  destruct H as [Hticks Hsyms]. rewrite Hticks, Ht, Hsyms.
  destruct (Nat.ltb_spec (length (dict_get sym (captured_ticks c))) CAPTURE_COUNT);
    [lia |].
  repeat split. apply elem_of_union_l, elem_of_singleton. reflexivity.
Qed.

(** C3: whatever arrives, no buffer ever holds more than CAPTURE_COUNT
    = 20 ticks, in the loop and in the state the process ends with.  A
    tick whose symbol's buffer is already full leaves every buffer as it
    is, and still raises the received counter by one and has its symbol
    in the set of symbols.  After one tick of one symbol and 1000 of
    another the second buffer holds 20 and the counter reads 1001. *)
Theorem capture_cap_never_exceeded :
  (forall evs : list event,
      Forall (fun kv => length (snd kv) <= 20)
             (captured_ticks (loop_state (receive_loop fromtimestamp_ok evs capture_init))))
  /\ (forall (connected : bool) (evs : list event),
         Forall (fun kv => length (snd kv) <= 20)
                (captured_ticks (final_capture (main fromtimestamp_ok connected evs))))
  /\ (forall (m : message) (sym : string) (c : capture),
         m_symbol m = Some sym ->
         20 <= length (dict_get sym (captured_ticks c)) ->
         captured_ticks (snd (handle_tick fromtimestamp_ok m c)) = captured_ticks c
         /\ total_tick_count (snd (handle_tick fromtimestamp_ok m c))
            = S (total_tick_count c)
         /\ sym ∈ symbols (analysis (snd (handle_tick fromtimestamp_ok m c))))
  /\ (buffer_sizes
        (loop_state
           (receive_loop always_ok
              (feed "EURUSD" None :: repeat (feed "GBPUSD" None) 1000) capture_init))
      = [("EURUSD", 1); ("GBPUSD", 20)]
      /\ total_tick_count
           (loop_state
              (receive_loop always_ok
                 (feed "EURUSD" None :: repeat (feed "GBPUSD" None) 1000) capture_init))
         = 1001).
Proof.
  assert (H0 : within_capacity capture_init) by constructor.
  split; [| split; [| split]].
  - intros evs. now apply receive_loop_within_capacity.
  - intros connected evs. unfold main. rewrite capture_and_analyze_ticks.
    destruct connected; [now apply receive_loop_within_capacity | exact H0].
  - exact handle_tick_at_capacity.
  - split; vm_compute; reflexivity.
Qed.


(** ** Invariant of the running loop *)

Lemma capture_inv_init : capture_inv capture_init.
Proof. split; [constructor | split; reflexivity]. Qed.

Lemma capture_inv_print (o : output) (c : capture) :
  capture_inv c -> capture_inv (print o c).
Proof. intros H. exact H. Qed.

Lemma handle_tick_raise_free (m : message) (c : capture) :
  fst (handle_tick fromtimestamp_ok m c) <> Raise -> exists sym, m_symbol m = Some sym.
Proof.
  unfold handle_tick. destruct (m_symbol m) as [sym |]; [eauto | simpl; congruence].
Qed.

Lemma handle_tick_inv (m : message) (c : capture) :
  capture_inv c ->
  fst (handle_tick fromtimestamp_ok m c) <> Raise ->
  capture_inv (snd (handle_tick fromtimestamp_ok m c)).
Proof.
  intros [Hall Hnil] Hraise.
  destruct (handle_tick_raise_free m c Hraise) as [sym Hsym].
  destruct (handle_tick_effect m c) as (Ht & _ & _ & H). rewrite Hsym in H.
  destruct H as [Hticks Hsyms]. unfold capture_inv. rewrite Hticks, Ht, Hsyms.
  assert (Hold : Forall (fun kv => 1 <= length (snd kv) <= CAPTURE_COUNT
                           /\ length (snd kv) <= S (total_tick_count c)
                           /\ fst kv ∈ {[ sym ]} ∪ symbols (analysis c))
                        (captured_ticks c)).
  { eapply List.Forall_impl; [| exact Hall]. intros kv (H1 & H2 & H3).
    repeat split; try lia. now apply elem_of_union_r. }
  destruct (Nat.ltb_spec (length (dict_get sym (captured_ticks c))) CAPTURE_COUNT)
    as [Hlt | Hge].
  - split.
    + apply (dict_append_Forall
               (fun k vs => 1 <= length vs <= CAPTURE_COUNT
                            /\ length vs <= S (total_tick_count c)
                            /\ k ∈ {[ sym ]} ∪ symbols (analysis c)));
        [exact Hold |].
      rewrite length_app. simpl.
      repeat split; try lia; [| apply elem_of_union_l, elem_of_singleton; reflexivity].
      destruct (dict_get sym (captured_ticks c)) as [| x xs] eqn:E; [simpl; lia |].
      assert (Hne : dict_get sym (captured_ticks c) <> []) by (rewrite E; discriminate).
      pose proof (dict_get_Forall
                    (fun k vs => 1 <= length vs <= CAPTURE_COUNT
                                 /\ length vs <= total_tick_count c
                                 /\ k ∈ symbols (analysis c))
                    sym (captured_ticks c) Hall Hne) as (_ & Hle & _).
      rewrite E in Hle. lia.
    + split; [intros Habs; now apply dict_append_not_nil in Habs | discriminate].
  - split; [exact Hold |].
    split; [| discriminate].
    intros Habs. rewrite Habs in Hge. unfold CAPTURE_COUNT in Hge. simpl in Hge. lia.
Qed.

Lemma handle_frame_inv (p : payload) (c : capture) :
  capture_inv c ->
  fst (handle_frame fromtimestamp_ok p c) <> Raise ->
  capture_inv (snd (handle_frame fromtimestamp_ok p c)).
Proof.
  intros Hc Hraise. destruct p as [| | | m]; simpl in *; try assumption.
  destruct (is_tick m); [now apply handle_tick_inv | assumption].
Qed.

Lemma receive_loop_inv (evs : list event) (c : capture) :
  capture_inv c ->
  match receive_loop fromtimestamp_ok evs c with
  | LoopRaised _ => True
  | r => capture_inv (loop_state r)
  end.
Proof.
  revert c. induction evs as [| ev evs IH]; intros c Hc; [exact Hc |].
  destruct ev as [| | | p |]; simpl; try assumption; try exact I; [now apply IH |].
  pose proof (handle_frame_inv p c Hc) as Hc'.
  destruct (handle_frame fromtimestamp_ok p c) as [[| |] c']; simpl in *;
    try exact I; [apply IH |]; apply Hc'; discriminate.
Qed.


(** The loop leaves the label set and the evidence list alone. *)
Lemma receive_loop_analysis (evs : list event) (c : capture) :
  lp_sources (analysis (loop_state (receive_loop fromtimestamp_ok evs c)))
  = lp_sources (analysis c)
  /\ evidence (analysis (loop_state (receive_loop fromtimestamp_ok evs c)))
     = evidence (analysis c).
Proof.
  revert c. induction evs as [| ev evs IH]; intros c; [split; reflexivity |].
  destruct ev as [| | | p |]; simpl; try (split; reflexivity); [apply IH |].
  assert (Hp : lp_sources (analysis (snd (handle_frame fromtimestamp_ok p c)))
               = lp_sources (analysis c)
               /\ evidence (analysis (snd (handle_frame fromtimestamp_ok p c)))
                  = evidence (analysis c)).
  { destruct p as [| | | m]; simpl; try (split; reflexivity).
    destruct (is_tick m); [| split; reflexivity].
    destruct (handle_tick_effect m c) as (_ & H1 & H2 & _). now split. }
  destruct (handle_frame fromtimestamp_ok p c) as [[| |] c']; simpl in *;
    try exact Hp.
  destruct (IH c') as [H1 H2]. destruct Hp as [H3 H4]. split; congruence.
Qed.

End CaptureFacts.

Lemma capture_cap_never_exceeded_witness :
  m_symbol (tick_message (sample_tick "GBPUSD" 1.1 1.2 1700000000 None)) = Some "GBPUSD"
  /\ 20 <= length (dict_get "GBPUSD"
                     (captured_ticks
                        (loop_state
                           (receive_loop always_ok
                              (feed "EURUSD" None :: repeat (feed "GBPUSD" None) 20)
                              capture_init))))
  /\ captured_ticks
       (snd (handle_tick always_ok
               (tick_message (sample_tick "GBPUSD" 1.1 1.2 1700000000 None))
               (loop_state
                  (receive_loop always_ok
                     (feed "EURUSD" None :: repeat (feed "GBPUSD" None) 20)
                     capture_init))))
     = captured_ticks
         (loop_state
            (receive_loop always_ok
               (feed "EURUSD" None :: repeat (feed "GBPUSD" None) 20) capture_init)).
Proof.
  assert (H1 : m_symbol (tick_message (sample_tick "GBPUSD" 1.1 1.2 1700000000 None))
               = Some "GBPUSD") by reflexivity.
  assert (H2 : 20 <= length (dict_get "GBPUSD"
                     (captured_ticks
                        (loop_state
                           (receive_loop always_ok
                              (feed "EURUSD" None :: repeat (feed "GBPUSD" None) 20)
                              capture_init))))).
  { vm_compute. lia. }
  split; [exact H1 | split; [exact H2 |]].
  exact (proj1 (proj1 (proj2 (proj2 (capture_cap_never_exceeded always_ok)))
                  _ _ _ H1 H2)).
Defined.

Section SessionFacts.

Variable fromtimestamp_ok : stamp -> bool.

(** ** Malformed frames *)


(** ** How the process ends *)

Lemma analyze_capture_cases (c : capture) :
  (all_ticks_of c = []
   /\ analyze_capture c = EmptyCapture (print OutNoTicks (print OutDisconnected c)))
  \/ (all_ticks_of c <> [] /\ mapM as_tick (all_ticks_of c) = None
      /\ analyze_capture c = AnalysisCrashed (print OutDisconnected c))
  \/ (exists ticks,
         all_ticks_of c <> [] /\ mapM as_tick (all_ticks_of c) = Some ticks
         /\ analyze_capture c
            = Verdict (mkCapture (captured_ticks c) (total_tick_count c)
                                 (run_analyzers ticks (analysis c))
                                 (printed c ++ [OutDisconnected]))
                      (generate_verdict (run_analyzers ticks (analysis c)))).
Proof.
  unfold analyze_capture.
  change (all_ticks_of (print OutDisconnected c)) with (all_ticks_of c).
  destruct (all_ticks_of c) as [| m ms] eqn:E; [left; split; reflexivity |].
  right. destruct (mapM as_tick (m :: ms)) as [ticks |] eqn:Em.
  - right. exists ticks. repeat split. discriminate.
  - left. repeat split. discriminate.
Qed.



End SessionFacts.




Section FailureFacts.

Variable fromtimestamp_ok : stamp -> bool.

Lemma handle_tick_break (m : message) (c : capture) :
  fst (handle_tick fromtimestamp_ok m c) = Break ->
  target_reached (snd (handle_tick fromtimestamp_ok m c)).
Proof.
  unfold handle_tick, target_reached.
  destruct (m_symbol m) as [sym |]; [| discriminate].
  destruct (S (total_tick_count c) <=? 5)%nat.
  - destruct (m_timestamp m) as [ts |], (m_bid m), (m_ask m); try discriminate.
    destruct (fromtimestamp_ok ts); [| discriminate].
    destruct (_ && _) eqn:E; [| discriminate]. intros _.
    apply andb_true_iff in E. destruct E as [E1 E2].
    apply Nat.leb_le in E1, E2. split; assumption.
  - destruct (_ && _) eqn:E; [| discriminate]. intros _.
    apply andb_true_iff in E. destruct E as [E1 E2].
    apply Nat.leb_le in E1, E2. split; assumption.
Qed.

(** The loop ends before the deadline only with the target reached. *)
Lemma receive_loop_done (evs : list event) (c c' : capture) (how : loop_exit) :
  receive_loop fromtimestamp_ok evs c = LoopDone how c' ->
  how = Deadline \/ (how = EnoughData /\ target_reached c').
Proof.
  revert c. induction evs as [| ev evs IH]; intros c; [discriminate |].
  destruct ev as [| | | p |]; simpl; try discriminate.
  - intros H. injection H as <- _. now left.
  - apply IH.
  - destruct (handle_frame fromtimestamp_ok p c) as [k c1] eqn:E.
    destruct k; [apply IH | | discriminate].
    intros H. injection H as <- <-. right. split; [reflexivity |].
    destruct p as [| | | m]; simpl in E; try discriminate.
    destruct (is_tick m); [| discriminate].
    pose proof (handle_tick_break m c) as Hb. rewrite E in Hb. now apply Hb.
Qed.







End FailureFacts.


(** ** The simulated label *)

Lemma generate_verdict_simulated (a : analysis_t) :
  generate_verdict a = SIMULATED <-> "SIMULATED" ∈ lp_sources a.
Proof.
  unfold generate_verdict. destruct (bool_decide ("SIMULATED" ∈ lp_sources a)) eqn:E.
  - apply bool_decide_eq_true in E. tauto.
  - apply bool_decide_eq_false in E.
    destruct (_ && _); [| destruct (_ <? _)%nat]; split; intros H;
      try discriminate; contradiction.
Qed.

Lemma lp_label_simulated (t : tick) :
  lp_label t = "SIMULATED" <-> lp t = Some "SIMULATED".
Proof.
  unfold lp_label. destruct (lp t) as [l |]; simpl; split; intros H;
    try congruence; discriminate.
Qed.

Lemma as_tick_lp (m : message) (t : tick) : as_tick m = Some t -> lp t = m_lp m.
Proof.
  unfold as_tick. destruct (m_symbol m), (m_bid m), (m_ask m), (m_timestamp m);
    try discriminate.
  intros H. injection H as <-. reflexivity.
Qed.

Lemma mapM_as_tick_In (ms : list message) (ticks : list tick) :
  mapM as_tick ms = Some ticks ->
  (forall m, In m ms -> exists t, In t ticks /\ as_tick m = Some t)
  /\ (forall t, In t ticks -> exists m, In m ms /\ as_tick m = Some t).
Proof.
  rewrite mapM_Some. intros H. induction H as [| m t ms ticks Hmt H IH].
  - split; intros x [].
  - destruct IH as [IH1 IH2]. split.
    + intros m' [<- | Hin]; [exists t; simpl; auto |].
      destruct (IH1 m' Hin) as [t' [Hin' Heq]]. exists t'. simpl. auto.
    + intros t' [<- | Hin]; [exists m; simpl; auto |].
      destruct (IH2 t' Hin) as [m' [Hin' Heq]]. exists m'. simpl. auto.
Qed.

Lemma run_analyzers_simulated (ticks : list tick) (a : analysis_t) :
  generate_verdict (run_analyzers ticks a) = SIMULATED
  <-> "SIMULATED" ∈ lp_sources a \/ exists t, In t ticks /\ lp t = Some "SIMULATED".
Proof.
  rewrite generate_verdict_simulated, run_analyzers_sources, analyze_lp_sources.
  split; (intros [H | [t [Hin Hl]]]; [now left | right; exists t; split; [exact Hin |]]);
    now apply lp_label_simulated.
Qed.

Section VerdictFacts.

Variable fromtimestamp_ok : stamp -> bool.

(** A verdict comes from a loop that ended by itself with complete ticks
    in the buffers. *)
Lemma main_verdict (connected : bool) (evs : list event) (c : capture) (v : verdict) :
  main fromtimestamp_ok connected evs = Verdict c v ->
  exists how c1 ticks,
    receive_loop fromtimestamp_ok evs capture_init = LoopDone how c1
    /\ mapM as_tick (all_ticks_of c1) = Some ticks
    /\ all_ticks_of c = all_ticks_of c1
    /\ analysis c = run_analyzers ticks (analysis c1)
    /\ v = generate_verdict (run_analyzers ticks (analysis c1)).
Proof.
  unfold main, capture_and_analyze. destruct connected; [| discriminate].
  destruct (receive_loop fromtimestamp_ok evs capture_init) as [c1 | how c1 | c1 | c1];
    try discriminate.
  destruct (analyze_capture_cases c1)
    as [[_ ->] | [(_ & _ & ->) | (ticks & _ & Hsome & ->)]]; try discriminate.
  intros H. injection H as <- <-. exists how, c1, ticks. repeat split. exact Hsome.
Qed.

(** C1: once the label set holds "SIMULATED" the verdict is SIMULATED,
    whatever the evidence list holds; the analyzers put the label there
    as soon as one tick of the set they are given carries it; so a
    session that reaches a verdict with such a tick in its buffers
    answers SIMULATED. *)
Theorem simulated_label_decides :
  (forall a : analysis_t,
      "SIMULATED" ∈ lp_sources a -> generate_verdict a = SIMULATED)
  /\ (forall (ticks : list tick) (a : analysis_t) (t : tick),
         In t ticks -> lp t = Some "SIMULATED" ->
         "SIMULATED" ∈ lp_sources (run_analyzers ticks a)
         /\ generate_verdict (run_analyzers ticks a) = SIMULATED)
  /\ (forall (connected : bool) (evs : list event) (c : capture) (v : verdict)
             (m : message),
         main fromtimestamp_ok connected evs = Verdict c v ->
         In m (all_ticks_of c) -> m_lp m = Some "SIMULATED" ->
         v = SIMULATED).
Proof.
  split; [intros a; apply generate_verdict_simulated |].
  split.
  { intros ticks a t Hin Hlp.
    assert (H : generate_verdict (run_analyzers ticks a) = SIMULATED).
    { apply run_analyzers_simulated. right. eauto. }
    split; [now apply generate_verdict_simulated | exact H]. }
  intros connected evs c v m Hmain Hin Hlp.
  destruct (main_verdict connected evs c v Hmain)
    as (how & c1 & ticks & _ & Hsome & Hall & _ & ->).
  rewrite Hall in Hin.
  destruct (proj1 (mapM_as_tick_In _ _ Hsome) m Hin) as [t [Hint Hast]].
  apply run_analyzers_simulated. right. exists t. split; [exact Hint |].
  rewrite (as_tick_lp m t Hast). exact Hlp.
Qed.

End VerdictFacts.

Lemma simulated_label_decides_witness :
  In (sample_tick "GBPUSD" 1.25 1.2502 1700000002.1 (Some "SIMULATED")) one_simulated_tick
  /\ lp (sample_tick "GBPUSD" 1.25 1.2502 1700000002.1 (Some "SIMULATED"))
     = Some "SIMULATED"
  /\ generate_verdict (run_analyzers one_simulated_tick analysis_init) = SIMULATED.
Proof.
  assert (H1 : In (sample_tick "GBPUSD" 1.25 1.2502 1700000002.1 (Some "SIMULATED"))
                  one_simulated_tick).
  { unfold one_simulated_tick. apply in_or_app. right. left. reflexivity. }
  assert (H2 : lp (sample_tick "GBPUSD" 1.25 1.2502 1700000002.1 (Some "SIMULATED"))
               = Some "SIMULATED") by reflexivity.
  split; [exact H1 | split; [exact H2 |]].
  exact (proj2 (proj1 (proj2 (simulated_label_decides always_ok))
                  one_simulated_tick analysis_init _ H1 H2)).
Defined.

(** ** Ticks dropped at capacity *)

Lemma same_but_count_refl (c : capture) : same_but_count c c.
Proof. repeat split; auto. Qed.

Lemma same_but_count_sym (c1 c2 : capture) :
  same_but_count c1 c2 -> same_but_count c2 c1.
Proof.
  intros (H1 & H2 & H3 & H4). repeat split; auto. destruct H4; [left | right]; lia.
Qed.

Lemma same_but_count_trans (c1 c2 c3 : capture) :
  same_but_count c1 c2 -> same_but_count c2 c3 -> same_but_count c1 c3.
Proof.
  intros (H1 & H2 & H3 & H4) (K1 & K2 & K3 & K4).
  repeat split; try congruence. destruct H4, K4; [left | right | right | right]; lia.
Qed.

Lemma same_loop_result_sym (r1 r2 : loop_result) :
  same_loop_result r1 r2 -> same_loop_result r2 r1.
Proof.
  destruct r1, r2; simpl; try tauto; try apply same_but_count_sym.
  intros [-> H]. split; [reflexivity | now apply same_but_count_sym].
Qed.

Lemma same_loop_result_trans (r1 r2 r3 : loop_result) :
  same_loop_result r1 r2 -> same_loop_result r2 r3 -> same_loop_result r1 r3.
Proof.
  destruct r1, r2, r3; simpl; try tauto; try apply same_but_count_trans.
  intros [-> H] [-> K]. split; [reflexivity | eapply same_but_count_trans; eauto].
Qed.

Section DroppedFacts.

Variable fromtimestamp_ok : stamp -> bool.

Lemma handle_tick_same (m : message) (c1 c2 : capture) :
  same_but_count c1 c2 ->
  fst (handle_tick fromtimestamp_ok m c1) = fst (handle_tick fromtimestamp_ok m c2)
  /\ same_but_count (snd (handle_tick fromtimestamp_ok m c1))
                    (snd (handle_tick fromtimestamp_ok m c2)).
Proof.
  destruct c1 as [d1 n1 a1 p1], c2 as [d2 n2 a2 p2].
  unfold same_but_count. simpl. intros (<- & <- & <- & Hn).
  destruct Hn as [<- | [H1 H2]]; [split; [reflexivity | repeat split; auto] |].
  unfold handle_tick. cbn [captured_ticks total_tick_count analysis printed].
  destruct (m_symbol m) as [sym |]; [| cbn; repeat split; right; lia].
  unfold CAPTURE_COUNT in *.
  destruct (Nat.leb_spec (S n1) 5) as [Hle | _]; [lia |].
  destruct (Nat.leb_spec (S n2) 5) as [Hle | _]; [lia |].
  destruct (Nat.leb_spec 20 (S n1)) as [_ | Hlt]; [| lia].
  destruct (Nat.leb_spec 20 (S n2)) as [_ | Hlt]; [| lia].
  rewrite andb_true_r.
  destruct (_ <=? _)%nat; cbn [fst snd captured_ticks total_tick_count analysis printed];
    repeat split; right; lia.
Qed.

Lemma handle_frame_same (p : payload) (c1 c2 : capture) :
  same_but_count c1 c2 ->
  fst (handle_frame fromtimestamp_ok p c1) = fst (handle_frame fromtimestamp_ok p c2)
  /\ same_but_count (snd (handle_frame fromtimestamp_ok p c1))
                    (snd (handle_frame fromtimestamp_ok p c2)).
Proof.
  intros H. destruct p as [| | | m]; simpl.
  - split; [reflexivity |]. destruct H as (H1 & H2 & H3 & H4).
    repeat split; simpl; auto. now rewrite H3.
  - now split.
  - now split.
  - destruct (is_tick m); [now apply handle_tick_same | now split].
Qed.

Lemma receive_loop_same (evs : list event) (c1 c2 : capture) :
  same_but_count c1 c2 ->
  same_loop_result (receive_loop fromtimestamp_ok evs c1)
                   (receive_loop fromtimestamp_ok evs c2).
Proof.
  revert c1 c2. induction evs as [| ev evs IH]; intros c1 c2 H; [exact H |].
  destruct ev as [| | | p |]; simpl; try exact H.
  - split; [reflexivity |]. destruct H as (H1 & H2 & H3 & H4).
    repeat split; simpl; auto. now rewrite H3.
  - now apply IH.
  - destruct (handle_frame_same p c1 c2 H) as [Hk Hc].
    destruct (handle_frame fromtimestamp_ok p c1) as [k1 c1'],
             (handle_frame fromtimestamp_ok p c2) as [k2 c2']. simpl in *. subst k2.
    destruct k1; simpl; auto.
Qed.

(** While the loop runs, the target has not been reached. *)
Lemma receive_loop_running (evs : list event) (c c' : capture) :
  capture_inv c -> ~ target_reached c ->
  receive_loop fromtimestamp_ok evs c = LoopRunning c' ->
  capture_inv c' /\ ~ target_reached c'.
Proof.
  revert c. induction evs as [| ev evs IH]; intros c Hinv Hnot.
  - intros H. injection H as <-. now split.
  - destruct ev as [| | | p |]; simpl; try discriminate; [now apply IH |].
    pose proof (handle_frame_inv fromtimestamp_ok p c Hinv) as Hinv'.
    destruct (handle_frame fromtimestamp_ok p c) as [k c1] eqn:E.
    destruct k; try discriminate. apply IH.
    + apply Hinv'. discriminate.
    + destruct p as [| | | m]; simpl in E.
      * injection E as <-. exact Hnot.
      * discriminate.
      * discriminate.
      * destruct (is_tick m); [| injection E as <-; exact Hnot].
        clear Hinv'. revert E. unfold handle_tick, target_reached.
        destruct (m_symbol m) as [sym |]; [| discriminate].
        destruct (S (total_tick_count c) <=? 5)%nat.
        -- destruct (m_timestamp m) as [ts |], (m_bid m), (m_ask m); try discriminate.
           destruct (fromtimestamp_ok ts); [| discriminate].
           destruct (_ && _) eqn:Ec; [discriminate |]. intros E. injection E as <-.
           cbn [print captured_ticks total_tick_count analysis] in *.
           intros [E1 E2]. apply Nat.leb_le in E1, E2.
           rewrite E1, E2 in Ec. discriminate.
        -- destruct (_ && _) eqn:Ec; [discriminate |]. intros E. injection E as <-.
           cbn [print captured_ticks total_tick_count analysis] in *.
           intros [E1 E2]. apply Nat.leb_le in E1, E2.
           rewrite E1, E2 in Ec. discriminate.
Qed.

Lemma capture_init_not_reached : ~ target_reached capture_init.
Proof. intros [_ H]. simpl in H. unfold CAPTURE_COUNT in H. lia. Qed.

(** A tick dropped at capacity: the loop goes on, and only the counter
    has moved. *)
Lemma dropped_step (ev : event) (c : capture) :
  capture_inv c -> ~ target_reached c -> is_dropped c ev = true ->
  exists c', receive_loop fromtimestamp_ok [ev] c = LoopRunning c'
             /\ same_but_count c' c.
Proof.
  intros [Hall Hnil] Hnot Hdrop.
  destruct ev as [| | | [| | | m] |]; cbv beta iota delta [is_dropped] in Hdrop;
    try discriminate.
  apply andb_true_iff in Hdrop. destruct Hdrop as [Htick Hfull].
  destruct (m_symbol m) as [sym |] eqn:Hsym; [| discriminate].
  apply Nat.leb_le in Hfull.
  assert (Hne : dict_get sym (captured_ticks c) <> []).
  { intros Habs. rewrite Habs in Hfull. unfold CAPTURE_COUNT in Hfull.
    simpl in Hfull. lia. }
  pose proof (dict_get_Forall
                (fun k vs => 1 <= length vs <= CAPTURE_COUNT
                             /\ length vs <= total_tick_count c
                             /\ k ∈ symbols (analysis c))
                sym (captured_ticks c) Hall Hne) as (_ & Hle & Hin).
  assert (Hsyms : {[ sym ]} ∪ symbols (analysis c) = symbols (analysis c)).
  { apply set_eq. intros x. rewrite elem_of_union, elem_of_singleton.
    split; [intros [-> | H]; assumption | auto]. }
  cbn [receive_loop handle_frame]. rewrite Htick. unfold handle_tick. rewrite Hsym.
  unfold add_symbol. cbn [symbols]. rewrite Hsyms.
  destruct (Nat.ltb_spec (length (dict_get sym (captured_ticks c))) CAPTURE_COUNT)
    as [Hlt | _]; [lia |].
  unfold CAPTURE_COUNT in *.
  destruct (Nat.leb_spec (S (total_tick_count c)) 5) as [H5 | _]; [lia |].
  destruct (Nat.leb_spec 20 (S (total_tick_count c))) as [_ | H20]; [| lia].
  rewrite andb_true_r.
  destruct (Nat.leb_spec (Nat.min 3 (size (symbols (analysis c))))
                         (symbols_with_enough (captured_ticks c))) as [Hreach | _].
  - exfalso. apply Hnot. split; [exact Hreach | unfold CAPTURE_COUNT; lia].
  - eexists. split; [reflexivity |].
    destruct c as [d n [ls ss ev] p]. unfold same_but_count.
    cbn [captured_ticks total_tick_count analysis printed lp_sources symbols evidence]
      in *.
    repeat split. right. unfold CAPTURE_COUNT. lia.
Qed.

Lemma without_dropped_cons (ev : event) (evs : list event) (c : capture) :
  without_dropped fromtimestamp_ok (ev :: evs) c
  = match receive_loop fromtimestamp_ok [ev] c with
    | LoopRunning c' =>
        if is_dropped c ev then without_dropped fromtimestamp_ok evs c'
        else ev :: without_dropped fromtimestamp_ok evs c'
    | _ => ev :: evs
    end.
Proof. reflexivity. Qed.

(** Removing the dropped ticks changes nothing but the counter. *)
Lemma without_dropped_same (evs : list event) (c1 c2 : capture) :
  capture_inv c1 -> ~ target_reached c1 -> same_but_count c1 c2 ->
  same_loop_result (receive_loop fromtimestamp_ok evs c1)
                   (receive_loop fromtimestamp_ok
                                 (without_dropped fromtimestamp_ok evs c1) c2).
Proof.
  revert c1 c2. induction evs as [| ev evs IH]; intros c1 c2 Hinv Hnot Hsame;
    [exact Hsame |].
  rewrite receive_loop_cons, without_dropped_cons.
  pose proof (receive_loop_same [ev] c1 c2 Hsame) as Hstep.
  destruct (receive_loop fromtimestamp_ok [ev] c1) as [c1' | how c1' | c1' | c1'] eqn:E1.
  - destruct (receive_loop_running [ev] c1 c1' Hinv Hnot E1) as [Hinv' Hnot'].
    destruct (is_dropped c1 ev) eqn:Hdrop.
    + apply IH; [assumption | assumption |].
      destruct (dropped_step ev c1 Hinv Hnot Hdrop) as (c' & Hrun & Hc').
      rewrite E1 in Hrun. injection Hrun as <-.
      eapply same_but_count_trans; eauto.
    + rewrite receive_loop_cons.
      destruct (receive_loop fromtimestamp_ok [ev] c2) as [c2' | | |];
        simpl in Hstep; try contradiction.
      now apply IH.
  - rewrite receive_loop_cons.
    destruct (receive_loop fromtimestamp_ok [ev] c2); simpl in Hstep; try contradiction.
    exact Hstep.
  - rewrite receive_loop_cons.
    destruct (receive_loop fromtimestamp_ok [ev] c2); simpl in Hstep; try contradiction.
    exact Hstep.
  - rewrite receive_loop_cons.
    destruct (receive_loop fromtimestamp_ok [ev] c2); simpl in Hstep; try contradiction.
    exact Hstep.
Qed.

Lemma analyze_capture_same (c1 c2 : capture) :
  same_but_count c1 c2 ->
  same_ending (analyze_capture c1) (analyze_capture c2)
  /\ classification (analyze_capture c1) = classification (analyze_capture c2)
  /\ captured_ticks (final_capture (analyze_capture c1))
     = captured_ticks (final_capture (analyze_capture c2)).
Proof.
  destruct c1 as [d1 n1 a1 p1], c2 as [d2 n2 a2 p2].
  unfold same_but_count. simpl. intros (<- & <- & <- & _).
  unfold analyze_capture, all_ticks_of.
  cbn [print captured_ticks total_tick_count analysis printed].
  destruct (flat_map snd d1) as [| m ms]; [simpl; auto |].
  destruct (mapM as_tick (m :: ms)); simpl; auto.
Qed.

Lemma outcome_same (evs1 evs2 : list event) :
  same_loop_result (receive_loop fromtimestamp_ok evs1 capture_init)
                   (receive_loop fromtimestamp_ok evs2 capture_init) ->
  same_ending (main fromtimestamp_ok true evs1) (main fromtimestamp_ok true evs2)
  /\ classification (main fromtimestamp_ok true evs1)
     = classification (main fromtimestamp_ok true evs2)
  /\ captured_ticks (final_capture (main fromtimestamp_ok true evs1))
     = captured_ticks (final_capture (main fromtimestamp_ok true evs2)).
Proof.
  unfold main, capture_and_analyze.
  destruct (receive_loop fromtimestamp_ok evs1 capture_init) as [c1 | h1 c1 | c1 | c1],
           (receive_loop fromtimestamp_ok evs2 capture_init) as [c2 | h2 c2 | c2 | c2];
    simpl; try contradiction.
  - intros (H1 & H2 & _). unfold classification. simpl. now rewrite H1, H2.
  - intros [_ H]. now apply analyze_capture_same.
  - intros (H1 & H2 & _). unfold classification. simpl. now rewrite H1, H2.
  - intros (H1 & H2 & _). unfold classification. simpl. now rewrite H1, H2.
Qed.

(** C9: arrival sequences that are equal once the ticks dropped at
    capacity are removed end the same way, with the same buffers, the
    same label set, the same evidence and the same verdict; so does a
    sequence with one more dropped tick inserted anywhere.  The verdict
    is SIMULATED exactly when a buffered tick carries that label: a
    label seen on dropped ticks only never gives SIMULATED. *)
Theorem dropped_ticks_do_not_count :
  (forall evs1 evs2 : list event,
      without_dropped fromtimestamp_ok evs1 capture_init
      = without_dropped fromtimestamp_ok evs2 capture_init ->
      same_ending (main fromtimestamp_ok true evs1) (main fromtimestamp_ok true evs2)
      /\ classification (main fromtimestamp_ok true evs1)
         = classification (main fromtimestamp_ok true evs2)
      /\ captured_ticks (final_capture (main fromtimestamp_ok true evs1))
         = captured_ticks (final_capture (main fromtimestamp_ok true evs2)))
  /\ (forall (pre post : list event) (c : capture) (ev : event),
         receive_loop fromtimestamp_ok pre capture_init = LoopRunning c ->
         is_dropped c ev = true ->
         same_ending (main fromtimestamp_ok true (pre ++ ev :: post))
                     (main fromtimestamp_ok true (pre ++ post))
         /\ classification (main fromtimestamp_ok true (pre ++ ev :: post))
            = classification (main fromtimestamp_ok true (pre ++ post))
         /\ captured_ticks (final_capture (main fromtimestamp_ok true (pre ++ ev :: post)))
            = captured_ticks (final_capture (main fromtimestamp_ok true (pre ++ post))))
  /\ (forall (connected : bool) (evs : list event) (c : capture) (v : verdict),
         main fromtimestamp_ok connected evs = Verdict c v ->
         (v = SIMULATED
          <-> exists m, In m (all_ticks_of c) /\ m_lp m = Some "SIMULATED")).
Proof.
  split.
  { intros evs1 evs2 Heq. apply outcome_same.
    pose proof (without_dropped_same evs1 capture_init capture_init capture_inv_init
                  capture_init_not_reached (same_but_count_refl _)) as H1.
    pose proof (without_dropped_same evs2 capture_init capture_init capture_inv_init
                  capture_init_not_reached (same_but_count_refl _)) as H2.
    rewrite Heq in H1.
    eapply same_loop_result_trans; [exact H1 |]. now apply same_loop_result_sym. }
  split.
  { intros pre post c ev Hpre Hdrop. apply outcome_same.
    destruct (receive_loop_running pre capture_init c capture_inv_init
                capture_init_not_reached Hpre) as [Hinv Hnot].
    destruct (dropped_step ev c Hinv Hnot Hdrop) as (c' & Hrun & Hc').
    rewrite !receive_loop_app, Hpre, receive_loop_cons, Hrun.
    now apply receive_loop_same. }
  intros connected evs c v Hmain.
  destruct (main_verdict fromtimestamp_ok connected evs c v Hmain)
    as (how & c1 & ticks & Hloop & Hsome & Hall & _ & ->).
  pose proof (receive_loop_analysis fromtimestamp_ok evs capture_init) as [Hlp _].
  rewrite Hloop in Hlp. simpl in Hlp.
  rewrite run_analyzers_simulated, Hlp, Hall. split.
  - intros [Habs | [t [Hin Hl]]]; [now apply not_elem_of_empty in Habs |].
    destruct (proj2 (mapM_as_tick_In _ _ Hsome) t Hin) as [m [Hinm Hast]].
    exists m. split; [exact Hinm |]. now rewrite <- (as_tick_lp m t Hast).
  - intros [m [Hin Hl]]. right.
    destruct (proj1 (mapM_as_tick_In _ _ Hsome) m Hin) as [t [Hint Hast]].
    exists t. split; [exact Hint |]. now rewrite (as_tick_lp m t Hast).
Qed.

End DroppedFacts.

Lemma dropped_ticks_do_not_count_witness :
  without_dropped always_ok gateway_feed_with_late_simulated capture_init
  = without_dropped always_ok gateway_feed capture_init
  /\ classification (main always_ok true gateway_feed_with_late_simulated)
     = classification (main always_ok true gateway_feed)
  /\ verdict_of (main always_ok true gateway_feed_with_late_simulated)
     = Some INCONCLUSIVE.
Proof.
  assert (H : without_dropped always_ok gateway_feed_with_late_simulated capture_init
              = without_dropped always_ok gateway_feed capture_init)
    by (vm_compute; reflexivity).
  split; [exact H |].
  split; [| vm_compute; reflexivity].
  exact (proj1 (proj2 (proj1 (dropped_ticks_do_not_count always_ok) _ _ H))).
Defined.

(** * Further properties of the code *)

(** ** Frames that are not ticks *)

Section IgnoredFrames.

Variable fromtimestamp_ok : stamp -> bool.

Lemma noop_step (ev : event) (c : capture) :
  is_noop ev = true -> receive_loop fromtimestamp_ok [ev] c = LoopRunning c.
Proof.
  destruct ev as [| | | [| | | m] |]; simpl; try discriminate; [reflexivity |].
  now destruct (is_tick m).
Qed.

(** X1: read timeouts and objects whose type is not "tick" change nothing:
    the loop run on the arrival sequence and the loop run on the sequence
    with those events removed end in the same state with the same output,
    and so does the whole process. *)
Theorem ignored_events_change_nothing :
  forall (evs : list event) (c : capture),
    receive_loop fromtimestamp_ok (List.filter (fun ev => negb (is_noop ev)) evs) c
    = receive_loop fromtimestamp_ok evs c
    /\ capture_and_analyze fromtimestamp_ok true
         (List.filter (fun ev => negb (is_noop ev)) evs) c
       = capture_and_analyze fromtimestamp_ok true evs c.
Proof.
  assert (H : forall evs c,
             receive_loop fromtimestamp_ok
                          (List.filter (fun ev => negb (is_noop ev)) evs) c
             = receive_loop fromtimestamp_ok evs c).
  { induction evs as [| ev evs IH]; intros c; [reflexivity |].
    cbn [List.filter]. destruct (is_noop ev) eqn:E; cbn [negb].
    - rewrite (receive_loop_cons fromtimestamp_ok ev evs), (noop_step ev c E).
      apply IH.
    - rewrite (receive_loop_cons fromtimestamp_ok ev evs),
        (receive_loop_cons fromtimestamp_ok ev (List.filter _ evs)).
      destruct (receive_loop fromtimestamp_ok [ev] c); try reflexivity. apply IH. }
  intros evs c. split; [apply H |].
  unfold capture_and_analyze. now rewrite H.
Qed.

End IgnoredFrames.

(** ** The source-label analyzer *)


Lemma lp_evidence_length (labels : list string) :
  length (flat_map lp_evidence labels)
  = count_occ String.string_dec labels "SIMULATED"
    + count_occ String.string_dec labels "YOFX".
Proof.
  induction labels as [| l labels IH]; [reflexivity |].
  cbn [flat_map count_occ]. rewrite length_app, IH. unfold lp_evidence.
  destruct (String.eqb_spec l "SIMULATED") as [-> | Hs].
  - destruct (String.string_dec "SIMULATED" "SIMULATED") as [_ | Hn]; [| congruence].
    destruct (String.string_dec "SIMULATED" "YOFX") as [Hn | _]; [discriminate |].
    simpl. lia.
  - destruct (String.string_dec l "SIMULATED") as [Hn | _]; [congruence |].
    destruct (String.eqb_spec l "YOFX") as [-> | Hy].
    + destruct (String.string_dec "YOFX" "YOFX") as [_ | Hn]; [| congruence].
      simpl. lia.
    + destruct (String.string_dec l "YOFX") as [Hn | _]; [congruence |].
      simpl. lia.
Qed.

Lemma lp_evidence_In (e : string) (labels : list string) :
  In e (flat_map lp_evidence labels)
  <-> (e = lp_simulated_message /\ In "SIMULATED" labels)
      \/ (e = lp_real_message /\ In "YOFX" labels).
Proof.
  rewrite in_flat_map. unfold lp_evidence. split.
  - intros [l [Hin He]].
    destruct (String.eqb_spec l "SIMULATED") as [-> | Hs].
    + destruct He as [<- | []]. now left.
    + destruct (String.eqb_spec l "YOFX") as [-> | Hy]; [| contradiction].
      destruct He as [<- | []]. now right.
  - intros [[-> Hin] | [-> Hin]].
    + exists "SIMULATED". split; [exact Hin | now left].
    + exists "YOFX". split; [exact Hin | now left].
Qed.

Lemma distinct_labels_In (ticks : list tick) (l : string) :
  In l (distinct_labels ticks) <-> exists t, In t ticks /\ lp_label t = l.
Proof.
  unfold distinct_labels. rewrite fold_note_symbol_In, in_map_iff. simpl.
  split.
  - intros [[] | [t [Heq Hin]]]. eauto.
  - intros [t [Hin Heq]]. right. eauto.
Qed.

Lemma lp_label_gateway (t : tick) : lp_label t = "YOFX" <-> lp t = Some "YOFX".
Proof.
  unfold lp_label. destruct (lp t) as [l |]; simpl; split; intros H;
    try congruence; discriminate.
Qed.

(** X2: [analyze_lp] adds at most two records however many ticks it is
    given: the simulation-marker record when some tick is labelled
    "SIMULATED" and the gateway record when some tick is labelled "YOFX",
    in the order in which those labels were first seen; any other label,
    and a missing one, adds nothing. *)
Theorem lp_analyzer_records :
  forall (ticks : list tick) (a : analysis_t),
    evidence (analyze_lp ticks a)
    = evidence a ++ flat_map lp_evidence (distinct_labels ticks)
    /\ length (flat_map lp_evidence (distinct_labels ticks)) <= 2
    /\ (forall e : string,
           In e (flat_map lp_evidence (distinct_labels ticks))
           <-> (e = lp_simulated_message
                /\ exists t, In t ticks /\ lp t = Some "SIMULATED")
               \/ (e = lp_real_message
                   /\ exists t, In t ticks /\ lp t = Some "YOFX")).
Proof.
  intros ticks a. split; [apply analyze_lp_evidence |]. split.
  - rewrite lp_evidence_length.
    assert (Hnd : List.NoDup (distinct_labels ticks))
      by (apply fold_note_symbol_NoDup; constructor).
    pose proof (proj1 (List.NoDup_count_occ String.string_dec _) Hnd) as Hc.
    pose proof (Hc "SIMULATED"). pose proof (Hc "YOFX"). lia.
  - intros e. rewrite lp_evidence_In, !distinct_labels_In.
    split; (intros [[-> [t [Hin Hl]]] | [-> [t [Hin Hl]]]];
            [left | right]; split; try reflexivity; exists t; split; try exact Hin).
    + now apply lp_label_simulated.
    + now apply lp_label_gateway.
    + now apply lp_label_simulated.
    + now apply lp_label_gateway.
Qed.

(** ** What a verdict rests on *)

Lemma as_tick_label (m : message) (t : tick) :
  as_tick m = Some t -> lp_label t = message_label m.
Proof. intros H. unfold lp_label, message_label. now rewrite (as_tick_lp m t H). Qed.

Section VerdictGrounds.

Variable fromtimestamp_ok : stamp -> bool.

Lemma main_verdict_analysis (connected : bool) (evs : list event) (c : capture)
      (v : verdict) :
  main fromtimestamp_ok connected evs = Verdict c v ->
  v = generate_verdict (analysis c)
  /\ forall x : string,
       x ∈ lp_sources (analysis c)
       <-> exists m, In m (all_ticks_of c) /\ message_label m = x.
Proof.
  intros Hmain.
  destruct (main_verdict fromtimestamp_ok connected evs c v Hmain)
    as (how & c1 & ticks & Hloop & Hsome & Hall & Han & ->).
  rewrite Han. split; [reflexivity |]. intros x.
  pose proof (receive_loop_analysis fromtimestamp_ok evs capture_init) as [Hlp _].
  rewrite Hloop in Hlp. simpl in Hlp.
  rewrite run_analyzers_sources, analyze_lp_sources, Hlp, Hall. split.
  - intros [Habs | [t [Hin Hl]]]; [now apply not_elem_of_empty in Habs |].
    destruct (proj2 (mapM_as_tick_In _ _ Hsome) t Hin) as [m [Hinm Hast]].
    exists m. split; [exact Hinm |]. now rewrite <- (as_tick_label m t Hast).
  - intros [m [Hin Hl]]. right.
    destruct (proj1 (mapM_as_tick_In _ _ Hsome) m Hin) as [t [Hint Hast]].
    exists t. split; [exact Hint |]. now rewrite (as_tick_label m t Hast).
Qed.

(** X3: when a verdict is produced, the label set the aggregator reads is
    exactly the set of labels of the ticks in the buffers, a tick without
    ['lp'] counting as "UNKNOWN"; labels of ticks that were not buffered
    are not in it. *)
Theorem observed_labels_are_buffered_labels :
  forall (connected : bool) (evs : list event) (c : capture) (v : verdict),
    main fromtimestamp_ok connected evs = Verdict c v ->
    forall x : string,
      x ∈ lp_sources (analysis c)
      <-> exists m, In m (all_ticks_of c) /\ message_label m = x.
Proof.
  intros connected evs c v Hmain.
  exact (proj2 (main_verdict_analysis connected evs c v Hmain)).
Qed.

(** X4: the verdict REAL is given only when a buffered tick is labelled
    "YOFX", no buffered tick is labelled "SIMULATED", and the real
    indicators strictly outnumber the simulated ones: a feed without the
    gateway label is never classified REAL. *)
Theorem real_verdict_needs_gateway_label :
  forall (connected : bool) (evs : list event) (c : capture),
    main fromtimestamp_ok connected evs = Verdict c REAL ->
    (exists m, In m (all_ticks_of c) /\ m_lp m = Some "YOFX")
    /\ (forall m, In m (all_ticks_of c) -> m_lp m <> Some "SIMULATED")
    /\ simulated_indicators (evidence (analysis c))
       < real_indicators (evidence (analysis c)).
Proof.
  intros connected evs c Hmain.
  destruct (main_verdict_analysis connected evs c REAL Hmain) as [Hv Hlabels].
  unfold generate_verdict in Hv.
  destruct (bool_decide ("SIMULATED" ∈ lp_sources (analysis c))) eqn:Es;
    [discriminate |].
  destruct (bool_decide ("YOFX" ∈ lp_sources (analysis c))) eqn:Ey; simpl in Hv.
  - destruct (Nat.ltb_spec (simulated_indicators (evidence (analysis c)))
                           (real_indicators (evidence (analysis c)))) as [Hlt | _].
    + apply bool_decide_eq_true in Ey. apply bool_decide_eq_false in Es.
      split; [| split; [| exact Hlt]].
      * apply Hlabels in Ey. destruct Ey as [m [Hin Hl]]. exists m.
        split; [exact Hin |]. unfold message_label in Hl.
        destruct (m_lp m) as [l |]; simpl in Hl; [now subst | discriminate].
      * intros m Hin Hl. apply Es, Hlabels. exists m. split; [exact Hin |].
        unfold message_label. now rewrite Hl.
    + destruct (_ <? _)%nat; discriminate.
  - destruct (_ <? _)%nat; discriminate.
Qed.


End VerdictGrounds.

Lemma observed_labels_are_buffered_labels_witness :
  main always_ok true gateway_feed
  = Verdict (final_capture (main always_ok true gateway_feed)) INCONCLUSIVE
  /\ ("YOFX" ∈ lp_sources (analysis (final_capture (main always_ok true gateway_feed)))
      <-> exists m,
            In m (all_ticks_of (final_capture (main always_ok true gateway_feed)))
            /\ message_label m = "YOFX").
Proof.
  assert (H : main always_ok true gateway_feed
              = Verdict (final_capture (main always_ok true gateway_feed)) INCONCLUSIVE)
    by (vm_compute; reflexivity).
  split; [exact H |].
  exact (observed_labels_are_buffered_labels always_ok true gateway_feed _ _ H "YOFX").
Defined.

Lemma real_verdict_needs_gateway_label_witness :
  main always_ok true constant_step_feed
  = Verdict (final_capture (main always_ok true constant_step_feed)) REAL
  /\ exists m,
       In m (all_ticks_of (final_capture (main always_ok true constant_step_feed)))
       /\ m_lp m = Some "YOFX".
Proof.
  assert (H : main always_ok true constant_step_feed
              = Verdict (final_capture (main always_ok true constant_step_feed)) REAL)
    by (vm_compute; reflexivity).
  split; [exact H |].
  exact (proj1 (real_verdict_needs_gateway_label always_ok true constant_step_feed _ H)).
Defined.


(** ** What the buffers hold *)

Lemma dict_get_append_other {A : Type} (k k' : string) (v : A)
      (d : list (string * list A)) :
  k <> k' -> dict_get k (dict_append k' v d) = dict_get k d.
Proof.
  intros Hne. induction d as [| [k0 vs] d IH]; simpl.
  - destruct (String.eqb_spec k' k); [congruence | reflexivity].
  - destruct (String.eqb_spec k0 k') as [-> | H0]; simpl.
    + destruct (String.eqb_spec k' k); [congruence | reflexivity].
    + destruct (String.eqb_spec k0 k); [reflexivity | exact IH].
Qed.

Lemma dict_append_keys {A : Type} (k : string) (v : A) (d : list (string * list A)) :
  map fst (dict_append k v d) = note_symbol (map fst d) k.
Proof.
  unfold note_symbol. induction d as [| [k0 vs] d IH]; simpl; [reflexivity |].
  rewrite (String.eqb_sym k k0).
  destruct (String.eqb_spec k0 k) as [-> | Hne]; simpl; [reflexivity |].
  rewrite IH. now destruct (existsb (String.eqb k) (map fst d)).
Qed.

Lemma dict_get_absent {A : Type} (k : string) (d : list (string * list A)) :
  ~ In k (map fst d) -> dict_get k d = [].
Proof.
  induction d as [| [k0 vs] d IH]; simpl; [reflexivity |]. intros Hnot.
  destruct (String.eqb_spec k0 k) as [-> | Hne]; [tauto | apply IH; tauto].
Qed.

Lemma dict_layout {A : Type} (d : list (string * list A)) :
  List.NoDup (map fst d) -> d = map (fun k => (k, dict_get k d)) (map fst d).
Proof.
  induction d as [| [k0 vs] d IH]; simpl; [reflexivity |]. intros Hnd.
  inversion Hnd as [| ? ? Hnot Hnd']; subst.
  rewrite String.eqb_refl. f_equal. rewrite (IH Hnd') at 1.
  apply map_ext_in. intros k Hin.
  destruct (String.eqb_spec k0 k) as [-> | _]; [contradiction | reflexivity].
Qed.

Lemma note_symbol_present (keys : list string) (k : string) :
  In k keys -> note_symbol keys k = keys.
Proof.
  intros Hin. unfold note_symbol.
  now rewrite (proj2 (existsb_eqb_In k keys) Hin).
Qed.

Lemma firstn_snoc_capped {A : Type} (n : nat) (l : list A) (x : A) :
  firstn n (l ++ [x])
  = if (length (firstn n l) <? n)%nat then firstn n l ++ [x] else firstn n l.
Proof.
  rewrite length_firstn.
  destruct (Nat.ltb_spec (Nat.min n (length l)) n) as [Hlt | Hge].
  - rewrite (firstn_all2 l) by lia. apply firstn_all2. rewrite length_app. simpl. lia.
  - rewrite firstn_app. replace (n - length l) with 0 by lia.
    simpl. apply app_nil_r.
Qed.

Lemma list_to_set_note_symbol (keys : list string) (k : string) :
  (list_to_set (note_symbol keys k) : gset string) = {[ k ]} ∪ list_to_set keys.
Proof.
  apply set_eq. intros x.
  rewrite elem_of_union, elem_of_singleton, !elem_of_list_to_set, !list_elem_of_In.
  rewrite note_symbol_In. tauto.
Qed.

Lemma received_ticks_app (pre post : list event) :
  received_ticks (pre ++ post) = received_ticks pre ++ received_ticks post.
Proof. apply flat_map_app. Qed.

Lemma received_symbols_app (pre post : list event) :
  received_symbols (pre ++ post) = received_symbols pre ++ received_symbols post.
Proof. unfold received_symbols. rewrite received_ticks_app. apply flat_map_app. Qed.

Lemma tick_numbers_print (o : output) (c : capture) :
  tick_numbers (print o c)
  = tick_numbers c ++ match o with OutTick n _ => [n] | _ => [] end.
Proof.
  unfold tick_numbers, print. cbn [printed]. rewrite flat_map_app. simpl.
  now rewrite app_nil_r.
Qed.

Section BufferFacts.

Variable fromtimestamp_ok : stamp -> bool.

(** One iteration after which the loop goes on. *)
Lemma running_step (ev : event) (c c' : capture) :
  receive_loop fromtimestamp_ok [ev] c = LoopRunning c' ->
  (received_ticks [ev] = []
   /\ captured_ticks c' = captured_ticks c
   /\ total_tick_count c' = total_tick_count c
   /\ analysis c' = analysis c
   /\ tick_numbers c' = tick_numbers c)
  \/ (exists m sym,
         received_ticks [ev] = [m] /\ m_symbol m = Some sym
         /\ captured_ticks c'
            = (if (length (dict_get sym (captured_ticks c)) <? CAPTURE_COUNT)%nat
               then dict_append sym m (captured_ticks c)
               else captured_ticks c)
         /\ total_tick_count c' = S (total_tick_count c)
         /\ analysis c' = add_symbol sym (analysis c)
         /\ tick_numbers c'
            = tick_numbers c
              ++ (if (S (total_tick_count c) <=? 5)%nat
                  then [S (total_tick_count c)] else [])).
Proof.
  destruct ev as [| | | [| | | m] |]; cbn [receive_loop handle_frame]; try discriminate.
  - intros H. injection H as <-. left. repeat split.
  - intros H. injection H as <-. left. repeat split.
    rewrite tick_numbers_print. apply app_nil_r.
  - cbn [received_ticks flat_map]. destruct (is_tick m).
    + unfold handle_tick. destruct (m_symbol m) as [sym |] eqn:Hsym; [| discriminate].
      intros H. right. exists m, sym. split; [reflexivity |]. split; [exact Hsym |].
      revert H. destruct (S (total_tick_count c) <=? 5)%nat.
      * destruct (m_timestamp m) as [ts |], (m_bid m), (m_ask m); try discriminate.
        destruct (fromtimestamp_ok ts); [| discriminate].
        destruct (_ && _); [discriminate |]. intros H. injection H as <-.
        repeat split. rewrite tick_numbers_print. reflexivity.
      * destruct (_ && _); [discriminate |]. intros H. injection H as <-.
        repeat split. unfold tick_numbers. cbn [printed]. now rewrite app_nil_r.
    + intros H. injection H as <-. left. repeat split.
Qed.

Lemma running_prefix (pre : list event) (ev : event) (c0 c' : capture) :
  receive_loop fromtimestamp_ok (pre ++ [ev]) c0 = LoopRunning c' ->
  exists c, receive_loop fromtimestamp_ok pre c0 = LoopRunning c
            /\ receive_loop fromtimestamp_ok [ev] c = LoopRunning c'.
Proof.
  rewrite receive_loop_app.
  destruct (receive_loop fromtimestamp_ok pre c0) as [c | | |]; try discriminate.
  intros H. now exists c.
Qed.

Lemma running_buffers (evs : list event) (c : capture) :
  receive_loop fromtimestamp_ok evs capture_init = LoopRunning c ->
  (forall sym,
      dict_get sym (captured_ticks c)
      = firstn CAPTURE_COUNT (List.filter (has_symbol sym) (received_ticks evs)))
  /\ map fst (captured_ticks c) = fold_left note_symbol (received_symbols evs) []
  /\ total_tick_count c = length (received_ticks evs).
Proof.
  revert c. induction evs as [| ev pre IH] using rev_ind; intros c'.
  - intros H. injection H as <-. repeat split.
  - intros H. destruct (running_prefix pre ev capture_init c' H) as (c & Hpre & Hstep).
    destruct (IH c Hpre) as (Hget & Hkeys & Htotal).
    rewrite received_ticks_app, received_symbols_app, fold_left_app, length_app.
    destruct (running_step ev c c' Hstep)
      as [(Hr & Ht & Hn & _) | (m & sym & Hr & Hsym & Ht & Hn & _)].
    + unfold received_symbols at 1. rewrite Hr, Ht, Hn, app_nil_r. simpl.
      repeat split; try assumption. lia.
    + unfold received_symbols at 1. rewrite Hr. cbn [flat_map]. rewrite Hsym.
      cbn [app fold_left length]. rewrite <- Hkeys.
      assert (Hfull : ~ (length (dict_get sym (captured_ticks c)) < CAPTURE_COUNT) ->
                      In sym (map fst (captured_ticks c))).
      { intros Hge. destruct (in_dec String.string_dec sym (map fst (captured_ticks c)))
          as [Hin | Hnot]; [exact Hin |].
        rewrite (dict_get_absent sym _ Hnot) in Hge. unfold CAPTURE_COUNT in Hge.
        simpl in Hge. lia. }
      split; [| split; [| lia]].
      * intros s. rewrite List.filter_app. cbn [List.filter].
        unfold has_symbol at 2. rewrite Hsym.
        destruct (String.eqb_spec sym s) as [<- | Hne].
        -- rewrite firstn_snoc_capped, <- Hget, Ht.
           destruct (Nat.ltb_spec (length (dict_get sym (captured_ticks c)))
                                  CAPTURE_COUNT);
             [apply dict_get_append | reflexivity].
        -- rewrite app_nil_r, <- Hget, Ht.
           destruct (Nat.ltb_spec (length (dict_get sym (captured_ticks c)))
                                  CAPTURE_COUNT);
             [apply dict_get_append_other; congruence | reflexivity].
      * rewrite Ht.
        destruct (Nat.ltb_spec (length (dict_get sym (captured_ticks c)))
                               CAPTURE_COUNT) as [Hlt | Hge].
        -- apply dict_append_keys.
        -- symmetry. apply note_symbol_present, Hfull. lia.
Qed.

(** X6: while the loop runs, each buffer holds the first CAPTURE_COUNT
    ticks received for its symbol, in arrival order; the buffers stand
    in order of their symbols' first arrival; the counter is the number
    of tick objects received, buffered or not.  These are the buffers
    the analysis gets when the deadline passes next. *)
Theorem buffers_hold_first_ticks :
  forall (evs : list event) (c : capture),
    receive_loop fromtimestamp_ok evs capture_init = LoopRunning c ->
    captured_ticks c
    = map (fun sym =>
             (sym, firstn CAPTURE_COUNT
                          (List.filter (has_symbol sym) (received_ticks evs))))
          (fold_left note_symbol (received_symbols evs) [])
    /\ total_tick_count c = length (received_ticks evs)
    /\ forall post : list event,
         captured_ticks
           (final_capture (main fromtimestamp_ok true (evs ++ DeadlinePassed :: post)))
         = captured_ticks c.
Proof.
  intros evs c Hrun. destruct (running_buffers evs c Hrun) as (Hget & Hkeys & Htotal).
  split; [| split; [exact Htotal |]].
  - assert (Hnd : List.NoDup (map fst (captured_ticks c))).
    { rewrite Hkeys. apply fold_note_symbol_NoDup. constructor. }
    rewrite (dict_layout (captured_ticks c) Hnd) at 1. rewrite Hkeys.
    apply map_ext. intros s. now rewrite Hget.
  - intros post. unfold main.
    rewrite (capture_and_analyze_ticks fromtimestamp_ok), receive_loop_app, Hrun.
    reflexivity.
Qed.

(** ** The set of symbols and the buffer keys *)

Lemma keys_inv_handle_tick (m : message) (c : capture) :
  keys_inv c -> keys_inv (snd (handle_tick fromtimestamp_ok m c)).
Proof.
  intros [Hsyms Hnd]. unfold keys_inv.
  destruct (handle_tick_effect fromtimestamp_ok m c) as (_ & _ & _ & H).
  destruct (m_symbol m) as [sym |]; destruct H as [-> ->]; [| now split].
  assert (Hkeys : map fst
                    (if (length (dict_get sym (captured_ticks c)) <? CAPTURE_COUNT)%nat
                     then dict_append sym m (captured_ticks c)
                     else captured_ticks c)
                  = note_symbol (map fst (captured_ticks c)) sym).
  { destruct (Nat.ltb_spec (length (dict_get sym (captured_ticks c))) CAPTURE_COUNT)
      as [Hlt | Hge]; [apply dict_append_keys |].
    symmetry. apply note_symbol_present.
    destruct (in_dec String.string_dec sym (map fst (captured_ticks c)))
      as [Hin | Hnot]; [exact Hin |].
    rewrite (dict_get_absent sym _ Hnot) in Hge. unfold CAPTURE_COUNT in Hge.
    simpl in Hge. lia. }
  rewrite Hkeys, list_to_set_note_symbol, Hsyms.
  split; [reflexivity | now apply note_symbol_NoDup].
Qed.


Lemma keys_inv_loop (evs : list event) (c : capture) :
  keys_inv c -> keys_inv (loop_state (receive_loop fromtimestamp_ok evs c)).
Proof.
  revert c. induction evs as [| ev evs IH]; intros c Hc; [exact Hc |].
  destruct ev as [| | | [| | | m] |]; cbn [receive_loop handle_frame loop_state];
    try assumption; try (now apply IH).
  pose proof (keys_inv_handle_tick m c Hc) as Hc'.
  destruct (is_tick m); [| now apply IH].
  destruct (handle_tick fromtimestamp_ok m c) as [[| |] c1]; simpl in *;
    [now apply IH | assumption | assumption].
Qed.

(** X7: however the process ends, the set of symbols it reports is the
    set of keys of the capture buffers, and no key stands twice: a
    symbol is recorded exactly when a buffer exists for it, and the
    number of symbols the stop rule reads is the number of buffers. *)
Theorem symbols_are_buffer_keys :
  forall (connected : bool) (evs : list event),
    symbols (analysis (final_capture (main fromtimestamp_ok connected evs)))
    = list_to_set
        (map fst (captured_ticks (final_capture (main fromtimestamp_ok connected evs))))
    /\ List.NoDup
         (map fst (captured_ticks (final_capture (main fromtimestamp_ok connected evs))))
    /\ size (symbols (analysis (final_capture (main fromtimestamp_ok connected evs))))
       = length (captured_ticks (final_capture (main fromtimestamp_ok connected evs))).
Proof.
  intros connected evs.
  assert (H : keys_inv (final_capture (main fromtimestamp_ok connected evs))).
  { unfold main, capture_and_analyze. destruct connected; [| split; [| constructor]].
    - assert (Hinit : keys_inv capture_init) by (split; [| constructor]; reflexivity).
      pose proof (keys_inv_loop evs capture_init Hinit) as Hl.
      destruct (receive_loop fromtimestamp_ok evs capture_init) as [c | how c | c | c];
        simpl in Hl; try exact Hl.
      destruct (analyze_capture_cases c)
        as [[_ ->] | [(_ & _ & ->) | (ticks & _ & _ & ->)]]; try exact Hl.
      destruct Hl as [Hs Hnd]. split; [| exact Hnd].
      cbn [final_capture analysis captured_ticks]. now rewrite run_analyzers_symbols.
    - reflexivity. }
  destruct H as [Hs Hnd]. split; [exact Hs |]. split; [exact Hnd |].
  rewrite Hs, size_list_to_set by (now apply NoDup_ListNoDup). apply length_map.
Qed.

(** ** The first five tick lines *)

Lemma tick_numbers_loop (evs : list event) (c : capture) :
  tick_numbers c = seq 1 (Nat.min (total_tick_count c) 5) ->
  match receive_loop fromtimestamp_ok evs c with
  | LoopRaised c' =>
      exists k, k <= Nat.min (total_tick_count c') 5 /\ tick_numbers c' = seq 1 k
  | r => tick_numbers (loop_state r)
         = seq 1 (Nat.min (total_tick_count (loop_state r)) 5)
  end.
Proof.
  revert c. induction evs as [| ev evs IH]; intros c Hc; [exact Hc |].
  assert (Hweak : exists k, k <= Nat.min (total_tick_count c) 5
                            /\ tick_numbers c = seq 1 k) by eauto.
  destruct ev as [| | | [| | | m] |]; cbn [receive_loop handle_frame loop_state];
    try assumption.
  - rewrite tick_numbers_print, app_nil_r. exact Hc.
  - now apply IH.
  - apply IH. rewrite tick_numbers_print, app_nil_r. exact Hc.
  - destruct (is_tick m); [| now apply IH]. unfold handle_tick.
    destruct (m_symbol m) as [sym |].
    + destruct (Nat.leb_spec (S (total_tick_count c)) 5) as [Hle | Hgt].
      * assert (Hlog : tick_numbers
                         (print (OutTick (S (total_tick_count c)) sym)
                            (mkCapture
                               (if (length (dict_get sym (captured_ticks c))
                                    <? CAPTURE_COUNT)%nat
                                then dict_append sym m (captured_ticks c)
                                else captured_ticks c)
                               (S (total_tick_count c)) (add_symbol sym (analysis c))
                               (printed c)))
                       = seq 1 (Nat.min (S (total_tick_count c)) 5)).
        { rewrite tick_numbers_print. unfold tick_numbers at 1. cbn [printed].
          fold (tick_numbers c). rewrite Hc.
          replace (Nat.min (total_tick_count c) 5) with (total_tick_count c) by lia.
          replace (Nat.min (S (total_tick_count c)) 5) with (S (total_tick_count c))
            by lia.
          now rewrite seq_S. }
        assert (Hraise : exists k,
                   k <= Nat.min (S (total_tick_count c)) 5
                   /\ tick_numbers c = seq 1 k).
        { exists (Nat.min (total_tick_count c) 5). split; [lia | exact Hc]. }
        destruct (m_timestamp m) as [ts |], (m_bid m), (m_ask m); try exact Hraise.
        destruct (fromtimestamp_ok ts); [| exact Hraise].
        destruct (_ && _); [exact Hlog | now apply IH].
      * assert (Hsame : tick_numbers c = seq 1 (Nat.min (S (total_tick_count c)) 5)).
        { rewrite Hc. f_equal. lia. }
        destruct (_ && _); [exact Hsame | now apply IH].
    + exists (Nat.min (total_tick_count c) 5). split; [simpl; lia | exact Hc].
Qed.

(** X8: the tick lines printed are numbered 1, 2, ... without a gap and
    there are never more than five of them; unless an exception ended
    the loop, there are exactly min(received, 5): each of the first five
    ticks received is logged and no later one is. *)
Theorem first_five_ticks_logged :
  forall evs : list event,
    (exists k,
        k <= Nat.min
               (total_tick_count
                  (loop_state (receive_loop fromtimestamp_ok evs capture_init))) 5
        /\ tick_numbers (loop_state (receive_loop fromtimestamp_ok evs capture_init))
           = seq 1 k)
    /\ ((forall c, receive_loop fromtimestamp_ok evs capture_init <> LoopRaised c) ->
        tick_numbers (loop_state (receive_loop fromtimestamp_ok evs capture_init))
        = seq 1 (Nat.min
                   (total_tick_count
                      (loop_state (receive_loop fromtimestamp_ok evs capture_init)))
                   5)).
Proof.
  intros evs.
  pose proof (tick_numbers_loop evs capture_init eq_refl) as H.
  destruct (receive_loop fromtimestamp_ok evs capture_init) as [c | how c | c | c];
    cbn [loop_state] in *.
  - split; [eauto | intros _; exact H].
  - split; [eauto | intros _; exact H].
  - split; [exact H | intros Hno; now contradiction (Hno c)].
  - split; [eauto | intros _; exact H].
Qed.

(** ** Stopping before the deadline *)

Lemma full_buffer_exists (d : list (string * list message)) :
  1 <= symbols_with_enough d ->
  exists kv, In kv d /\ CAPTURE_COUNT <= length (snd kv).
Proof.
  unfold symbols_with_enough. intros H.
  destruct (List.filter (fun kv => (CAPTURE_COUNT <=? length (snd kv))%nat) d)
    as [| kv l] eqn:E; [simpl in H; lia |].
  assert (Hin : In kv (List.filter
                         (fun kv => (CAPTURE_COUNT <=? length (snd kv))%nat) d))
    by (rewrite E; now left).
  apply filter_In in Hin. destruct Hin as [Hin Hle]. apply Nat.leb_le in Hle.
  now exists kv.
Qed.

Lemma flat_map_snd_length {A : Type} (d : list (string * list A)) (kv : string * list A) :
  In kv d -> length (snd kv) <= length (flat_map snd d).
Proof.
  induction d as [| kv0 d IH]; [contradiction |]. simpl. rewrite length_app.
  intros [-> | Hin]; [lia | specialize (IH Hin); lia].
Qed.

(** X9: the loop stops before the deadline only with the target reached:
    at least CAPTURE_COUNT ticks received and min(3, number of buffers)
    buffers full.  Some buffer then holds exactly CAPTURE_COUNT ticks, so
    at least that many ticks go to the analysis; and as long as the loop
    runs the target has not been reached. *)
Theorem early_stop_has_full_buffer :
  (forall (evs : list event) (c : capture),
      receive_loop fromtimestamp_ok evs capture_init = LoopDone EnoughData c ->
      CAPTURE_COUNT <= total_tick_count c
      /\ Nat.min 3 (length (captured_ticks c)) <= symbols_with_enough (captured_ticks c)
      /\ (exists kv, In kv (captured_ticks c) /\ length (snd kv) = CAPTURE_COUNT)
      /\ CAPTURE_COUNT <= length (all_ticks_of c))
  /\ (forall (evs : list event) (c : capture),
         receive_loop fromtimestamp_ok evs capture_init = LoopRunning c ->
         total_tick_count c < CAPTURE_COUNT
         \/ symbols_with_enough (captured_ticks c)
            < Nat.min 3 (length (captured_ticks c))).
Proof.
  assert (Hsize : forall evs,
             size (symbols (analysis
                              (loop_state (receive_loop fromtimestamp_ok evs capture_init))))
             = length (captured_ticks
                         (loop_state (receive_loop fromtimestamp_ok evs capture_init)))).
  { intros evs.
    assert (Hinit : keys_inv capture_init) by (split; [| constructor]; reflexivity).
    destruct (keys_inv_loop evs capture_init Hinit) as [Hs Hnd].
    rewrite Hs, size_list_to_set by (now apply NoDup_ListNoDup). apply length_map. }
  split.
  - intros evs c Hdone.
    destruct (receive_loop_done fromtimestamp_ok evs capture_init c EnoughData Hdone)
      as [Habs | [_ [Hmin Htotal]]]; [discriminate |].
    pose proof (Hsize evs) as Hs. rewrite Hdone in Hs. cbn [loop_state] in Hs.
    rewrite Hs in Hmin.
    pose proof (receive_loop_inv fromtimestamp_ok evs capture_init
                  (capture_inv_init)) as Hinv.
    rewrite Hdone in Hinv. cbn [loop_state] in Hinv. destruct Hinv as [Hall Hnil].
    assert (Hne : captured_ticks c <> []).
    { intros Habs. apply Hnil in Habs. unfold CAPTURE_COUNT in Htotal. lia. }
    assert (H1 : 1 <= symbols_with_enough (captured_ticks c)).
    { destruct (captured_ticks c) as [| kv d]; [congruence |].
      cbn [length] in Hmin. lia. }
    destruct (full_buffer_exists _ H1) as (kv & Hin & Hle).
    rewrite List.Forall_forall in Hall. destruct (Hall kv Hin) as ([_ Hcap] & _).
    repeat split; try assumption.
    + exists kv. split; [exact Hin | lia].
    + pose proof (flat_map_snd_length (captured_ticks c) kv Hin). unfold all_ticks_of. lia.
  - intros evs c Hrun.
    destruct (receive_loop_running fromtimestamp_ok evs capture_init c
                capture_inv_init capture_init_not_reached Hrun) as [_ Hnot].
    pose proof (Hsize evs) as Hs. rewrite Hrun in Hs. cbn [loop_state] in Hs.
    unfold target_reached in Hnot. rewrite Hs in Hnot. lia.
Qed.

End BufferFacts.

Lemma buffers_hold_first_ticks_witness :
  receive_loop always_ok [feed "EURUSD" None; ReadTimeout; feed "GBPUSD" None]
               capture_init
  = LoopRunning
      (loop_state
         (receive_loop always_ok [feed "EURUSD" None; ReadTimeout; feed "GBPUSD" None]
                       capture_init))
  /\ total_tick_count
       (loop_state
          (receive_loop always_ok [feed "EURUSD" None; ReadTimeout; feed "GBPUSD" None]
                        capture_init))
     = length (received_ticks [feed "EURUSD" None; ReadTimeout; feed "GBPUSD" None]).
Proof.
  assert (H : receive_loop always_ok
                [feed "EURUSD" None; ReadTimeout; feed "GBPUSD" None] capture_init
              = LoopRunning
                  (loop_state
                     (receive_loop always_ok
                        [feed "EURUSD" None; ReadTimeout; feed "GBPUSD" None]
                        capture_init)))
    by (vm_compute; reflexivity).
  split; [exact H |].
  exact (proj1 (proj2 (buffers_hold_first_ticks always_ok _ _ H))).
Defined.

Lemma first_five_ticks_logged_witness :
  (forall c, receive_loop always_ok gateway_feed capture_init <> LoopRaised c)
  /\ tick_numbers (loop_state (receive_loop always_ok gateway_feed capture_init))
     = seq 1 (Nat.min
                (total_tick_count
                   (loop_state (receive_loop always_ok gateway_feed capture_init))) 5).
Proof.
  assert (H : forall c, receive_loop always_ok gateway_feed capture_init <> LoopRaised c).
  { intros c. vm_compute. discriminate. }
  split; [exact H |].
  exact (proj2 (first_five_ticks_logged always_ok gateway_feed) H).
Defined.

Lemma early_stop_has_full_buffer_witness :
  receive_loop always_ok gateway_feed capture_init
  = LoopDone EnoughData (loop_state (receive_loop always_ok gateway_feed capture_init))
  /\ CAPTURE_COUNT
     <= length (all_ticks_of
                  (loop_state (receive_loop always_ok gateway_feed capture_init))).
Proof.
  assert (H : receive_loop always_ok gateway_feed capture_init
              = LoopDone EnoughData
                  (loop_state (receive_loop always_ok gateway_feed capture_init)))
    by (vm_compute; reflexivity).
  split; [exact H |].
  exact (proj2 (proj2 (proj2 (proj1 (early_stop_has_full_buffer always_ok) _ _ H)))).
Defined.

(** ** What the analyzers can say of small groups *)

Lemma small_group_consistency (n u : nat) :
  1 <= u <= n -> n <= CAPTURE_COUNT ->
  (0.95 <? 1 - int_truediv u n)%float = false.
Proof.
  intros Hu Hn.
  assert (Htable :
            forallb (fun n => forallb (fun u => negb (0.95 <? 1 - int_truediv u n)%float)
                                      (seq 1 n))
                    (seq 1 CAPTURE_COUNT) = true) by (vm_compute; reflexivity).
  rewrite forallb_forall in Htable.
  assert (Hin : In n (seq 1 CAPTURE_COUNT)) by (apply in_seq; lia).
  specialize (Htable n Hin). rewrite forallb_forall in Htable.
  assert (Hiu : In u (seq 1 n)) by (apply in_seq; lia).
  specialize (Htable u Hiu). now apply negb_true_iff in Htable.
Qed.

Lemma spread_evidence_small (sym : string) (g : list tick) :
  1 <= length g <= CAPTURE_COUNT ->
  spread_evidence sym g = [variable_spread_message sym].
Proof.
  intros Hlen. unfold spread_evidence. cbv zeta. rewrite length_map.
  assert (Hne : map (fun t => py_round 6 (ask t - bid t)%float) g <> []).
  { destruct g; [simpl in Hlen; lia | discriminate]. }
  pose proof (distinct_count_bounds _ Hne) as Hu. rewrite length_map in Hu.
  rewrite (small_group_consistency (length g)) by (try exact Hu; lia).
  reflexivity.
Qed.

(** X10: with CAPTURE_COUNT = 20 ticks or fewer of a symbol the spread
    analyzer always emits the variable-spread (real) record, even when
    every spread is the same: the consistent-spread (simulated) record
    is emitted only for a group of more than 20 ticks. *)
Theorem consistent_spread_needs_more_ticks :
  (forall (sym : string) (g : list tick),
      1 <= length g <= CAPTURE_COUNT ->
      spread_evidence sym g = [variable_spread_message sym])
  /\ (forall (sym : string) (g : list tick) (consistency : float),
         g <> [] ->
         spread_evidence sym g = [consistent_spread_message sym consistency] ->
         CAPTURE_COUNT < length g).
Proof.
  split; [exact spread_evidence_small |].
  intros sym g consistency Hne Hev.
  destruct (Nat.le_gt_cases (length g) CAPTURE_COUNT) as [Hle | Hgt]; [| exact Hgt].
  assert (Hlen : 1 <= length g <= CAPTURE_COUNT).
  { destruct g; [congruence | simpl in *; lia]. }
  rewrite (spread_evidence_small sym g Hlen) in Hev.
  injection Hev as Hev. vm_compute in Hev. discriminate.
Qed.

Lemma price_pattern_three (sym : string) (g : list tick) :
  length g = 3 ->
  price_pattern_evidence sym g = [high_variation_message sym 0.5]
  \/ price_pattern_evidence sym g = [high_variation_message sym 1].
Proof.
  intros Hlen. rewrite price_pattern_evidence_enough by lia. cbv zeta.
  pose proof (successive_differences_length (map bid g)) as Hc.
  rewrite length_map, Hlen in Hc. simpl in Hc.
  assert (Hne : map (py_round 6) (successive_differences (map bid g)) <> []).
  { destruct (successive_differences (map bid g)); [discriminate | discriminate]. }
  pose proof (distinct_count_bounds _ Hne) as Hu. rewrite length_map, Hc in Hu.
  rewrite Hc.
  assert (Hcases : distinct_count (map (py_round 6) (successive_differences (map bid g)))
                   = 1
                   \/ distinct_count
                        (map (py_round 6) (successive_differences (map bid g))) = 2)
    by lia.
  destruct Hcases as [-> | ->]; [left | right]; reflexivity.
Qed.

(** X11: a symbol with exactly three ticks always gets the
    high-variation (real) record from the price-pattern analyzer: two
    differences give a ratio of 0.5 or 1, never below 0.5, so the
    low-regularity (simulated) record needs at least four ticks. *)
Theorem low_regularity_needs_four_ticks :
  (forall (sym : string) (g : list tick),
      length g = 3 ->
      price_pattern_evidence sym g = [high_variation_message sym 0.5]
      \/ price_pattern_evidence sym g = [high_variation_message sym 1])
  /\ (forall (sym : string) (g : list tick) (ratio : float),
         price_pattern_evidence sym g = [low_regularity_message sym ratio] ->
         4 <= length g).
Proof.
  split; [exact price_pattern_three |].
  intros sym g ratio Hev.
  destruct (Nat.le_gt_cases 4 (length g)) as [Hge | Hlt]; [exact Hge |].
  destruct (Nat.eq_dec (length g) 3) as [H3 | Hn3].
  - destruct (price_pattern_three sym g H3) as [H | H]; rewrite H in Hev;
      injection Hev as Hev; vm_compute in Hev; discriminate.
  - unfold price_pattern_evidence in Hev.
    destruct (Nat.ltb_spec (length g) 3) as [_ | Hge]; [discriminate | lia].
Qed.

Lemma consistent_spread_needs_more_ticks_witness :
  1 <= length constant_spread_ticks <= CAPTURE_COUNT
  /\ spread_evidence "GBPUSD" constant_spread_ticks = [variable_spread_message "GBPUSD"].
Proof.
  assert (H : 1 <= length constant_spread_ticks <= CAPTURE_COUNT)
    by (vm_compute; split; lia).
  split; [exact H |].
  exact (proj1 consistent_spread_needs_more_ticks "GBPUSD" constant_spread_ticks H).
Defined.

Lemma low_regularity_needs_four_ticks_witness :
  length three_ticks = 3
  /\ (price_pattern_evidence "EURUSD" three_ticks = [high_variation_message "EURUSD" 0.5]
      \/ price_pattern_evidence "EURUSD" three_ticks
         = [high_variation_message "EURUSD" 1]).
Proof.
  split; [reflexivity |].
  exact (proj1 low_regularity_needs_four_ticks "EURUSD" three_ticks eq_refl).
Defined.

(** ** The evidence of a session *)

Lemma run_analyzers_evidence (ticks : list tick) (a : analysis_t) :
  evidence (run_analyzers ticks a)
  = evidence a
    ++ flat_map lp_evidence (distinct_labels ticks)
    ++ flat_map (fun s => price_pattern_evidence s (ticks_of s ticks))
                (distinct_symbols ticks)
    ++ timestamp_evidence (timestamp_gaps ticks)
    ++ flat_map (fun s => spread_evidence s (ticks_of s ticks)) (distinct_symbols ticks).
Proof.
  unfold run_analyzers.
  rewrite analyze_spread_evidence. unfold analyze_timestamps. cbn [evidence].
  rewrite analyze_price_patterns_evidence, analyze_lp_evidence.
  now rewrite <- !app_assoc.
Qed.

Lemma flat_map_singleton {A B : Type} (f : A -> list B) (g : A -> B) (l : list A) :
  (forall x, In x l -> f x = [g x]) -> flat_map f l = map g l.
Proof.
  induction l as [| x l IH]; intros H; simpl; [reflexivity |].
  rewrite (H x) by now left. simpl. f_equal. apply IH. intros y Hy. apply H. now right.
Qed.

Lemma filter_keyed (s : string) (d : list (string * list message)) :
  Forall (fun kv => Forall (fun m => m_symbol m = Some (fst kv)) (snd kv)) d ->
  List.NoDup (map fst d) ->
  List.filter (has_symbol s) (flat_map snd d) = dict_get s d.
Proof.
  induction d as [| [k vs] d IH]; [reflexivity |]. intros Hk Hnd.
  inversion Hk as [| ? ? Hvs Hk']; subst. inversion Hnd as [| ? ? Hnot Hnd']; subst.
  cbn [flat_map snd dict_get fst map] in *. rewrite List.filter_app, (IH Hk' Hnd').
  destruct (String.eqb_spec k s) as [-> | Hne].
  - rewrite (dict_get_absent s d Hnot), app_nil_r.
    clear -Hvs. induction Hvs as [| m vs Hm _ IHvs]; [reflexivity |].
    cbn [List.filter]. unfold has_symbol at 1. rewrite Hm, String.eqb_refl.
    now rewrite IHvs.
  - replace (List.filter (has_symbol s) vs) with (@nil message); [reflexivity |].
    clear -Hvs Hne. induction Hvs as [| m vs Hm _ IHvs]; [reflexivity |].
    cbn [List.filter]. unfold has_symbol at 1. rewrite Hm.
    destruct (String.eqb_spec k s); [contradiction | exact IHvs].
Qed.

Lemma mapM_as_tick_ticks_of (s : string) (ms : list message) (ticks : list tick) :
  mapM as_tick ms = Some ticks ->
  length (ticks_of s ticks) = length (List.filter (has_symbol s) ms).
Proof.
  revert ticks. induction ms as [| m ms IH]; intros ticks; simpl.
  - intros H. injection H as <-. reflexivity.
  - destruct (as_tick m) as [t |] eqn:Et; [| discriminate]. simpl.
    destruct (mapM as_tick ms) as [k |]; [| discriminate]. simpl.
    intros H. injection H as <-. specialize (IH k eq_refl).
    unfold ticks_of in *. cbn [List.filter].
    assert (Hs : has_symbol s m = String.eqb (symbol t) s).
    { unfold as_tick in Et. unfold has_symbol.
      destruct (m_symbol m), (m_bid m), (m_ask m), (m_timestamp m); try discriminate.
      injection Et as <-. reflexivity. }
    rewrite Hs. destruct (String.eqb (symbol t) s); simpl; now rewrite IH.
Qed.


Lemma variable_spread_all_real (l : list string) :
  length (List.filter is_real_indicator (map variable_spread_message l)) = length l.
Proof.
  induction l as [| s l IH]; [reflexivity |].
  cbn [map List.filter]. rewrite variable_spread_is_real. simpl. now rewrite IH.
Qed.

Section SessionEvidence.

Variable fromtimestamp_ok : stamp -> bool.

Lemma keyed_inv_handle_tick (m : message) (c : capture) :
  keyed_inv c -> keyed_inv (snd (handle_tick fromtimestamp_ok m c)).
Proof.
  intros Hk. unfold keyed_inv.
  destruct (handle_tick_effect fromtimestamp_ok m c) as (_ & _ & _ & H).
  destruct (m_symbol m) as [sym |] eqn:Hsym; destruct H as [-> _]; [| exact Hk].
  destruct (length (dict_get sym (captured_ticks c)) <? CAPTURE_COUNT)%nat;
    [| exact Hk].
  apply (dict_append_Forall (fun k vs => Forall (fun m => m_symbol m = Some k) vs));
    [exact Hk |].
  apply Forall_app. split; [| now repeat constructor].
  destruct (dict_get sym (captured_ticks c)) as [| x xs] eqn:E; [constructor |].
  rewrite <- E.
  apply (dict_get_Forall (fun k vs => Forall (fun m => m_symbol m = Some k) vs));
    [exact Hk | rewrite E; discriminate].
Qed.

Lemma keyed_inv_loop (evs : list event) (c : capture) :
  keyed_inv c -> keyed_inv (loop_state (receive_loop fromtimestamp_ok evs c)).
Proof.
  revert c. induction evs as [| ev evs IH]; intros c Hc; [exact Hc |].
  destruct ev as [| | | [| | | m] |]; cbn [receive_loop handle_frame loop_state];
    try assumption; try (now apply IH).
  pose proof (keyed_inv_handle_tick m c Hc) as Hc'.
  destruct (is_tick m); [| now apply IH].
  destruct (handle_tick fromtimestamp_ok m c) as [[| |] c1]; simpl in *;
    [now apply IH | assumption | assumption].
Qed.

(** The groups the analyzers form are the capture buffers. *)
Lemma session_groups (evs : list event) (ticks : list tick) (s : string) :
  mapM as_tick
       (all_ticks_of (loop_state (receive_loop fromtimestamp_ok evs capture_init)))
  = Some ticks ->
  length (ticks_of s ticks)
  = length (dict_get s (captured_ticks
                          (loop_state (receive_loop fromtimestamp_ok evs capture_init)))).
Proof.
  intros Hsome. rewrite (mapM_as_tick_ticks_of s _ ticks Hsome). unfold all_ticks_of.
  rewrite filter_keyed; [reflexivity | |].
  - apply keyed_inv_loop. constructor.
  - apply (keys_inv_loop fromtimestamp_ok). split; [reflexivity | constructor].
Qed.

Lemma session_group_sizes (evs : list event) (ticks : list tick) (s : string) :
  mapM as_tick
       (all_ticks_of (loop_state (receive_loop fromtimestamp_ok evs capture_init)))
  = Some ticks ->
  length (ticks_of s ticks) <= CAPTURE_COUNT.
Proof.
  intros Hsome. rewrite (session_groups evs ticks s Hsome).
  assert (Hcap : within_capacity capture_init) by constructor.
  pose proof (receive_loop_within_capacity fromtimestamp_ok evs capture_init Hcap) as Hw.
  destruct (dict_get s (captured_ticks
                          (loop_state (receive_loop fromtimestamp_ok evs capture_init))))
    as [| x xs] eqn:E; [simpl; lia |].
  rewrite <- E.
  apply (dict_get_Forall (fun _ vs => length vs <= CAPTURE_COUNT)); [exact Hw |].
  rewrite E. discriminate.
Qed.

Lemma session_evidence (connected : bool) (evs : list event) (c : capture)
      (v : verdict) :
  main fromtimestamp_ok connected evs = Verdict c v ->
  exists ticks : list tick,
    mapM as_tick (all_ticks_of c) = Some ticks
    /\ ticks <> []
    /\ evidence (analysis c)
       = flat_map lp_evidence (distinct_labels ticks)
         ++ flat_map (fun s => price_pattern_evidence s (ticks_of s ticks))
                     (distinct_symbols ticks)
         ++ timestamp_evidence (timestamp_gaps ticks)
         ++ map variable_spread_message (distinct_symbols ticks)
    /\ (forall x : string, x ∈ lp_sources (analysis c) <-> In x (distinct_labels ticks))
    /\ v = generate_verdict (analysis c).
Proof.
  intros Hmain.
  destruct (main_verdict fromtimestamp_ok connected evs c v Hmain)
    as (how & c1 & ticks & Hloop & Hsome & Hall & Han & Hv).
  assert (Hc1 : c1 = loop_state (receive_loop fromtimestamp_ok evs capture_init))
    by now rewrite Hloop.
  pose proof (receive_loop_analysis fromtimestamp_ok evs capture_init) as [Hl He].
  rewrite <- Hc1 in Hl, He.
  exists ticks. rewrite Hall. split; [exact Hsome |]. split; [| split; [| split]].
  - intros ->. unfold main, capture_and_analyze in Hmain.
    destruct connected; [| discriminate]. rewrite Hloop in Hmain.
    destruct (all_ticks_of c1) as [| m ms] eqn:E.
    + destruct (analyze_capture_cases c1) as [[_ Heq] | [(Hne & _) | (k & Hne & _)]];
        [rewrite Heq in Hmain; discriminate | contradiction | contradiction].
    + simpl in Hsome. destruct (as_tick m); [| discriminate]. simpl in Hsome.
      destruct (mapM as_tick ms); discriminate.
  - rewrite Han, run_analyzers_evidence, He.
    cbn [capture_init analysis analysis_init evidence app].
    do 3 f_equal. apply flat_map_singleton. intros s Hin.
    apply spread_evidence_small. split; [now apply ticks_of_present |].
    apply (session_group_sizes evs). now rewrite <- Hc1.
  - intros x. rewrite Han, run_analyzers_sources, analyze_lp_sources, Hl.
    rewrite distinct_labels_In. cbn [capture_init analysis analysis_init lp_sources].
    split; [intros [Habs | H]; [now apply not_elem_of_empty in Habs | exact H] | auto].
  - now rewrite Han.
Qed.

(** X12: the evidence a verdict rests on is, in this order: the label
    records, the price-pattern records of the buffered symbols, the
    timestamp record, and then one variable-spread (real) record for
    every buffered symbol.  A buffer never holds more than CAPTURE_COUNT
    ticks, so in a session the spread analyzer never reports simulation,
    and the real indicators number at least one per symbol. *)
Theorem session_evidence_layout :
  forall (connected : bool) (evs : list event) (c : capture) (v : verdict),
    main fromtimestamp_ok connected evs = Verdict c v ->
    exists ticks : list tick,
      mapM as_tick (all_ticks_of c) = Some ticks
      /\ evidence (analysis c)
         = flat_map lp_evidence (distinct_labels ticks)
           ++ flat_map (fun s => price_pattern_evidence s (ticks_of s ticks))
                       (distinct_symbols ticks)
           ++ timestamp_evidence (timestamp_gaps ticks)
           ++ map variable_spread_message (distinct_symbols ticks)
      /\ 1 <= length (distinct_symbols ticks)
           <= real_indicators (evidence (analysis c)).
Proof.
  intros connected evs c v Hmain.
  destruct (session_evidence connected evs c v Hmain)
    as (ticks & Hsome & Hne & Hev & _).
  exists ticks. split; [exact Hsome |]. split; [exact Hev |]. split.
  - destruct ticks as [| t ticks']; [congruence |].
    assert (Hin : In (symbol t) (distinct_symbols (t :: ticks'))).
    { apply distinct_symbols_In. exists t. split; [now left | reflexivity]. }
    destruct (distinct_symbols (t :: ticks')); [contradiction | simpl; lia].
  - rewrite Hev. unfold real_indicators. rewrite !List.filter_app, !length_app.
    pose proof (variable_spread_all_real (distinct_symbols ticks)). lia.
Qed.

End SessionEvidence.

Lemma session_evidence_layout_witness :
  main always_ok true constant_step_feed
  = Verdict (final_capture (main always_ok true constant_step_feed)) REAL
  /\ exists ticks : list tick,
       mapM as_tick (all_ticks_of (final_capture (main always_ok true constant_step_feed)))
       = Some ticks
       /\ 1 <= length (distinct_symbols ticks)
          <= real_indicators
               (evidence (analysis (final_capture (main always_ok true constant_step_feed)))).
Proof.
  assert (H : main always_ok true constant_step_feed
              = Verdict (final_capture (main always_ok true constant_step_feed)) REAL)
    by (vm_compute; reflexivity).
  split; [exact H |].
  destruct (session_evidence_layout always_ok true constant_step_feed _ _ H)
    as (ticks & Hsome & _ & Hcount).
  exists ticks. split; [exact Hsome | exact Hcount].
Defined.

(** ** Markers inside symbols *)

Lemma append_cons (c : ascii) (s r : string) : String c s +:+ r = String c (s +:+ r).
Proof. reflexivity. Qed.

Lemma append_nil (r : string) : EmptyString +:+ r = r.
Proof. reflexivity. Qed.

Lemma ascii_only_app (s1 s2 : string) :
  ascii_only (s1 +:+ s2) = ascii_only s1 && ascii_only s2.
Proof.
  induction s1 as [| a s1 IH]; [reflexivity |].
  rewrite append_cons. cbn [ascii_only]. now rewrite IH, andb_assoc.
Qed.

Lemma ascii_only_string_of_uint (u : Decimal.uint) :
  ascii_only (NilEmpty.string_of_uint u) = true.
Proof. induction u; cbn [NilEmpty.string_of_uint ascii_only]; try rewrite IHu; reflexivity. Qed.

Lemma ascii_only_string_of_Z (z : Z) : ascii_only (string_of_Z z) = true.
Proof. destruct z; try reflexivity; apply ascii_only_string_of_uint. Qed.

Lemma ascii_only_zeros (n : nat) : ascii_only (zeros n) = true.
Proof. induction n as [| n IH]; [reflexivity |]. cbn [zeros]. now rewrite ascii_only_app, IH. Qed.

Lemma ascii_only_fixed_digits (d : nat) (k : Z) : ascii_only (fixed_digits d k) = true.
Proof.
  unfold fixed_digits, zero_pad. destruct d; [apply ascii_only_string_of_Z |].
  now rewrite !ascii_only_app, !ascii_only_string_of_Z, ascii_only_zeros.
Qed.

Lemma ascii_only_format_fixed (d : nat) (x : float) : ascii_only (format_fixed d x) = true.
Proof.
  unfold format_fixed.
  destruct (Prim2SF x) as [s | s | | s m e]; try reflexivity;
    rewrite ascii_only_app; try rewrite ascii_only_fixed_digits; now destruct s.
Qed.

Lemma prefix_app_ascii (needle s rest : string) :
  high_only needle = true -> ascii_only rest = true ->
  String.prefix needle (s +:+ rest) = String.prefix needle s.
Proof.
  revert s. induction needle as [| a needle IH]; intros s Hn Hr.
  - now destruct s, rest.
  - cbn [high_only] in Hn. apply andb_true_iff in Hn. destruct Hn as [Ha Hn].
    destruct s as [| c s]; [rewrite append_nil | rewrite append_cons];
      cbn [String.prefix].
    + destruct rest as [| b rest]; [reflexivity |].
      cbn [ascii_only] in Hr. apply andb_true_iff in Hr. destruct Hr as [Hb _].
      cbn [String.prefix]. destruct (ascii_dec a b) as [-> | _]; [| reflexivity].
      apply Nat.leb_le in Ha. apply Nat.ltb_lt in Hb. lia.
    + destruct (ascii_dec a c); [now apply IH | reflexivity].
Qed.

Lemma contains_ascii_only (needle rest : string) :
  needle <> EmptyString -> high_only needle = true -> ascii_only rest = true ->
  contains needle rest = false.
Proof.
  intros Hne Hn. induction rest as [| b rest IH]; intros Hr.
  - destruct needle; [congruence | reflexivity].
  - rewrite contains_unfold. cbn [ascii_only] in Hr. apply andb_true_iff in Hr.
    destruct Hr as [Hb Hr]. rewrite (IH Hr), orb_false_r.
    destruct needle as [| a needle]; [congruence |]. cbn [String.prefix].
    cbn [high_only] in Hn. apply andb_true_iff in Hn. destruct Hn as [Ha _].
    destruct (ascii_dec a b) as [-> | _]; [| reflexivity].
    apply Nat.leb_le in Ha. apply Nat.ltb_lt in Hb. lia.
Qed.

Lemma contains_app_ascii (needle s rest : string) :
  needle <> EmptyString -> high_only needle = true -> ascii_only rest = true ->
  contains needle (s +:+ rest) = contains needle s.
Proof.
  intros Hne Hn Hr. induction s as [| c s IH].
  - rewrite append_nil, (contains_ascii_only needle rest Hne Hn Hr).
    destruct needle; [congruence | reflexivity].
  - rewrite (contains_unfold needle (String c s)), append_cons.
    rewrite (contains_unfold needle (String c (s +:+ rest))), IH.
    f_equal. rewrite <- append_cons. apply (prefix_app_ascii needle (String c s) rest Hn Hr).
Qed.

Lemma markers_high :
  (WARN <> EmptyString /\ high_only WARN = true)
  /\ (CROSS <> EmptyString /\ high_only CROSS = true)
  /\ (CHECK <> EmptyString /\ high_only CHECK = true).
Proof. repeat split; discriminate. Qed.

Lemma real_marker_in_low_regularity (sym : string) (r : float) :
  is_real_indicator (low_regularity_message sym r) = contains CHECK sym.
Proof.
  destruct markers_high as (_ & _ & Hne & Hh).
  unfold is_real_indicator, low_regularity_message.
  transitivity (contains CHECK
                  (sym +:+ ": Low regularity ratio (" +:+ format_fixed 3 r
                       +:+ ") suggests simulated data")).
  - unfold WARN. rewrite !append_cons, append_nil. reflexivity.
  - apply contains_app_ascii; try assumption.
    now rewrite !ascii_only_app, ascii_only_format_fixed.
Qed.

Lemma real_marker_in_consistent_spread (sym : string) (r : float) :
  is_real_indicator (consistent_spread_message sym r) = contains CHECK sym.
Proof.
  destruct markers_high as (_ & _ & Hne & Hh).
  unfold is_real_indicator, consistent_spread_message.
  transitivity (contains CHECK
                  (sym +:+ ": Perfectly consistent spread ("
                       +:+ format_fixed 1 (r * 100)%float +:+ "%) suggests simulation")).
  - unfold WARN. rewrite !append_cons, append_nil. reflexivity.
  - apply contains_app_ascii; try assumption.
    now rewrite !ascii_only_app, ascii_only_format_fixed.
Qed.

Lemma simulated_marker_in_high_variation (sym : string) (r : float) :
  is_simulated_indicator (high_variation_message sym r) = is_simulated_indicator sym.
Proof.
  destruct markers_high as ((Hnw & Hhw) & (Hnc & Hhc) & _).
  unfold is_simulated_indicator, high_variation_message.
  assert (Hr : ascii_only (": High price variation (" +:+ format_fixed 3 r
                             +:+ ") suggests real market data") = true)
    by now rewrite !ascii_only_app, ascii_only_format_fixed.
  f_equal.
  - transitivity (contains WARN
                    (sym +:+ ": High price variation (" +:+ format_fixed 3 r
                         +:+ ") suggests real market data")).
    + unfold CHECK. rewrite !append_cons, append_nil. reflexivity.
    + now apply contains_app_ascii.
  - transitivity (contains CROSS
                    (sym +:+ ": High price variation (" +:+ format_fixed 3 r
                         +:+ ") suggests real market data")).
    + unfold CHECK. rewrite !append_cons, append_nil. reflexivity.
    + now apply contains_app_ascii.
Qed.

Lemma simulated_marker_in_variable_spread (sym : string) :
  is_simulated_indicator (variable_spread_message sym) = is_simulated_indicator sym.
Proof.
  destruct markers_high as ((Hnw & Hhw) & (Hnc & Hhc) & _).
  unfold is_simulated_indicator, variable_spread_message.
  f_equal.
  - transitivity (contains WARN
                    (sym +:+ ": Variable spread suggests real market conditions")).
    + unfold CHECK. rewrite !append_cons, append_nil. reflexivity.
    + now apply contains_app_ascii.
  - transitivity (contains CROSS
                    (sym +:+ ": Variable spread suggests real market conditions")).
    + unfold CHECK. rewrite !append_cons, append_nil. reflexivity.
    + now apply contains_app_ascii.
Qed.

Lemma regular_intervals_not_real (g : float) :
  is_real_indicator (regular_intervals_message g) = false.
Proof.
  destruct markers_high as (_ & _ & Hne & Hh).
  unfold is_real_indicator, regular_intervals_message.
  rewrite contains_app_ascii; try assumption; [reflexivity |].
  now rewrite !ascii_only_app, ascii_only_format_fixed.
Qed.

(** X13: an evidence record can count on both sides.  The symbol is
    copied into the price and spread records as received, so a
    simulated record (low regularity, consistent spread) also counts as
    a real indicator exactly when the symbol contains the check mark,
    and a real record (high variation, variable spread) also counts as a
    simulated indicator exactly when the symbol contains the warning
    sign or the cross.  The label and timestamp records count on one
    side only. *)
Theorem marker_in_symbol_counts_twice :
  (forall (sym : string) (ratio : float),
      is_real_indicator (low_regularity_message sym ratio) = contains CHECK sym
      /\ is_simulated_indicator (high_variation_message sym ratio)
         = (contains WARN sym || contains CROSS sym))
  /\ (forall (sym : string) (consistency : float),
         is_real_indicator (consistent_spread_message sym consistency)
         = contains CHECK sym
         /\ is_simulated_indicator (variable_spread_message sym)
            = (contains WARN sym || contains CROSS sym))
  /\ (forall avg_gap : float,
         is_real_indicator (regular_intervals_message avg_gap) = false)
  /\ is_simulated_indicator irregular_intervals_message = false
  /\ is_real_indicator lp_simulated_message = false
  /\ is_simulated_indicator lp_real_message = false.
Proof.
  split; [| split; [| split; [| repeat split]]].
  - intros sym ratio. split;
      [apply real_marker_in_low_regularity | apply simulated_marker_in_high_variation].
  - intros sym consistency. split;
      [apply real_marker_in_consistent_spread | apply simulated_marker_in_variable_spread].
  - exact regular_intervals_not_real.
Qed.

(** ** How far the indicator counts can lean *)

Lemma simulated_indicators_app (l1 l2 : list string) :
  simulated_indicators (l1 ++ l2) = simulated_indicators l1 + simulated_indicators l2.
Proof. unfold simulated_indicators. now rewrite List.filter_app, length_app. Qed.

Lemma real_indicators_app (l1 l2 : list string) :
  real_indicators (l1 ++ l2) = real_indicators l1 + real_indicators l2.
Proof. unfold real_indicators. now rewrite List.filter_app, length_app. Qed.

Lemma simulated_indicators_le (l : list string) : simulated_indicators l <= length l.
Proof. apply List.filter_length_le. Qed.

Lemma flat_map_length_le {A B : Type} (f : A -> list B) (l : list A) :
  (forall x, length (f x) <= 1) -> length (flat_map f l) <= length l.
Proof.
  intros H. induction l as [| x l IH]; [simpl; lia |]. simpl. rewrite length_app.
  specialize (H x). lia.
Qed.

Lemma price_pattern_evidence_length (sym : string) (g : list tick) :
  length (price_pattern_evidence sym g) <= 1.
Proof.
  unfold price_pattern_evidence. destruct (length g <? 3)%nat; [simpl; lia |].
  cbv zeta. destruct (_ <? 0.5)%float; simpl; lia.
Qed.

Lemma timestamp_evidence_length (gaps : list number) :
  length (timestamp_evidence gaps) <= 1.
Proof.
  unfold timestamp_evidence. destruct gaps; [simpl; lia |].
  cbv zeta. destruct (_ && _); simpl; lia.
Qed.

Lemma lp_evidence_not_simulated (labels : list string) :
  ~ In "SIMULATED" labels -> simulated_indicators (flat_map lp_evidence labels) = 0.
Proof.
  induction labels as [| l labels IH]; [reflexivity |]. intros Hnot.
  cbn [flat_map]. rewrite simulated_indicators_app, IH by (intros H; apply Hnot; now right).
  unfold lp_evidence. destruct (String.eqb_spec l "SIMULATED") as [-> | _].
  - exfalso. apply Hnot. now left.
  - destruct (String.eqb l "YOFX"); reflexivity.
Qed.

Lemma lp_evidence_gateway (labels : list string) :
  In "YOFX" labels -> 1 <= real_indicators (flat_map lp_evidence labels).
Proof.
  induction labels as [| l labels IH]; [contradiction |]. intros Hin.
  cbn [flat_map]. rewrite real_indicators_app.
  destruct (String.eqb_spec l "YOFX") as [-> | Hne].
  - assert (H : real_indicators (lp_evidence "YOFX") = 1) by reflexivity. lia.
  - destruct Hin as [-> | Hin]; [congruence | specialize (IH Hin); lia].
Qed.

Lemma variable_spread_not_simulated (syms : list string) :
  (forall s, In s syms -> is_simulated_indicator s = false) ->
  simulated_indicators (map variable_spread_message syms) = 0.
Proof.
  induction syms as [| s syms IH]; [reflexivity |]. intros H.
  unfold simulated_indicators in *. cbn [map List.filter].
  rewrite simulated_marker_in_variable_spread, (H s) by now left.
  apply IH. intros x Hx. apply H. now right.
Qed.

Lemma as_tick_symbol (m : message) (t : tick) :
  as_tick m = Some t -> m_symbol m = Some (symbol t).
Proof.
  unfold as_tick.
  destruct (m_symbol m), (m_bid m), (m_ask m), (m_timestamp m); try discriminate.
  intros H. injection H as <-. reflexivity.
Qed.

Section IndicatorBalance.

Variable fromtimestamp_ok : stamp -> bool.

(** X14: when no buffered symbol contains the warning sign or the cross,
    the one real record per symbol from the spread analyzer keeps the
    counts close: without a tick labelled SIMULATED the simulated
    indicators exceed the real ones by at most one.  So the verdict
    LIKELY_SIMULATED means a lead of exactly one with no tick labelled
    YOFX, and a feed with a tick labelled YOFX is never classified
    LIKELY_SIMULATED. *)
Theorem likely_simulated_is_narrow :
  forall (connected : bool) (evs : list event) (c : capture) (v : verdict),
    main fromtimestamp_ok connected evs = Verdict c v ->
    (forall (m : message) (sym : string),
        In m (all_ticks_of c) -> m_symbol m = Some sym ->
        is_simulated_indicator sym = false) ->
    ("SIMULATED" ∉ lp_sources (analysis c) ->
     simulated_indicators (evidence (analysis c))
     <= S (real_indicators (evidence (analysis c))))
    /\ ("YOFX" ∈ lp_sources (analysis c) -> v <> LIKELY_SIMULATED)
    /\ (v = LIKELY_SIMULATED ->
        simulated_indicators (evidence (analysis c))
        = S (real_indicators (evidence (analysis c)))
        /\ "YOFX" ∉ lp_sources (analysis c)).
Proof.
  intros connected evs c v Hmain Hfree.
  destruct (session_evidence fromtimestamp_ok connected evs c v Hmain)
    as (ticks & Hsome & _ & Hev & Hlabels & Hv).
  assert (Hsyms : forall s, In s (distinct_symbols ticks) ->
                            is_simulated_indicator s = false).
  { intros s Hin. apply distinct_symbols_In in Hin. destruct Hin as (t & Hin & <-).
    destruct (proj2 (mapM_as_tick_In _ _ Hsome) t Hin) as (m & Hm & Hast).
    exact (Hfree m (symbol t) Hm (as_tick_symbol m t Hast)). }
  set (k := length (distinct_symbols ticks)).
  set (LP := flat_map lp_evidence (distinct_labels ticks)) in *.
  set (P := flat_map (fun s => price_pattern_evidence s (ticks_of s ticks))
                     (distinct_symbols ticks)) in *.
  set (T := timestamp_evidence (timestamp_gaps ticks)) in *.
  set (SP := map variable_spread_message (distinct_symbols ticks)) in *.
  assert (HsimP : simulated_indicators P <= k).
  { etransitivity; [apply simulated_indicators_le |].
    apply flat_map_length_le. intros s. apply price_pattern_evidence_length. }
  assert (HsimT : simulated_indicators T <= 1).
  { etransitivity; [apply simulated_indicators_le | apply timestamp_evidence_length]. }
  assert (HsimS : simulated_indicators SP = 0)
    by (apply variable_spread_not_simulated; exact Hsyms).
  assert (HrealS : real_indicators SP = k) by apply variable_spread_all_real.
  assert (Hsim : simulated_indicators (evidence (analysis c))
                 = simulated_indicators LP + simulated_indicators P
                   + simulated_indicators T + simulated_indicators SP).
  { rewrite Hev, !simulated_indicators_app. lia. }
  assert (Hreal : real_indicators (evidence (analysis c))
                  = real_indicators LP + real_indicators P
                    + real_indicators T + real_indicators SP).
  { rewrite Hev, !real_indicators_app. lia. }
  assert (Hlead : "SIMULATED" ∉ lp_sources (analysis c) ->
                  simulated_indicators (evidence (analysis c))
                  <= S (real_indicators (evidence (analysis c)))).
  { intros Hno.
    assert (HsimLP : simulated_indicators LP = 0).
    { apply lp_evidence_not_simulated. intros Hin. apply Hno, Hlabels, Hin. }
    lia. }
  assert (Hgate : "YOFX" ∈ lp_sources (analysis c) -> v <> LIKELY_SIMULATED).
  { intros Hy Hl. rewrite Hv in Hl. unfold generate_verdict in Hl.
    destruct (bool_decide ("SIMULATED" ∈ lp_sources (analysis c))) eqn:Es;
      [discriminate |].
    apply bool_decide_eq_false in Es. specialize (Hlead Es).
    assert (HrealLP : 1 <= real_indicators LP)
      by (apply lp_evidence_gateway, Hlabels, Hy).
    assert (HsimLP : simulated_indicators LP = 0).
    { apply lp_evidence_not_simulated. intros Hin. apply Es, Hlabels, Hin. }
    destruct (bool_decide ("YOFX" ∈ lp_sources (analysis c)) && _); [discriminate |].
    destruct (Nat.ltb_spec (real_indicators (evidence (analysis c)))
                           (simulated_indicators (evidence (analysis c))));
      [lia | discriminate]. }
  split; [exact Hlead |]. split; [exact Hgate |].
  intros Hl. assert (Hny : "YOFX" ∉ lp_sources (analysis c)).
  { intros Hy. exact (Hgate Hy Hl). }
  split; [| exact Hny].
  rewrite Hv in Hl. unfold generate_verdict in Hl.
  destruct (bool_decide ("SIMULATED" ∈ lp_sources (analysis c))) eqn:Es;
    [discriminate |].
  apply bool_decide_eq_false in Es. specialize (Hlead Es).
  destruct (bool_decide ("YOFX" ∈ lp_sources (analysis c)) && _); [discriminate |].
  destruct (Nat.ltb_spec (real_indicators (evidence (analysis c)))
                         (simulated_indicators (evidence (analysis c))));
    [lia | discriminate].
Qed.

End IndicatorBalance.

Lemma likely_simulated_is_narrow_witness :
  main always_ok true constant_step_feed
  = Verdict (final_capture (main always_ok true constant_step_feed)) REAL
  /\ (forall (m : message) (sym : string),
         In m (all_ticks_of (final_capture (main always_ok true constant_step_feed))) ->
         m_symbol m = Some sym -> is_simulated_indicator sym = false)
  /\ ("SIMULATED"
        ∉ lp_sources (analysis (final_capture (main always_ok true constant_step_feed))))
  /\ simulated_indicators
       (evidence (analysis (final_capture (main always_ok true constant_step_feed))))
     <= S (real_indicators
             (evidence (analysis (final_capture (main always_ok true constant_step_feed))))).
Proof.
  assert (H : main always_ok true constant_step_feed
              = Verdict (final_capture (main always_ok true constant_step_feed)) REAL)
    by (vm_compute; reflexivity).
  assert (Hfree : forall (m : message) (sym : string),
             In m (all_ticks_of
                     (final_capture (main always_ok true constant_step_feed))) ->
             m_symbol m = Some sym -> is_simulated_indicator sym = false).
  { intros m sym Hin Hsym. vm_compute in Hin.
    repeat (destruct Hin as [<- | Hin]; [injection Hsym as <-; reflexivity |]).
    contradiction. }
  assert (Hno : "SIMULATED"
                  ∉ lp_sources
                      (analysis (final_capture (main always_ok true constant_step_feed)))).
  { apply (bool_decide_eq_false_1
             ("SIMULATED"
                ∈ lp_sources
                    (analysis (final_capture (main always_ok true constant_step_feed))))).
    vm_compute. reflexivity. }
  split; [exact H |]. split; [exact Hfree |]. split; [exact Hno |].
  exact (proj1 (likely_simulated_is_narrow always_ok true constant_step_feed _ _ H Hfree)
               Hno).
Defined.

(** ** The timestamp analyzer on few ticks *)

Lemma small_gap_regularity (n u : nat) :
  1 <= u <= n -> n <= 3 -> (int_truediv u n <? 0.3)%float = false.
Proof.
  intros Hu Hn.
  assert (Htable :
            forallb (fun n => forallb (fun u => negb (int_truediv u n <? 0.3)%float)
                                      (seq 1 n))
                    (seq 1 3) = true) by (vm_compute; reflexivity).
  rewrite forallb_forall in Htable.
  assert (Hin : In n (seq 1 3)) by (apply in_seq; lia).
  specialize (Htable n Hin). rewrite forallb_forall in Htable.
  assert (Hiu : In u (seq 1 n)) by (apply in_seq; lia).
  specialize (Htable u Hiu). now apply negb_true_iff in Htable.
Qed.

Lemma timestamp_evidence_few (gaps : list number) :
  1 <= length gaps <= 3 -> timestamp_evidence gaps = [irregular_intervals_message].
Proof.
  intros Hlen.
  assert (Hne : gaps <> []) by (destruct gaps; [simpl in Hlen; lia | discriminate]).
  rewrite (timestamp_evidence_some gaps Hne).
  pose proof (num_distinct_count_bounds gaps Hne) as Hu.
  rewrite (small_gap_regularity (length gaps)) by (try exact Hu; lia).
  reflexivity.
Qed.

(** X15: with four ticks or fewer in all, the timestamp analyzer never
    reports regular intervals: up to three gaps give a regularity of at
    least 1/3, which is not below 0.3.  It emits nothing for a single
    tick and the irregular-interval (real) record for two to four, so
    the regular-interval (simulated) record needs at least five ticks. *)
Theorem regular_intervals_need_five_ticks :
  (forall (ticks : list tick) (a : analysis_t),
      length ticks <= 4 ->
      evidence (analyze_timestamps ticks a)
      = evidence a
        ++ (if (length ticks <=? 1)%nat then [] else [irregular_intervals_message]))
  /\ (forall (ticks : list tick) (a : analysis_t) (avg_gap : float),
         evidence (analyze_timestamps ticks a)
         = evidence a ++ [regular_intervals_message avg_gap] ->
         5 <= length ticks).
Proof.
  assert (Hfew : forall (ticks : list tick) (a : analysis_t),
             length ticks <= 4 ->
             evidence (analyze_timestamps ticks a)
             = evidence a
               ++ (if (length ticks <=? 1)%nat then []
                   else [irregular_intervals_message])).
  { intros ticks a Hlen. unfold analyze_timestamps. cbn [evidence]. f_equal.
    pose proof (timestamp_gaps_length ticks) as Hg.
    destruct (Nat.leb_spec (length ticks) 1) as [Hle | Hgt].
    - destruct (timestamp_gaps ticks); [reflexivity | simpl in Hg; lia].
    - apply timestamp_evidence_few. lia. }
  split; [exact Hfew |].
  intros ticks a avg_gap Hev.
  destruct (Nat.le_gt_cases 5 (length ticks)) as [Hge | Hlt]; [exact Hge |].
  rewrite Hfew in Hev by lia. apply app_inv_head in Hev.
  destruct (length ticks <=? 1)%nat; [discriminate |].
  injection Hev as Hev. vm_compute in Hev. discriminate.
Qed.

Lemma regular_intervals_need_five_ticks_witness :
  length three_ticks <= 4
  /\ evidence (analyze_timestamps three_ticks analysis_init)
     = [irregular_intervals_message].
Proof.
  assert (H : length three_ticks <= 4) by (simpl; lia).
  split; [exact H |].
  exact (proj1 regular_intervals_need_five_ticks three_ticks analysis_init H).
Defined.

(** ** How many ticks are analysed *)

Lemma dict_append_flat_length {A : Type} (k : string) (v : A)
      (d : list (string * list A)) :
  length (flat_map snd (dict_append k v d)) = S (length (flat_map snd d)).
Proof.
  induction d as [| [k0 vs] d IH]; [reflexivity |]. simpl.
  destruct (String.eqb k0 k); simpl; rewrite !length_app.
  - simpl. lia.
  - rewrite IH. lia.
Qed.

Lemma flat_map_capacity {A : Type} (n : nat) (d : list (string * list A)) :
  Forall (fun kv => length (snd kv) <= n) d ->
  length (flat_map snd d) <= n * length d.
Proof.
  induction 1 as [| kv d Hkv _ IH]; [simpl; lia |]. simpl. rewrite length_app. lia.
Qed.

Section AnalysedTicks.

Variable fromtimestamp_ok : stamp -> bool.

Lemma count_inv_handle_tick (m : message) (c : capture) :
  length (all_ticks_of c) <= total_tick_count c ->
  length (all_ticks_of (snd (handle_tick fromtimestamp_ok m c)))
  <= total_tick_count (snd (handle_tick fromtimestamp_ok m c)).
Proof.
  intros Hc. unfold all_ticks_of in *.
  destruct (handle_tick_effect fromtimestamp_ok m c) as (-> & _ & _ & H).
  destruct (m_symbol m) as [sym |]; destruct H as [-> _]; [| lia].
  destruct (length (dict_get sym (captured_ticks c)) <? CAPTURE_COUNT)%nat; [| lia].
  rewrite dict_append_flat_length. lia.
Qed.

Lemma count_inv_loop (evs : list event) (c : capture) :
  length (all_ticks_of c) <= total_tick_count c ->
  length (all_ticks_of (loop_state (receive_loop fromtimestamp_ok evs c)))
  <= total_tick_count (loop_state (receive_loop fromtimestamp_ok evs c)).
Proof.
  revert c. induction evs as [| ev evs IH]; intros c Hc; [exact Hc |].
  destruct ev as [| | | [| | | m] |]; cbn [receive_loop handle_frame loop_state];
    try assumption; try (now apply IH).
  pose proof (count_inv_handle_tick m c Hc) as Hc'.
  destruct (is_tick m); [| now apply IH].
  destruct (handle_tick fromtimestamp_ok m c) as [[| |] c1]; simpl in *;
    [now apply IH | assumption | assumption].
Qed.

Lemma final_capture_core (connected : bool) (evs : list event) :
  same_core (final_capture (main fromtimestamp_ok connected evs))
            (if connected
             then loop_state (receive_loop fromtimestamp_ok evs capture_init)
             else capture_init).
Proof.
  unfold main, capture_and_analyze. destruct connected; [| repeat split].
  destruct (receive_loop fromtimestamp_ok evs capture_init) as [c | how c | c | c];
    try (repeat split; fail).
  destruct (analyze_capture_cases c)
    as [[_ ->] | [(_ & _ & ->) | (ticks & _ & _ & ->)]]; try (repeat split; fail).
  split; [reflexivity |]. split; [reflexivity |].
  cbn [final_capture analysis loop_state]. apply run_analyzers_symbols.
Qed.

(** X16: however the process ends, the ticks held for analysis number at
    most the ticks received, and at most CAPTURE_COUNT for every symbol
    seen.  The counter reported as the total of ticks analysed is the
    number received, which can be larger. *)
Theorem analysed_ticks_bounded :
  forall (connected : bool) (evs : list event),
    length (all_ticks_of (final_capture (main fromtimestamp_ok connected evs)))
    <= total_tick_count (final_capture (main fromtimestamp_ok connected evs))
    /\ length (all_ticks_of (final_capture (main fromtimestamp_ok connected evs)))
       <= CAPTURE_COUNT
          * size (symbols (analysis (final_capture (main fromtimestamp_ok connected evs)))).
Proof.
  intros connected evs.
  destruct (final_capture_core connected evs) as (Ht & Hn & Hs).
  unfold all_ticks_of. rewrite Ht, Hn, Hs. destruct connected; [| simpl; lia].
  split.
  - apply (count_inv_loop evs capture_init). simpl. lia.
  - assert (Hinit : keys_inv capture_init) by (split; [| constructor]; reflexivity).
    destruct (keys_inv_loop fromtimestamp_ok evs capture_init Hinit) as [Hk Hnd].
    rewrite Hk, size_list_to_set by (now apply NoDup_ListNoDup). rewrite length_map.
    apply flat_map_capacity.
    apply (receive_loop_within_capacity fromtimestamp_ok evs capture_init). constructor.
Qed.

End AnalysedTicks.

(** ** The label counts *)

Lemma dict_count_incr (l k : string) (d : list (string * nat)) :
  dict_count l (dict_incr k d)
  = dict_count l d + (if String.eqb k l then 1 else 0).
Proof.
  induction d as [| [k0 n] d IH]; simpl.
  - destruct (String.eqb k l); reflexivity.
  - destruct (String.eqb_spec k0 k) as [-> | Hne]; simpl.
    + destruct (String.eqb k l); lia.
    + destruct (String.eqb_spec k0 l) as [-> | Hl]; [| exact IH].
      destruct (String.eqb_spec k l); [congruence | lia].
Qed.

Lemma dict_incr_sum (k : string) (d : list (string * nat)) :
  list_sum (map snd (dict_incr k d)) = S (list_sum (map snd d)).
Proof.
  induction d as [| [k0 n] d IH]; [reflexivity |]. simpl.
  destruct (String.eqb k0 k); simpl; [lia | rewrite IH; lia].
Qed.

Lemma lp_step_count (l : string) (ticks : list tick) (d : list (string * nat))
      (S : gset string) :
  dict_count l (fst (fold_left lp_step ticks (d, S)))
  = dict_count l d + length (ticks_labelled l ticks).
Proof.
  revert d S. induction ticks as [| t ticks IH]; intros d S; simpl; [lia |].
  unfold lp_step at 2. cbn [fst snd]. rewrite IH, dict_count_incr.
  destruct (String.eqb (lp_label t) l); simpl; lia.
Qed.

Lemma lp_step_sum (ticks : list tick) (d : list (string * nat)) (S : gset string) :
  list_sum (map snd (fst (fold_left lp_step ticks (d, S))))
  = list_sum (map snd d) + length ticks.
Proof.
  revert d S. induction ticks as [| t ticks IH]; intros d S; simpl; [lia |].
  unfold lp_step at 2. cbn [fst snd]. rewrite IH, dict_incr_sum. lia.
Qed.

Lemma dict_count_In (l : string) (n : nat) (d : list (string * nat)) :
  List.NoDup (map fst d) -> In (l, n) d -> dict_count l d = n.
Proof.
  induction d as [| [k0 n0] d IH]; [contradiction |]. simpl. intros Hnd Hin.
  inversion Hnd as [| ? ? Hnot Hnd']; subst.
  destruct Hin as [Heq | Hin].
  - injection Heq as -> ->. now rewrite String.eqb_refl.
  - destruct (String.eqb_spec k0 l) as [-> | _]; [| now apply IH].
    exfalso. apply Hnot. apply in_map_iff. now exists (l, n).
Qed.

(** X17: the table of label counts that [analyze_lp] builds has one row
    for each distinct label, in order of first arrival; each row counts
    the ticks carrying that label, a tick without ['lp'] counting under
    "UNKNOWN"; no row is zero and the rows add up to the number of
    ticks. *)
Theorem lp_counts_tally :
  forall (ticks : list tick) (sources : gset string),
    map fst (fst (fold_left lp_step ticks ([], sources))) = distinct_labels ticks
    /\ (forall (l : string) (n : nat),
           In (l, n) (fst (fold_left lp_step ticks ([], sources))) ->
           n = length (ticks_labelled l ticks) /\ 1 <= n)
    /\ list_sum (map snd (fst (fold_left lp_step ticks ([], sources)))) = length ticks.
Proof.
  intros ticks sources.
  assert (Hkeys : map fst (fst (fold_left lp_step ticks ([], sources)))
                  = distinct_labels ticks) by apply lp_step_keys.
  split; [exact Hkeys |]. split; [| apply lp_step_sum].
  intros l n Hin.
  assert (Hnd : List.NoDup (map fst (fst (fold_left lp_step ticks ([], sources))))).
  { rewrite Hkeys. apply fold_note_symbol_NoDup. constructor. }
  pose proof (dict_count_In l n _ Hnd Hin) as Hc. rewrite lp_step_count in Hc.
  simpl in Hc. split; [now symmetry |]. subst n.
  assert (Hl : In l (distinct_labels ticks)).
  { rewrite <- Hkeys. apply in_map_iff. now exists (l, length (ticks_labelled l ticks)). }
  apply distinct_labels_In in Hl. destruct Hl as (t & Ht & Hlab).
  assert (Hf : In t (ticks_labelled l ticks)).
  { apply filter_In. split; [exact Ht | now apply String.eqb_eq]. }
  destruct (ticks_labelled l ticks); [contradiction | simpl; lia].
Qed.

(** ** A feed of one symbol *)

Section OneSymbol.

Variable fromtimestamp_ok : stamp -> bool.




End OneSymbol.


(** ** Evidence polarity and the verdict *)



















(** ** The rotation monitor *)

(** X19: [check_system_status] counts five checks but can count six
    passes, the first check adding one for each of the two scripts.  It
    returns only on Windows; what it returns is whether exactly five of
    the six probes succeeded, so it answers [False] with 6/5 on a
    machine where everything is in place.  Off Windows the scheduler
    probe raises, so the function never returns. *)
Theorem status_check_passes_with_one_failure :
  (forall (m : Monitor.machine) (b : bool) (t : Monitor.tally),
      Monitor.check_system_status m = Monitor.Returns (b, t) ->
      Monitor.os_name m = Monitor.Windows
      /\ t = Monitor.mkTally (Monitor.successes m) 5
      /\ b = (Monitor.successes m =? 5)%nat)
  /\ (forall m : Monitor.machine,
         Forall (fun r => r = Monitor.Returns true) (Monitor.probe_outcomes m) ->
         Monitor.check_system_status m
         = Monitor.Returns (false, Monitor.mkTally 6 5))
  /\ (forall m : Monitor.machine,
         Monitor.os_name m = Monitor.Posix ->
         Monitor.check_system_status m = Monitor.Raises)
  /\ (forall m : Monitor.machine,
         Forall (fun r => r <> Monitor.Raises) (Monitor.probe_outcomes m) ->
         exists b t, Monitor.check_system_status m = Monitor.Returns (b, t)).
Proof.
  split; [| split; [| split]].
  - intros m b t. unfold Monitor.check_system_status, Monitor.successes,
      Monitor.probe_outcomes.
    destruct (Monitor.rotate_script_exists m) as [r |]; [| discriminate].
    destruct (Monitor.compress_script_exists m) as [c |]; [| discriminate].
    destruct (Monitor.db_dir_exists m) as [d |]; [| discriminate].
    destruct (Monitor.metadata_file_exists m) as [f |]; [| discriminate].
    cbn [Monitor.bind].
    destruct (Monitor.scheduler_check m) as [s |] eqn:Es; [| discriminate].
    destruct (Monitor.disk_check m) as [k |]; [| discriminate].
    cbn [Monitor.bind]. intros H. injection H as <- <-.
    split.
    + unfold Monitor.scheduler_check in Es.
      destruct (Monitor.os_name m); [reflexivity | discriminate].
    + destruct r, c, d, f, s, k; split; reflexivity.
  - intros m Hall. unfold Monitor.probe_outcomes in Hall.
    repeat match goal with
           | H : Forall _ (_ :: _) |- _ =>
               let H1 := fresh "H" in
               let H2 := fresh "H" in
               inversion H as [| ? ? H1 H2]; subst; clear H
           end.
    unfold Monitor.check_system_status.
    repeat match goal with
           | H : _ = Monitor.Returns true |- _ => rewrite H; clear H
           end.
    reflexivity.
  - intros m Hos. unfold Monitor.check_system_status, Monitor.scheduler_check.
    rewrite Hos.
    destruct (Monitor.rotate_script_exists m); [| reflexivity].
    destruct (Monitor.compress_script_exists m); [| reflexivity].
    destruct (Monitor.db_dir_exists m); [| reflexivity].
    destruct (Monitor.metadata_file_exists m); reflexivity.
  - intros m Hall. unfold Monitor.probe_outcomes in Hall.
    repeat match goal with
           | H : Forall _ (_ :: _) |- _ =>
               let H1 := fresh "H" in
               let H2 := fresh "H" in
               inversion H as [| ? ? H1 H2]; subst; clear H
           end.
    unfold Monitor.check_system_status.
    destruct (Monitor.rotate_script_exists m); [| congruence].
    destruct (Monitor.compress_script_exists m); [| congruence].
    destruct (Monitor.db_dir_exists m); [| congruence].
    destruct (Monitor.metadata_file_exists m); [| congruence].
    destruct (Monitor.scheduler_check m); [| congruence].
    destruct (Monitor.disk_check m); [| congruence].
    cbn [Monitor.bind]. eauto.
Qed.

Lemma status_check_passes_with_one_failure_witness :
  Forall (fun r => r = Monitor.Returns true)
         (Monitor.probe_outcomes Monitor.healthy_windows)
  /\ Monitor.check_system_status Monitor.healthy_windows
     = Monitor.Returns (false, Monitor.mkTally 6 5)
  /\ Monitor.os_name Monitor.healthy_posix = Monitor.Posix
  /\ Monitor.check_system_status Monitor.healthy_posix = Monitor.Raises.
Proof.
  assert (H : Forall (fun r => r = Monitor.Returns true)
                     (Monitor.probe_outcomes Monitor.healthy_windows)).
  { repeat constructor. }
  split; [exact H |].
  split; [exact (proj1 (proj2 status_check_passes_with_one_failure) _ H) |].
  split; [reflexivity |].
  exact (proj1 (proj2 (proj2 status_check_passes_with_one_failure))
               Monitor.healthy_posix eq_refl).
Defined.

(** X20: [main] passes [args.dry_run or True] to both tests, which is
    [True] whatever the command line says: the script is started with
    [-DryRun] or [DRY_RUN=true] in every case, so the exit status of
    [test-rotation] and [test-compression] depends on the dry run of the
    script alone and [--dry-run] changes nothing. *)
Theorem dry_run_flag_changes_nothing :
  (forall (run : Monitor.invocation -> Monitor.result Z) (os : Monitor.platform)
          (script : string) (script_exists : Monitor.result bool) (flag : bool),
      Monitor.main_test_rotation run os script script_exists flag
      = Monitor.main_test_rotation run os script script_exists true
      /\ Monitor.main_test_compression run script script_exists flag
         = Monitor.main_test_compression run script script_exists true)
  /\ (forall (run1 run2 : Monitor.invocation -> Monitor.result Z)
             (os : Monitor.platform) (script : string)
             (script_exists : Monitor.result bool) (flag : bool),
         run1 (Monitor.rotation_invocation os script true)
         = run2 (Monitor.rotation_invocation os script true) ->
         Monitor.main_test_rotation run1 os script script_exists flag
         = Monitor.main_test_rotation run2 os script script_exists flag)
  /\ (forall script : string,
         Monitor.argv (Monitor.rotation_invocation Monitor.Windows script true)
         = Monitor.argv (Monitor.rotation_invocation Monitor.Windows script false)
           ++ ["-DryRun"]
         /\ Monitor.env_dry_run (Monitor.rotation_invocation Monitor.Posix script true)
            = Some "true"
         /\ Monitor.env_dry_run (Monitor.rotation_invocation Monitor.Posix script false)
            = Some "false"
         /\ Monitor.env_dry_run (Monitor.compression_invocation script true)
            = Some "true").
Proof.
  split; [| split].
  - intros run os script script_exists flag.
    unfold Monitor.main_test_rotation, Monitor.main_test_compression.
    now rewrite orb_true_r.
  - intros run1 run2 os script script_exists flag Hrun.
    unfold Monitor.main_test_rotation, Monitor.run_rotation_test, Monitor.run_test.
    rewrite orb_true_r, Hrun. reflexivity.
  - intros script. repeat split.
Qed.

Lemma dry_run_flag_changes_nothing_witness :
  (fun _ : Monitor.invocation => Monitor.Returns 0%Z)
    (Monitor.rotation_invocation Monitor.Posix "rotate_tick_db.sh" true)
  = (fun i : Monitor.invocation =>
       match Monitor.env_dry_run i with
       | Some "true" => Monitor.Returns 0%Z
       | _ => Monitor.Returns 1%Z
       end)
      (Monitor.rotation_invocation Monitor.Posix "rotate_tick_db.sh" true)
  /\ Monitor.main_test_rotation (fun _ => Monitor.Returns 0%Z) Monitor.Posix
       "rotate_tick_db.sh" (Monitor.Returns true) false
     = Monitor.main_test_rotation
         (fun i => match Monitor.env_dry_run i with
                   | Some "true" => Monitor.Returns 0%Z
                   | _ => Monitor.Returns 1%Z
                   end)
         Monitor.Posix "rotate_tick_db.sh" (Monitor.Returns true) false.
Proof.
  split; [reflexivity |].
  exact (proj1 (proj2 dry_run_flag_changes_nothing) _ _ Monitor.Posix
               "rotate_tick_db.sh" (Monitor.Returns true) false eq_refl).
Defined.
